(** * Recurrent spiking neurons of snntorch: RLeaky and RSynaptic

    A shallow embedding of [snntorch/_neurons/rleaky.py] and
    [snntorch/_neurons/rsynaptic.py].  Tensor entries are exact rationals
    ([Qc]), so rounding, infinities and NaN are outside the model; a tensor is
    a list of batch rows with the engine's broadcasting of sizes; Python
    exceptions are an error type; an instance is a record threaded through
    [forward], and the registry of instances is a list threaded through the
    class methods. *)

From Stdlib Require Import String QArith Qcanon ZArith List Bool.
Import ListNotations.

Set Implicit Arguments.
Open Scope Qc_scope.

(** ** Scalars *)

Definition Qcltb (x y : Qc) : bool :=
  match x ?= y with Lt => true | _ => false end.

(** [x.clamp(lo, hi)] on one entry. *)
Definition clamp1 (lo hi x : Qc) : Qc :=
  if Qcltb x lo then lo else if Qcltb hi x then hi else x.

(** ** Exceptions and the error monad *)

Inductive exn : Type :=
| TypeError (msg : string)
| AttributeError (msg : string)
| RuntimeError (msg : string)
| UnboundLocalError (msg : string)
| ValueError (msg : string).

Inductive result (A : Type) : Type :=
| Ok (a : A)
| Raise (e : exn).
Arguments Raise {A} e.

Definition rbind {A B} (m : result A) (k : A -> result B) : result B :=
  match m with
  | Ok a => k a
  | Raise e => Raise e
  end.

Declare Scope py_scope.
Delimit Scope py_scope with py.
Notation "x <- m ;; k" := (rbind m (fun x => k))
  (at level 61, m at next level, right associativity) : py_scope.
Notation "' p <- m ;; k" := (rbind m (fun x => match x with p => k end))
  (at level 61, p pattern, m at next level, right associativity) : py_scope.
Open Scope py_scope.

(** ** The tensor engine

    A tensor holds its entries row by row (batch row, then neuron) and the
    flag telling whether it takes part in gradient history.  A number and a
    per-neuron vector are tensors with one row. *)

Record tensor : Type := mkTensor {
  data : list (list Qc);
  requires_grad : bool
}.

Definition size_mismatch : exn :=
  RuntimeError "The size of tensor a must match the size of tensor b".

Section Broadcast.
Context {A B C : Type}.
Variable f : A -> B -> result C.

Fixpoint zipM (a : list A) (b : list B) : result (list C) :=
  match a, b with
  | [], [] => Ok []
  | x :: a', y :: b' =>
      z <- f x y ;; zs <- zipM a' b' ;; Ok (z :: zs)
  | _, _ => Raise size_mismatch
  end.

(** One dimension of the engine's broadcasting rule: equal sizes pair up,
    a size of one is repeated, anything else is a shape error. *)
Definition broadcast (a : list A) (b : list B) : result (list C) :=
  if Nat.eqb (length a) (length b) then zipM a b
  else match a, b with
       | [x], _ => zipM (repeat x (length b)) b
       | _, [y] => zipM a (repeat y (length a))
       | _, _ => Raise size_mismatch
       end.
End Broadcast.

(** Elementwise binary operation with broadcasting in both dimensions. *)
Definition pointwise (op : Qc -> Qc -> Qc) (s t : tensor) : result tensor :=
  d <- broadcast (broadcast (fun x y => Ok (op x y))) (data s) (data t) ;;
  Ok (mkTensor d (requires_grad s || requires_grad t)).

Definition tadd : tensor -> tensor -> result tensor := pointwise Qcplus.
Definition tsub : tensor -> tensor -> result tensor := pointwise Qcminus.
Definition tmul : tensor -> tensor -> result tensor := pointwise Qcmult.

Definition tmap (f : Qc -> Qc) (t : tensor) : tensor :=
  mkTensor (map (map f) (data t)) (requires_grad t).

(** [t.clamp(lo, hi)]: a new tensor, [t] itself is not modified. *)
Definition clamp (lo hi : Qc) (t : tensor) : tensor := tmap (clamp1 lo hi) t.

(** A Python number used as an operand. *)
Definition py_scalar (q : Qc) : tensor := mkTensor [[q]] false.

(** [torch.zeros_like(t)]. *)
Definition zeros_like (t : tensor) : tensor :=
  mkTensor (map (map (fun _ => 0)) (data t)) false.

Definition ones_like (t : tensor) : tensor :=
  mkTensor (map (map (fun _ => 1)) (data t)) false.

(** [t.detach_()]: same entries, cut from the gradient history. *)
Definition detach_ (t : tensor) : tensor := mkTensor (data t) false.

(** [t.size(0)]. *)
Definition size0 (t : tensor) : nat := length (data t).

Definition shape (t : tensor) : list nat := map (@length Qc) (data t).

(** ** Python values handed to a neuron as state *)

(** A state argument or attribute is the default [False], the uninitialised
    marker [_SpikeTensor(init_flag=False)], or a tensor. *)
Inductive pyval : Type :=
| PFalse
| SpikeTensor
| Tensor (t : tensor).

(** [hasattr(v, "init_flag")]. *)
Definition hasattr_init_flag (v : pyval) : bool :=
  match v with SpikeTensor => true | _ => false end.

(** [v is False]. *)
Definition is_False (v : pyval) : bool :=
  match v with PFalse => true | _ => false end.

(** The value as an operand of tensor arithmetic: [False] is the number 0,
    the marker is an empty tensor. *)
Definition as_tensor (v : pyval) : tensor :=
  match v with
  | PFalse => py_scalar 0
  | SpikeTensor => mkTensor [[]] false
  | Tensor t => t
  end.

(** ** The base class (lif.py) *)

(** Modelled from the spec: the forward value of the spike nonlinearity of
    lif.py, which is not among the sources.  The spec's recurrence fires when
    the membrane "exceeds" the threshold, and the class docstrings of
    rleaky.py and rsynaptic.py read [U > U_thr => S = 1]: a strict
    comparison of the shifted membrane with zero. *)
Definition heaviside (x : Qc) : Qc := if Qcltb 0 x then 1 else 0.

(** Modelled from the spec: [mem_reset] of lif.py, a {0,1} tensor that is 1
    where the membrane exceeds the threshold, without gradient history. *)
Definition mem_reset (threshold mem : tensor) : result tensor :=
  mem_shift <- tsub mem threshold ;;
  Ok (detach_ (tmap heaviside mem_shift)).

(** Modelled from the spec: [fire] of lif.py, the per-element threshold
    comparison. *)
Definition fire (threshold mem : tensor) : result tensor :=
  mem_shift <- tsub mem threshold ;;
  Ok (tmap heaviside mem_shift).

Definition Qcmax (x y : Qc) : Qc := if Qcltb x y then y else x.

Definition Qceqb (x y : Qc) : bool :=
  match x ?= y with Eq => true | _ => false end.

Definition inhibit_row (row : list Qc) : list Qc :=
  match row with
  | [] => []
  | x :: rest =>
      let top := fold_left Qcmax rest x in
      map (fun u => if Qceqb u top then heaviside u else 0) row
  end.

(** Modelled from the spec: [fire_inhibition] of lif.py; in each batch row
    only the neurons of maximal potential may spike, the others are forced
    to zero. *)
Definition fire_inhibition (threshold : tensor) (batch_size : nat)
    (mem : tensor) : result tensor :=
  mem_shift <- tsub mem threshold ;;
  Ok (mkTensor (map inhibit_row (data mem_shift)) (requires_grad mem_shift)).

(** [torch.zeros_like(t, requires_grad=True)]. *)
Definition zeros_like_grad (t : tensor) : tensor :=
  mkTensor (data (zeros_like t)) true.

(** A zero state shaped like the input. *)
Definition zero_state (input_ : tensor) : pyval :=
  Tensor (zeros_like_grad input_).

(** Modelled from the spec: [_SpikeTorchConv] of lif.py, which is not among
    the sources: the conversion of the state slots it is handed into concrete
    zero states shaped like the reference input.  Each slot is first moved
    with [arg.to("cpu")], a method that [False] does not have, and is then
    replaced by [torch.zeros_like(input_, requires_grad=True)]: every slot of
    one call is zeroed anew, whether it bears the marker or holds a tensor,
    so that a call after [reset_hidden] starts as a first call does. *)
Definition convert_slot (input_ : tensor) (arg : pyval) : result pyval :=
  match arg with
  | PFalse => Raise (AttributeError "to")
  | SpikeTensor | Tensor _ => Ok (zero_state input_)
  end.

(** Modelled from the spec: [_SpikeTorchConv] of lif.py on the slots it is
    handed, converted from left to right; the first slot that cannot be
    converted raises. *)
Fixpoint _SpikeTorchConv (args : list pyval) (input_ : tensor)
  : result (list pyval) :=
  match args with
  | [] => Ok []
  | arg :: rest =>
      state <- convert_slot input_ arg ;;
      states <- _SpikeTorchConv rest input_ ;;
      Ok (state :: states)
  end.

(** Modelled from the spec: the reset-mechanism tokens of the base class and
    the integer code kept in [reset_mechanism_val]. *)
Inductive reset_mechanism : Type := subtract | zero | none.

Definition reset_dict (r : reset_mechanism) : Z :=
  match r with subtract => 0 | zero => 1 | none => 2 end%Z.

(** ** Methods: state passing with exceptions

    A method takes the instance and returns the instance as the call left it
    together with the value returned or the exception raised; attributes
    written before a [raise] stay written. *)

Definition method (S A : Type) : Type := S -> S * result A.

Definition mret {S A} (a : A) : method S A := fun s => (s, Ok a).

Definition mbind {S A B} (m : method S A) (k : A -> method S B) : method S B :=
  fun s => match m s with
           | (s', Ok a) => k a s'
           | (s', Raise e) => (s', Raise e)
           end.

Definition lift {S A} (r : result A) : method S A := fun s => (s, r).

Definition self_ {S} : method S S := fun s => (s, Ok s).

Definition assign {S} (upd : S -> S) : method S unit := fun s => (upd s, Ok tt).

(** Reading an attribute that may not have been set. *)
Definition getattr {S A} (name : string) (proj : S -> option A) : method S A :=
  fun s => match proj s with
           | Some v => (s, Ok v)
           | None => (s, Raise (AttributeError name))
           end.

Declare Scope method_scope.
Delimit Scope method_scope with method.
Notation "x <~ m ;; k" := (mbind m (fun x => k))
  (at level 61, m at next level, right associativity) : method_scope.
Notation "' p <~ m ;; k" := (mbind m (fun x => match x with p => k end))
  (at level 61, p pattern, m at next level, right associativity) : method_scope.
Notation "m ;;; k" := (mbind m (fun _ => k))
  (at level 61, right associativity) : method_scope.
Open Scope method_scope.

(** Tuple unpacking of two and of three values. *)
Definition unpack2 {A} (l : list A) : result (A * A) :=
  match l with
  | [a; b] => Ok (a, b)
  | _ => Raise (ValueError "wrong number of values to unpack")
  end.

Definition unpack3 {A} (l : list A) : result (A * A * A) :=
  match l with
  | [a; b; c] => Ok (a, b, c)
  | _ => Raise (ValueError "wrong number of values to unpack")
  end.

(** ** RLeaky (rleaky.py) *)

Module RLeaky.

(** The attributes of an instance.  [spk], [mem] and [reset] are set by
    [__init__] or [forward]; [None] is an attribute not set yet. *)
Record t : Type := mk {
  beta : tensor;
  V : tensor;
  threshold : tensor;
  init_hidden : bool;
  inhibition : bool;
  reset_mechanism_val : Z;
  output : bool;
  spk : option pyval;
  mem : option pyval;
  reset : option tensor
}.

Definition set_spk (v : pyval) (self : t) : t :=
  mk (beta self) (V self) (threshold self) (init_hidden self)
     (inhibition self) (reset_mechanism_val self) (output self)
     (Some v) (mem self) (reset self).

Definition set_mem (v : pyval) (self : t) : t :=
  mk (beta self) (V self) (threshold self) (init_hidden self)
     (inhibition self) (reset_mechanism_val self) (output self)
     (spk self) (Some v) (reset self).

Definition set_reset (r : tensor) (self : t) : t :=
  mk (beta self) (V self) (threshold self) (init_hidden self)
     (inhibition self) (reset_mechanism_val self) (output self)
     (spk self) (mem self) (Some r).

(** Modelled from the spec: [init_rleaky] of lif.py, both states start as
    the uninitialised marker. *)
Definition init_rleaky : pyval * pyval := (SpikeTensor, SpikeTensor).

(** Modelled from the spec: the parameter registration of the base class
    and [_V_register_buffer], which lif.py holds; as [_alpha_register_buffer]
    of rsynaptic.py does, a learnable parameter takes part in gradient
    history and a buffer does not. *)
Definition register (value : tensor) (learn : bool) : tensor :=
  mkTensor (data value) learn.

(** [__init__]; [spike_grad] only matters on the backward pass and is left
    out. *)
Definition __init__ (beta V threshold : tensor)
    (init_hidden inhibition learn_beta learn_threshold learn_V : bool)
    (reset_mechanism_ : reset_mechanism) (output : bool) : t :=
  let hidden := if init_hidden then (Some (fst init_rleaky), Some (snd init_rleaky))
                else (None, None) in
  mk (register beta learn_beta) (register V learn_V)
     (register threshold learn_threshold) init_hidden inhibition
     (reset_dict reset_mechanism_) output (fst hidden) (snd hidden) None.

Definition attr {A} (name : string) (o : option A) : result A :=
  match o with
  | Some v => Ok v
  | None => Raise (AttributeError name)
  end.

Definition base_state_function (self : t) (input_ : tensor) (spk mem : pyval)
  : result tensor :=
  decayed <- tmul (clamp 0 1 (beta self)) (as_tensor mem) ;;
  driven <- tadd decayed input_ ;;
  recurrent <- tmul (V self) (as_tensor spk) ;;
  tadd driven recurrent.

(** The call [self.base_state_function(input_, mem)] of the reset-to-zero
    branch: two positional arguments for a method of three, so Python
    raises before the body runs. *)
Definition base_state_function_two_args (self : t) (input_ : tensor)
    (mem : pyval) : result tensor :=
  Raise (TypeError
    "base_state_function() missing 1 required positional argument: 'mem'").

Definition unbound_state_fn : exn :=
  UnboundLocalError "local variable 'state_fn' referenced before assignment".

Definition build_state_function (self : t) (input_ : tensor) (spk mem : pyval)
  : result tensor :=
  if (reset_mechanism_val self =? 0)%Z then
    base <- base_state_function self input_ spk mem ;;
    reset_ <- attr "reset" (reset self) ;;
    drop <- tmul reset_ (threshold self) ;;
    tsub base drop
  else if (reset_mechanism_val self =? 1)%Z then
    base <- base_state_function_two_args self input_ mem ;;
    reset_ <- attr "reset" (reset self) ;;
    base' <- base_state_function self input_ spk mem ;;
    drop <- tmul reset_ base' ;;
    tsub base drop
  else if (reset_mechanism_val self =? 2)%Z then
    base_state_function self input_ spk mem
  else Raise unbound_state_fn.

Definition base_state_function_hidden (self : t) (input_ : tensor)
  : result tensor :=
  mem_ <- attr "mem" (mem self) ;;
  decayed <- tmul (clamp 0 1 (beta self)) (as_tensor mem_) ;;
  driven <- tadd decayed input_ ;;
  spk_ <- attr "spk" (spk self) ;;
  recurrent <- tmul (V self) (as_tensor spk_) ;;
  tadd driven recurrent.

Definition build_state_function_hidden (self : t) (input_ : tensor)
  : result tensor :=
  if (reset_mechanism_val self =? 0)%Z then
    base <- base_state_function_hidden self input_ ;;
    reset_ <- attr "reset" (reset self) ;;
    drop <- tmul reset_ (threshold self) ;;
    tsub base drop
  else if (reset_mechanism_val self =? 1)%Z then
    base <- base_state_function_hidden self input_ ;;
    reset_ <- attr "reset" (reset self) ;;
    base' <- base_state_function_hidden self input_ ;;
    drop <- tmul reset_ base' ;;
    tsub base drop
  else if (reset_mechanism_val self =? 2)%Z then
    base_state_function_hidden self input_
  else Raise unbound_state_fn.

Definition _rleaky_forward_cases (spk mem : pyval) : result unit :=
  if negb (is_False mem) || negb (is_False spk) then
    Raise (TypeError "When `init_hidden=True`, RLeaky expects 1 input argument.")
  else Ok tt.

(** What [forward] returns: the spike alone, or the spike and the
    membrane. *)
Inductive returned : Type :=
| Spk (spk : tensor)
| SpkMem (spk mem : tensor).

(** The [if self.inhibition: ... else: ...] of both branches of
    [forward]. *)
Definition spike (self : t) (mem : tensor) : result tensor :=
  if inhibition self then fire_inhibition (threshold self) (size0 mem) mem
  else fire (threshold self) mem.

(** The [if]/[elif] that opens [forward]: when an argument bears the marker
    the arguments are converted, or else, with [mem] left at its default and
    the stored membrane bearing the marker, the stored states are.  It yields
    the arguments as the rest of [forward] sees them. *)
Definition first_pass (input_ : tensor) (spk mem : pyval)
  : method t (pyval * pyval) :=
  if hasattr_init_flag spk || hasattr_init_flag mem then
    lift (states <- _SpikeTorchConv [spk; mem] input_ ;; unpack2 states)
  else if is_False mem then
    self_mem <~ getattr "mem" RLeaky.mem ;;
    if hasattr_init_flag self_mem then
      self_spk <~ getattr "spk" RLeaky.spk ;;
      '(spk', mem') <~
        lift (states <- _SpikeTorchConv [self_spk; self_mem] input_ ;;
              unpack2 states) ;;
      assign (set_spk spk') ;;;
      assign (set_mem mem') ;;;
      mret (spk, mem)
    else mret (spk, mem)
  else mret (spk, mem).

Definition forward (input_ : tensor) (spk mem : pyval) : method t returned :=
  '(spk, mem) <~ first_pass input_ spk mem ;;
  self <~ self_ ;;
  if negb (init_hidden self) then
    reset_ <~ lift (mem_reset (threshold self) (as_tensor mem)) ;;
    assign (set_reset reset_) ;;;
    self <~ self_ ;;
    mem <~ lift (build_state_function self input_ spk mem) ;;
    spk <~ lift (spike self mem) ;;
    mret (SpkMem spk mem)
  else
    lift (_rleaky_forward_cases spk mem) ;;;
    self_mem <~ getattr "mem" RLeaky.mem ;;
    reset_ <~ lift (mem_reset (threshold self) (as_tensor self_mem)) ;;
    assign (set_reset reset_) ;;;
    self <~ self_ ;;
    mem' <~ lift (build_state_function_hidden self input_) ;;
    assign (set_mem (Tensor mem')) ;;;
    spk' <~ lift (spike self mem') ;;
    assign (set_spk (Tensor spk')) ;;;
    mret (if output self then SpkMem spk' mem' else Spk spk').

End RLeaky.

(** ** RSynaptic (rsynaptic.py) *)

Module RSynaptic.

Record t : Type := mk {
  alpha : tensor;
  beta : tensor;
  V : tensor;
  threshold : tensor;
  init_hidden : bool;
  inhibition : bool;
  reset_mechanism_val : Z;
  output : bool;
  spk : option pyval;
  syn : option pyval;
  mem : option pyval;
  reset : option tensor
}.

Definition set_spk (v : pyval) (self : t) : t :=
  mk (alpha self) (beta self) (V self) (threshold self) (init_hidden self)
     (inhibition self) (reset_mechanism_val self) (output self)
     (Some v) (syn self) (mem self) (reset self).

Definition set_syn (v : pyval) (self : t) : t :=
  mk (alpha self) (beta self) (V self) (threshold self) (init_hidden self)
     (inhibition self) (reset_mechanism_val self) (output self)
     (spk self) (Some v) (mem self) (reset self).

Definition set_mem (v : pyval) (self : t) : t :=
  mk (alpha self) (beta self) (V self) (threshold self) (init_hidden self)
     (inhibition self) (reset_mechanism_val self) (output self)
     (spk self) (syn self) (Some v) (reset self).

Definition set_reset (r : tensor) (self : t) : t :=
  mk (alpha self) (beta self) (V self) (threshold self) (init_hidden self)
     (inhibition self) (reset_mechanism_val self) (output self)
     (spk self) (syn self) (mem self) (Some r).

(** Modelled from the spec: [init_rsynaptic] of lif.py, the three states
    start as the uninitialised marker. *)
Definition init_rsynaptic : pyval * pyval * pyval :=
  (SpikeTensor, SpikeTensor, SpikeTensor).

(** [_alpha_register_buffer], and the same registration for the other
    parameters. *)
Definition register (value : tensor) (learn : bool) : tensor :=
  mkTensor (data value) learn.

Definition __init__ (alpha beta V threshold : tensor)
    (init_hidden inhibition learn_alpha learn_beta learn_threshold learn_V : bool)
    (reset_mechanism_ : reset_mechanism) (output : bool) : t :=
  let '(spk0, syn0, mem0) :=
    if init_hidden then
      let '(a, b, c) := init_rsynaptic in (Some a, Some b, Some c)
    else (None, None, None) in
  mk (register alpha learn_alpha) (register beta learn_beta)
     (register V learn_V) (register threshold learn_threshold)
     init_hidden inhibition (reset_dict reset_mechanism_) output
     spk0 syn0 mem0 None.

Definition attr {A} (name : string) (o : option A) : result A :=
  match o with
  | Some v => Ok v
  | None => Raise (AttributeError name)
  end.

Definition base_state_function (self : t) (input_ : tensor)
    (spk syn mem : pyval) : result (tensor * tensor) :=
  decayed_syn <- tmul (clamp 0 1 (alpha self)) (as_tensor syn) ;;
  driven <- tadd decayed_syn input_ ;;
  recurrent <- tmul (V self) (as_tensor spk) ;;
  base_fn_syn <- tadd driven recurrent ;;
  decayed_mem <- tmul (clamp 0 1 (beta self)) (as_tensor mem) ;;
  base_fn_mem <- tadd decayed_mem base_fn_syn ;;
  Ok (base_fn_syn, base_fn_mem).

Definition base_state_reset_zero (self : t) (input_ : tensor)
    (spk syn mem : pyval) : result (tensor * tensor) :=
  decayed_syn <- tmul (clamp 0 1 (alpha self)) (as_tensor syn) ;;
  driven <- tadd decayed_syn input_ ;;
  recurrent <- tmul (V self) (as_tensor spk) ;;
  base_fn_syn <- tadd driven recurrent ;;
  decayed_mem <- tmul (clamp 0 1 (beta self)) (as_tensor mem) ;;
  base_fn_mem <- tadd decayed_mem base_fn_syn ;;
  Ok (py_scalar 0, base_fn_mem).

Definition unbound_state_fn : exn :=
  UnboundLocalError "local variable 'state_fn' referenced before assignment".

Definition build_state_function (self : t) (input_ : tensor)
    (spk syn mem : pyval) : result (tensor * tensor) :=
  if (reset_mechanism_val self =? 0)%Z then
    '(base_syn, base_mem) <- base_state_function self input_ spk syn mem ;;
    reset_ <- attr "reset" (reset self) ;;
    drop <- tmul reset_ (threshold self) ;;
    syn' <- tsub base_syn (py_scalar 0) ;;
    mem' <- tsub base_mem drop ;;
    Ok (syn', mem')
  else if (reset_mechanism_val self =? 1)%Z then
    '(base_syn, base_mem) <- base_state_function self input_ spk syn mem ;;
    '(zero_syn, zero_mem) <- base_state_reset_zero self input_ spk syn mem ;;
    reset_ <- attr "reset" (reset self) ;;
    drop_syn <- tmul reset_ zero_syn ;;
    syn' <- tsub base_syn drop_syn ;;
    drop_mem <- tmul reset_ zero_mem ;;
    mem' <- tsub base_mem drop_mem ;;
    Ok (syn', mem')
  else if (reset_mechanism_val self =? 2)%Z then
    base_state_function self input_ spk syn mem
  else Raise unbound_state_fn.

Definition base_state_function_hidden (self : t) (input_ : tensor)
  : result (tensor * tensor) :=
  syn_ <- attr "syn" (syn self) ;;
  decayed_syn <- tmul (clamp 0 1 (alpha self)) (as_tensor syn_) ;;
  driven <- tadd decayed_syn input_ ;;
  spk_ <- attr "spk" (spk self) ;;
  recurrent <- tmul (V self) (as_tensor spk_) ;;
  base_fn_syn <- tadd driven recurrent ;;
  mem_ <- attr "mem" (mem self) ;;
  decayed_mem <- tmul (clamp 0 1 (beta self)) (as_tensor mem_) ;;
  base_fn_mem <- tadd decayed_mem base_fn_syn ;;
  Ok (base_fn_syn, base_fn_mem).

(** Defined by the class and called by none of its methods. *)
Definition base_state_reset_zero_hidden (self : t) (input_ : tensor)
  : result (tensor * tensor) :=
  syn_ <- attr "syn" (syn self) ;;
  decayed_syn <- tmul (clamp 0 1 (alpha self)) (as_tensor syn_) ;;
  driven <- tadd decayed_syn input_ ;;
  spk_ <- attr "spk" (spk self) ;;
  recurrent <- tmul (V self) (as_tensor spk_) ;;
  base_fn_syn <- tadd driven recurrent ;;
  mem_ <- attr "mem" (mem self) ;;
  decayed_mem <- tmul (clamp 0 1 (beta self)) (as_tensor mem_) ;;
  base_fn_mem <- tadd decayed_mem base_fn_syn ;;
  Ok (py_scalar 0, base_fn_mem).

Definition build_state_function_hidden (self : t) (input_ : tensor)
  : result (tensor * tensor) :=
  if (reset_mechanism_val self =? 0)%Z then
    '(base_syn, base_mem) <- base_state_function_hidden self input_ ;;
    reset_ <- attr "reset" (reset self) ;;
    drop <- tmul reset_ (threshold self) ;;
    syn' <- tsub base_syn (py_scalar 0) ;;
    mem' <- tsub base_mem drop ;;
    Ok (syn', mem')
  else if (reset_mechanism_val self =? 1)%Z then
    '(base_syn, base_mem) <- base_state_function_hidden self input_ ;;
    '(again_syn, again_mem) <- base_state_function_hidden self input_ ;;
    reset_ <- attr "reset" (reset self) ;;
    drop_syn <- tmul reset_ again_syn ;;
    syn' <- tsub base_syn drop_syn ;;
    drop_mem <- tmul reset_ again_mem ;;
    mem' <- tsub base_mem drop_mem ;;
    Ok (syn', mem')
  else if (reset_mechanism_val self =? 2)%Z then
    base_state_function_hidden self input_
  else Raise unbound_state_fn.

Definition _rsynaptic_forward_cases (spk mem syn : pyval) : result unit :=
  if negb (is_False mem) || negb (is_False syn) || negb (is_False spk) then
    Raise (TypeError
      "When `init_hidden=True`, RSynaptic expects 1 input argument.")
  else Ok tt.

Inductive returned : Type :=
| Spk (spk : tensor)
| SpkSynMem (spk syn mem : tensor).

(** The [if self.inhibition: ... else: ...] of both branches of
    [forward]. *)
Definition spike (self : t) (mem : tensor) : result tensor :=
  if inhibition self then fire_inhibition (threshold self) (size0 mem) mem
  else fire (threshold self) mem.

(** The [if]/[elif] that opens [forward]. *)
Definition first_pass (input_ : tensor) (spk syn mem : pyval)
  : method t (pyval * pyval * pyval) :=
  if hasattr_init_flag spk || hasattr_init_flag syn
     || hasattr_init_flag mem then
    lift (states <- _SpikeTorchConv [spk; syn; mem] input_ ;; unpack3 states)
  else if is_False mem then
    self_mem <~ getattr "mem" RSynaptic.mem ;;
    if hasattr_init_flag self_mem then
      self_spk <~ getattr "spk" RSynaptic.spk ;;
      self_syn <~ getattr "syn" RSynaptic.syn ;;
      '(spk', syn', mem') <~
        lift (states <- _SpikeTorchConv [self_spk; self_syn; self_mem] input_ ;;
              unpack3 states) ;;
      assign (set_spk spk') ;;;
      assign (set_syn syn') ;;;
      assign (set_mem mem') ;;;
      mret (spk, syn, mem)
    else mret (spk, syn, mem)
  else mret (spk, syn, mem).

Definition forward (input_ : tensor) (spk syn mem : pyval)
  : method t returned :=
  '(spk, syn, mem) <~ first_pass input_ spk syn mem ;;
  self <~ self_ ;;
  if negb (init_hidden self) then
    reset_ <~ lift (mem_reset (threshold self) (as_tensor mem)) ;;
    assign (set_reset reset_) ;;;
    self <~ self_ ;;
    '(syn, mem) <~ lift (build_state_function self input_ spk syn mem) ;;
    spk <~ lift (spike self mem) ;;
    mret (SpkSynMem spk syn mem)
  else
    lift (_rsynaptic_forward_cases spk mem syn) ;;;
    self_mem <~ getattr "mem" RSynaptic.mem ;;
    reset_ <~ lift (mem_reset (threshold self) (as_tensor self_mem)) ;;
    assign (set_reset reset_) ;;;
    self <~ self_ ;;
    '(syn', mem') <~ lift (build_state_function_hidden self input_) ;;
    assign (set_syn (Tensor syn')) ;;;
    assign (set_mem (Tensor mem')) ;;;
    spk' <~ lift (spike self mem') ;;
    assign (set_spk (Tensor spk')) ;;;
    mret (if output self then SpkSynMem spk' syn' mem' else Spk spk').

End RSynaptic.

(** ** The instance registry and the class methods

    [cls.instances] lists every live neuron of the network, whatever its
    class; the class methods walk it and touch the instances of their own
    class. *)

Inductive instance : Type :=
| IsRLeaky (layer : RLeaky.t)
| IsRSynaptic (layer : RSynaptic.t)
| IsOther.

(** [v.detach_()] on a stored state: the marker is an empty tensor without
    history, [False] has no such method. *)
Definition py_detach_ (v : pyval) : result pyval :=
  match v with
  | PFalse => Raise (AttributeError "detach_")
  | SpikeTensor => Ok SpikeTensor
  | Tensor t => Ok (Tensor (detach_ t))
  end.

(** A [for] loop over the registry; an exception leaves the layers already
    visited as they were written. *)
Fixpoint for_each_layer (body : method instance unit) (instances : list instance)
  : list instance * result unit :=
  match instances with
  | [] => ([], Ok tt)
  | layer :: rest =>
      match body layer with
      | (layer', Ok _) =>
          let (rest', r) := for_each_layer body rest in (layer' :: rest', r)
      | (layer', Raise e) => (layer' :: rest, Raise e)
      end
  end.

Module RLeakyClass.

Definition detach_layer : method RLeaky.t unit :=
  mem_ <~ getattr "mem" RLeaky.mem ;;
  mem' <~ lift (py_detach_ mem_) ;;
  assign (RLeaky.set_mem mem').

Definition on_rleaky (body : method RLeaky.t unit) : method instance unit :=
  fun i => match i with
           | IsRLeaky layer => let (layer', r) := body layer in (IsRLeaky layer', r)
           | _ => (i, Ok tt)
           end.

Definition detach_hidden : method (list instance) unit :=
  for_each_layer (on_rleaky detach_layer).

Definition reset_hidden : method (list instance) unit :=
  for_each_layer (on_rleaky (assign (RLeaky.set_mem SpikeTensor))).

End RLeakyClass.

Module RSynapticClass.

Definition detach_layer : method RSynaptic.t unit :=
  syn_ <~ getattr "syn" RSynaptic.syn ;;
  syn' <~ lift (py_detach_ syn_) ;;
  assign (RSynaptic.set_syn syn') ;;;
  mem_ <~ getattr "mem" RSynaptic.mem ;;
  mem' <~ lift (py_detach_ mem_) ;;
  assign (RSynaptic.set_mem mem').

Definition on_rsynaptic (body : method RSynaptic.t unit) : method instance unit :=
  fun i => match i with
           | IsRSynaptic layer =>
               let (layer', r) := body layer in (IsRSynaptic layer', r)
           | _ => (i, Ok tt)
           end.

Definition detach_hidden : method (list instance) unit :=
  for_each_layer (on_rsynaptic detach_layer).

Definition reset_hidden : method (list instance) unit :=
  for_each_layer
    (on_rsynaptic (assign (RSynaptic.set_syn SpikeTensor) ;;;
                   assign (RSynaptic.set_mem SpikeTensor))).

End RSynapticClass.

(** ** Vocabulary of the statements *)

Fixpoint zip_with {A B C} (g : A -> B -> C) (a : list A) (b : list B) : list C :=
  match a, b with
  | x :: a', y :: b' => g x y :: zip_with g a' b'
  | _, _ => []
  end.

(** Every entry of the tensor satisfies [P]. *)
Definition all_entries (P : Qc -> Prop) (t : tensor) : Prop :=
  Forall (Forall P) (data t).

(** The stored spike of a registered neuron. *)
Definition spk_of (i : instance) : option pyval :=
  match i with
  | IsRLeaky layer => RLeaky.spk layer
  | IsRSynaptic layer => RSynaptic.spk layer
  | IsOther => None
  end.

(** The state arguments of one call, as its opening [if] finds them. *)
Definition any_marker (args : list pyval) : bool :=
  existsb hasattr_init_flag args.

(** A marker passed beside an argument left at [False]: the conversion is
    called and fails on the [False]. *)
Definition marker_beside_False (args : list pyval) : bool :=
  any_marker args && existsb is_False args.

(** A state argument as the body of [forward] receives it: zeroed with all
    the arguments of the call when one of them bears the marker, else as it
    was passed. *)
Definition received (input_ : tensor) (args : list pyval) (arg : pyval)
  : pyval :=
  if any_marker args then zero_state input_ else arg.

(** A stored state as the hidden-state form reads it after its lazy
    initialisation, which a marked stored membrane triggers. *)
Definition initialised (input_ : tensor) (stored : pyval) : pyval :=
  if hasattr_init_flag stored then zero_state input_ else stored.

(** The stored states of an RLeaky instance after the lazy zero
    initialisation of [forward]: nothing changes unless the stored membrane
    bears the marker, and then the spike is zeroed with it. *)
Definition rleaky_lazy_init (input_ : tensor) (self : RLeaky.t) : RLeaky.t :=
  match RLeaky.spk self, RLeaky.mem self with
  | Some s, Some m =>
      if hasattr_init_flag m then
        RLeaky.set_mem (zero_state input_)
          (RLeaky.set_spk (zero_state input_) self)
      else self
  | _, _ => self
  end.

Definition rsynaptic_lazy_init (input_ : tensor) (self : RSynaptic.t)
  : RSynaptic.t :=
  match RSynaptic.spk self, RSynaptic.syn self, RSynaptic.mem self with
  | Some s, Some y, Some m =>
      if hasattr_init_flag m then
        RSynaptic.set_mem (zero_state input_)
          (RSynaptic.set_syn (zero_state input_)
             (RSynaptic.set_spk (zero_state input_) self))
      else self
  | _, _, _ => self
  end.

(** The hidden-state neuron of the same configuration as it is built: its
    states bear the marker and no reset indicator is kept yet. *)
Definition rleaky_fresh (self : RLeaky.t) : RLeaky.t :=
  RLeaky.mk (RLeaky.beta self) (RLeaky.V self) (RLeaky.threshold self)
    (RLeaky.init_hidden self) (RLeaky.inhibition self)
    (RLeaky.reset_mechanism_val self) (RLeaky.output self)
    (Some SpikeTensor) (Some SpikeTensor) None.

Definition rsynaptic_fresh (self : RSynaptic.t) : RSynaptic.t :=
  RSynaptic.mk (RSynaptic.alpha self) (RSynaptic.beta self) (RSynaptic.V self)
    (RSynaptic.threshold self) (RSynaptic.init_hidden self)
    (RSynaptic.inhibition self) (RSynaptic.reset_mechanism_val self)
    (RSynaptic.output self)
    (Some SpikeTensor) (Some SpikeTensor) (Some SpikeTensor) None.

(** ** Sample neurons and tensors *)

Definition q (n : Z) (d : positive) : Qc := Q2Qc (n # d).

(** A tensor given by its rows, with or without gradient history. *)
Definition tensor_of (rows : list (list Q)) (grad : bool) : tensor :=
  mkTensor (map (map Q2Qc) rows) grad.

Definition batch (rows : list (list Q)) : tensor := tensor_of rows false.

(** [RLeaky(beta=0.5, V=1.0, threshold=1.0, reset_mechanism=r)], with
    [init_hidden] and [output] as given. *)
Definition leaky (hidden : bool) (r : reset_mechanism) (output : bool)
  : RLeaky.t :=
  RLeaky.__init__ (py_scalar (q 1 2)) (py_scalar 1) (py_scalar 1)
    hidden false false false true r output.

(** [RSynaptic(alpha=0.5, beta=0.5, V=1.0, threshold=1.0,
    reset_mechanism=r)]. *)
Definition synaptic (hidden : bool) (r : reset_mechanism) (output : bool)
  : RSynaptic.t :=
  RSynaptic.__init__ (py_scalar (q 1 2)) (py_scalar (q 1 2)) (py_scalar 1)
    (py_scalar 1) hidden false false false false true r output.

(** A hidden-state RLeaky neuron holding a spike and a membrane. *)
Definition leaky_holding (r : reset_mechanism) (spk mem : tensor) : RLeaky.t :=
  RLeaky.set_mem (Tensor mem) (RLeaky.set_spk (Tensor spk) (leaky true r true)).

(** A hidden-state RSynaptic neuron holding its three states. *)
Definition synaptic_holding (r : reset_mechanism) (spk syn mem : tensor)
  : RSynaptic.t :=
  RSynaptic.set_mem (Tensor mem)
    (RSynaptic.set_syn (Tensor syn)
       (RSynaptic.set_spk (Tensor spk) (synaptic true r true))).

(** ** Stepping a neuron over an input sequence *)

(** One step as the scenarios record it: base term, reset indicator, new
    membrane, spike. *)
Definition step_row : Type :=
  (list (list Qc) * list (list Qc) * list (list Qc) * list (list Qc))%type.

(** The explicit-state loop of the class docstring,
    [spk, mem = lif(cur, spk, mem)], over the inputs in turn. *)
Fixpoint rleaky_run (self : RLeaky.t) (inputs : list tensor) (spk mem : pyval)
  : result (list step_row) :=
  match inputs with
  | [] => Ok []
  | input_ :: rest =>
      base <- RLeaky.base_state_function self input_ spk mem ;;
      match RLeaky.forward input_ spk mem self with
      | (self', Ok (RLeaky.SpkMem spk' mem')) =>
          reset_ <- RLeaky.attr "reset" (RLeaky.reset self') ;;
          rows <- rleaky_run self' rest (Tensor spk') (Tensor mem') ;;
          Ok ((data base, data reset_, data mem', data spk') :: rows)
      | (_, Ok (RLeaky.Spk _)) => Raise (ValueError "wrong number of values to unpack")
      | (_, Raise e) => Raise e
      end
  end.

(** ** Replacing the stored decay rates *)

Definition rleaky_with_beta (b : tensor) (self : RLeaky.t) : RLeaky.t :=
  RLeaky.mk b (RLeaky.V self) (RLeaky.threshold self)
    (RLeaky.init_hidden self) (RLeaky.inhibition self)
    (RLeaky.reset_mechanism_val self) (RLeaky.output self)
    (RLeaky.spk self) (RLeaky.mem self) (RLeaky.reset self).

Definition rsynaptic_with_rates (a b : tensor) (self : RSynaptic.t)
  : RSynaptic.t :=
  RSynaptic.mk a b (RSynaptic.V self) (RSynaptic.threshold self)
    (RSynaptic.init_hidden self) (RSynaptic.inhibition self)
    (RSynaptic.reset_mechanism_val self) (RSynaptic.output self)
    (RSynaptic.spk self) (RSynaptic.syn self) (RSynaptic.mem self)
    (RSynaptic.reset self).

(** ** Vocabulary for the class methods *)

(** A change made to the neurons of one class, the others left alone. *)
Definition only_rleaky (f : RLeaky.t -> RLeaky.t) (i : instance) : instance :=
  match i with
  | IsRLeaky layer => IsRLeaky (f layer)
  | _ => i
  end.

Definition only_rsynaptic (f : RSynaptic.t -> RSynaptic.t) (i : instance)
  : instance :=
  match i with
  | IsRSynaptic layer => IsRSynaptic (f layer)
  | _ => i
  end.

(** A stored state cut from its gradient history: the same entries. *)
Definition detached (v : pyval) : pyval :=
  match v with
  | Tensor t => Tensor (detach_ t)
  | _ => v
  end.

Definition rleaky_detached (layer : RLeaky.t) : RLeaky.t :=
  match RLeaky.mem layer with
  | Some v => RLeaky.set_mem (detached v) layer
  | None => layer
  end.

Definition rsynaptic_detached (layer : RSynaptic.t) : RSynaptic.t :=
  match RSynaptic.syn layer, RSynaptic.mem layer with
  | Some y, Some v =>
      RSynaptic.set_mem (detached v) (RSynaptic.set_syn (detached y) layer)
  | _, _ => layer
  end.

(** An attribute that is set, and to a tensor or the marker. *)
Definition holds_state (o : option pyval) : Prop :=
  exists v, o = Some v /\ v <> PFalse.

(** The neurons of the registry that [detach_hidden] can detach. *)
Definition rleaky_ready (i : instance) : Prop :=
  match i with
  | IsRLeaky layer => holds_state (RLeaky.mem layer)
  | _ => True
  end.

Definition rsynaptic_ready (i : instance) : Prop :=
  match i with
  | IsRSynaptic layer =>
      holds_state (RSynaptic.syn layer) /\ holds_state (RSynaptic.mem layer)
  | _ => True
  end.

(** The explicit-state neuron with the parameters of a given neuron. *)
Definition rleaky_explicit_twin (self : RLeaky.t) : RLeaky.t :=
  RLeaky.mk (RLeaky.beta self) (RLeaky.V self) (RLeaky.threshold self) false
    (RLeaky.inhibition self) (RLeaky.reset_mechanism_val self)
    (RLeaky.output self) None None None.

Definition rsynaptic_explicit_twin (self : RSynaptic.t) : RSynaptic.t :=
  RSynaptic.mk (RSynaptic.alpha self) (RSynaptic.beta self) (RSynaptic.V self)
    (RSynaptic.threshold self) false (RSynaptic.inhibition self)
    (RSynaptic.reset_mechanism_val self) (RSynaptic.output self)
    None None None None.

(** ** Entry by entry *)

Fixpoint zip_with3 {A B C D} (g : A -> B -> C -> D)
    (a : list A) (b : list B) (c : list C) : list D :=
  match a, b, c with
  | x :: a', y :: b', z :: c' => g x y z :: zip_with3 g a' b' c'
  | _, _, _ => []
  end.

(** One entry of the recurrent base term: the decay rate [rate] clamped to
    [0, 1] times the state, plus the input, plus the recurrent weight [v]
    times the previous spike. *)
Definition base_entry (rate v : Qc) (state input_ spk : Qc) : Qc :=
  clamp1 0 1 rate * state + input_ + v * spk.

(** One entry of the new membrane: what the reset mechanism of code [val]
    makes of the base term [base] where the reset indicator is [rho]. *)
Definition reset_entry (val : Z) (thr base rho : Qc) : Qc :=
  if (val =? 0)%Z then base - rho * thr
  else if (val =? 1)%Z then base - rho * base
  else base.

(** One entry of the membrane after a step of RLeaky, from the membrane,
    the input and the spike at that place before the step. *)
Definition rleaky_step_entry (val : Z) (b v thr : Qc) (mem input_ spk : Qc)
  : Qc :=
  reset_entry val thr (base_entry b v mem input_ spk) (heaviside (mem - thr)).

(** One entry of the synaptic current after a step of the hidden-state
    RSynaptic, where reset to zero acts on the current as well. *)
Definition syn_reset_entry (val : Z) (base rho : Qc) : Qc :=
  if (val =? 1)%Z then base - rho * base else base.

(** ** Time loops of the hidden-state form *)

(** [for x in inputs: out = lif(x)], collecting what each call returns. *)
Fixpoint rleaky_hidden_loop (inputs : list tensor)
  : method RLeaky.t (list RLeaky.returned) :=
  match inputs with
  | [] => mret []
  | x :: rest =>
      out <~ RLeaky.forward x PFalse PFalse ;;
      outs <~ rleaky_hidden_loop rest ;;
      mret (out :: outs)
  end.

Fixpoint rsynaptic_hidden_loop (inputs : list tensor)
  : method RSynaptic.t (list RSynaptic.returned) :=
  match inputs with
  | [] => mret []
  | x :: rest =>
      out <~ RSynaptic.forward x PFalse PFalse PFalse ;;
      outs <~ rsynaptic_hidden_loop rest ;;
      mret (out :: outs)
  end.

(** A stored state that suits inputs of shape [sh]: a tensor of that shape,
    or the marker, which the next call replaces by such a tensor. *)
Definition fits (sh : list nat) (v : pyval) : Prop :=
  match v with
  | Tensor t => shape t = sh
  | SpikeTensor => True
  | PFalse => False
  end.

(** A hidden-state RLeaky neuron without inhibition, with numbers as
    parameters and a reset code of 0, 1 or 2, whose stored states suit the
    shape [sh]; when the membrane is a tensor the spike is one too, since
    only a marked membrane triggers the lazy initialisation. *)
Definition rleaky_steady (sh : list nat) (self : RLeaky.t) : Prop :=
  RLeaky.init_hidden self = true /\ RLeaky.inhibition self = false
  /\ (exists b v thr,
        data (RLeaky.beta self) = [[b]] /\ data (RLeaky.V self) = [[v]]
        /\ data (RLeaky.threshold self) = [[thr]])
  /\ (RLeaky.reset_mechanism_val self = 0%Z
      \/ RLeaky.reset_mechanism_val self = 1%Z
      \/ RLeaky.reset_mechanism_val self = 2%Z)
  /\ exists s m,
       RLeaky.spk self = Some s /\ RLeaky.mem self = Some m
       /\ fits sh s /\ fits sh m
       /\ (hasattr_init_flag m = false -> hasattr_init_flag s = false).

Definition rsynaptic_steady (sh : list nat) (self : RSynaptic.t) : Prop :=
  RSynaptic.init_hidden self = true /\ RSynaptic.inhibition self = false
  /\ (exists a b v thr,
        data (RSynaptic.alpha self) = [[a]]
        /\ data (RSynaptic.beta self) = [[b]]
        /\ data (RSynaptic.V self) = [[v]]
        /\ data (RSynaptic.threshold self) = [[thr]])
  /\ (RSynaptic.reset_mechanism_val self = 0%Z
      \/ RSynaptic.reset_mechanism_val self = 1%Z
      \/ RSynaptic.reset_mechanism_val self = 2%Z)
  /\ exists s y m,
       RSynaptic.spk self = Some s /\ RSynaptic.syn self = Some y
       /\ RSynaptic.mem self = Some m
       /\ fits sh s /\ fits sh y /\ fits sh m
       /\ (hasattr_init_flag m = false ->
           hasattr_init_flag s = false /\ hasattr_init_flag y = false).

(** * Properties *)

(** Decides an equation between computed values; entries are compared as
    rationals. *)
Ltac qc_eq :=
  vm_compute;
  repeat lazymatch goal with
         | |- @eq Qc _ _ => apply Qc_is_canon; vm_compute; reflexivity
         | |- _ = _ => first [reflexivity | f_equal]
         end.

(** ** Scalars *)

Lemma Qcltb_lt (x y : Qc) : Qcltb x y = true <-> x < y.
Proof.
  unfold Qcltb, Qclt, Qccompare. rewrite Qlt_alt.
  destruct (this x ?= this y)%Q; split; congruence.
Qed.

Lemma Qcltb_ge (x y : Qc) : Qcltb x y = false <-> y <= x.
Proof.
  split; intro H.
  - apply Qcnot_lt_le. intro L. apply Qcltb_lt in L. congruence.
  - destruct (Qcltb x y) eqn:E; [|reflexivity].
    apply Qcltb_lt in E. apply Qcle_not_lt in H. contradiction.
Qed.

Lemma clamp1_bounds (lo hi x : Qc) : lo <= hi -> lo <= clamp1 lo hi x <= hi.
Proof.
  intro H. unfold clamp1.
  destruct (Qcltb x lo) eqn:E1.
  - split; [apply Qcle_refl | exact H].
  - apply Qcltb_ge in E1. destruct (Qcltb hi x) eqn:E2.
    + split; [exact H | apply Qcle_refl].
    + apply Qcltb_ge in E2. split; assumption.
Qed.

Lemma clamp1_idempotent (lo hi x : Qc) :
  lo <= hi -> clamp1 lo hi (clamp1 lo hi x) = clamp1 lo hi x.
Proof.
  intro H. destruct (clamp1_bounds x H) as [L U].
  unfold clamp1 at 1.
  apply Qcltb_ge in L. rewrite L.
  apply Qcltb_ge in U. rewrite U. reflexivity.
Qed.

Lemma heaviside_above (x : Qc) : 0 < x -> heaviside x = 1.
Proof. intro H. unfold heaviside. apply Qcltb_lt in H. now rewrite H. Qed.

Lemma heaviside_not_above (x : Qc) : x <= 0 -> heaviside x = 0.
Proof. intro H. unfold heaviside. apply Qcltb_ge in H. now rewrite H. Qed.

(** ** Broadcasting *)

Section BroadcastFacts.
Context {A B C : Type}.
Variable f : A -> B -> result C.
Variable g : A -> B -> C.

Lemma zipM_Forall2 (a : list A) (b : list B) :
  Forall2 (fun x y => f x y = Ok (g x y)) a b ->
  zipM f a b = Ok (zip_with g a b).
Proof.
  induction 1 as [|x y a b Hxy _ IH]; simpl; [reflexivity|].
  now rewrite Hxy, IH.
Qed.

Lemma zipM_repeat_r (a : list A) (y : B) :
  Forall (fun x => f x y = Ok (g x y)) a ->
  zipM f a (repeat y (length a)) = Ok (map (fun x => g x y) a).
Proof.
  induction 1 as [|x a Hx _ IH]; simpl; [reflexivity|].
  now rewrite Hx, IH.
Qed.

Lemma zipM_repeat_l (x : A) (b : list B) :
  Forall (fun y => f x y = Ok (g x y)) b ->
  zipM f (repeat x (length b)) b = Ok (map (g x) b).
Proof.
  induction 1 as [|y b Hy _ IH]; simpl; [reflexivity|].
  now rewrite Hy, IH.
Qed.

Lemma broadcast_same (a : list A) (b : list B) :
  Forall2 (fun x y => f x y = Ok (g x y)) a b ->
  broadcast f a b = Ok (zip_with g a b).
Proof.
  intro H. unfold broadcast.
  rewrite (Forall2_length H), Nat.eqb_refl. now apply zipM_Forall2.
Qed.

Lemma broadcast_one_r (a : list A) (y : B) :
  Forall (fun x => f x y = Ok (g x y)) a ->
  broadcast f a [y] = Ok (map (fun x => g x y) a).
Proof.
  intro H. unfold broadcast.
  destruct a as [|x [|x' a']]; simpl.
  - reflexivity.
  - inversion H as [|? ? Hx _]; subst. now rewrite Hx.
  - apply (zipM_repeat_r (a := x :: x' :: a')) in H. exact H.
Qed.

Lemma broadcast_one_l (x : A) (b : list B) :
  Forall (fun y => f x y = Ok (g x y)) b ->
  broadcast f [x] b = Ok (map (g x) b).
Proof.
  intro H. unfold broadcast.
  destruct b as [|y [|y' b']]; simpl.
  - reflexivity.
  - inversion H as [|? ? Hy _]; subst. now rewrite Hy.
  - apply (zipM_repeat_l (b := y :: y' :: b')) in H. exact H.
Qed.
End BroadcastFacts.

Lemma zip_with_map {A B C D} (g : B -> C -> D) (h : A -> B) (k : A -> C)
    (l : list A) :
  zip_with g (map h l) (map k l) = map (fun x => g (h x) (k x)) l.
Proof. induction l; simpl; congruence. Qed.

Lemma zip_with_map2 {A B C D} (g : B -> C -> D) (h : A -> B) (k : A -> C)
    (l : list (list A)) :
  zip_with (zip_with g) (map (map h) l) (map (map k) l)
  = map (map (fun x => g (h x) (k x))) l.
Proof.
  induction l as [|r l IH]; simpl; [reflexivity|].
  now rewrite zip_with_map, IH.
Qed.

Lemma map_map2 {A B C} (h : A -> B) (k : B -> C) (l : list (list A)) :
  map (map k) (map (map h) l) = map (map (fun x => k (h x))) l.
Proof. rewrite map_map. apply map_ext. intro r. apply map_map. Qed.

Lemma map_ext2 {A B} (h k : A -> B) (l : list (list A)) :
  (forall x, h x = k x) -> map (map h) l = map (map k) l.
Proof. intro H. apply map_ext. intro r. now apply map_ext. Qed.

Lemma map_id2 {A} (l : list (list A)) : map (map (fun x => x)) l = l.
Proof.
  induction l as [|r l IH]; simpl; [reflexivity|]. now rewrite map_id, IH.
Qed.

(** ** Elementwise operations on tensors of one shape, and with a number *)

Lemma pointwise_same_shape (op : Qc -> Qc -> Qc) (s t : tensor) :
  shape s = shape t ->
  pointwise op s t
  = Ok (mkTensor (zip_with (zip_with op) (data s) (data t))
                 (requires_grad s || requires_grad t)).
Proof.
  unfold shape, pointwise. intro H.
  rewrite (@broadcast_same _ _ _ _ (zip_with op)); [reflexivity|].
  revert H. generalize (data t). induction (data s) as [|r rows IH];
    intros [|r' rows'] H; simpl in H; try discriminate; constructor.
  - injection H as Hr _. apply broadcast_same.
    clear -Hr. revert r' Hr.
    induction r; intros [|? ?] Hr; simpl in Hr; try discriminate; constructor;
      [reflexivity | apply IHr; congruence].
  - apply IH. now injection H.
Qed.

Lemma pointwise_number_r (op : Qc -> Qc -> Qc) (s t : tensor) (c : Qc) :
  data t = [[c]] ->
  pointwise op s t
  = Ok (mkTensor (map (map (fun x => op x c)) (data s))
                 (requires_grad s || requires_grad t)).
Proof.
  unfold pointwise. intro H. rewrite H.
  rewrite (@broadcast_one_r _ _ _ _ (fun r _ => map (fun x => op x c) r));
    [reflexivity|].
  apply Forall_forall. intros r _. apply broadcast_one_r.
  apply Forall_forall. reflexivity.
Qed.

Lemma pointwise_number_l (op : Qc -> Qc -> Qc) (s t : tensor) (c : Qc) :
  data s = [[c]] ->
  pointwise op s t
  = Ok (mkTensor (map (map (op c)) (data t))
                 (requires_grad s || requires_grad t)).
Proof.
  unfold pointwise. intro H. rewrite H.
  rewrite (@broadcast_one_l _ _ _ _ (fun _ r => map (op c) r));
    [reflexivity|].
  apply Forall_forall. intros r _. apply broadcast_one_l.
  apply Forall_forall. reflexivity.
Qed.

Lemma shape_map (f : Qc -> Qc) (rows : list (list Qc)) :
  map (@length Qc) (map (map f) rows) = map (@length Qc) rows.
Proof. rewrite map_map. apply map_ext. intro r. apply length_map. Qed.

(** An operand whose entries are a function of the entries of [base], place
    by place, combines with [base] place by place. *)
Lemma pointwise_along_r (op : Qc -> Qc -> Qc) (h : Qc -> Qc) (base d : tensor) :
  data d = map (map h) (data base) ->
  pointwise op base d
  = Ok (mkTensor (map (map (fun b => op b (h b))) (data base))
                 (requires_grad base || requires_grad d)).
Proof.
  intro H. rewrite pointwise_same_shape.
  - rewrite H. rewrite <- (map_id2 (data base)) at 1.
    now rewrite zip_with_map2.
  - unfold shape. now rewrite H, shape_map.
Qed.

Lemma pointwise_along_l (op : Qc -> Qc -> Qc) (h : Qc -> Qc) (base r : tensor) :
  data r = map (map h) (data base) ->
  pointwise op r base
  = Ok (mkTensor (map (map (fun b => op (h b) b)) (data base))
                 (requires_grad r || requires_grad base)).
Proof.
  intro H. rewrite pointwise_same_shape.
  - rewrite H. rewrite <- (map_id2 (data base)) at 2.
    now rewrite zip_with_map2.
  - unfold shape. now rewrite H, shape_map.
Qed.

Lemma tsub_number_zero (t : tensor) : tsub t (py_scalar 0) = Ok t.
Proof.
  unfold tsub. rewrite (@pointwise_number_r _ _ _ 0) by reflexivity.
  destruct t as [rows rg]; simpl. rewrite orb_false_r. do 2 f_equal.
  rewrite <- (map_id2 rows) at 2. apply map_ext2. intro x. ring.
Qed.

(** ** The reset indicator *)

Lemma Qc_above_shift (c x : Qc) : c < x -> 0 < x - c.
Proof. intro H. unfold Qcminus. now apply Qclt_minus_iff in H. Qed.

Lemma Qc_not_above_shift (c x : Qc) : x <= c -> x - c <= 0.
Proof.
  intro H. apply Qcnot_lt_le. intro L.
  assert (Hx : c < x) by (apply Qclt_minus_iff; exact L).
  apply Qcle_not_lt in H. contradiction.
Qed.

(** Where the membrane exceeds the threshold everywhere the reset indicator
    is 1 everywhere, and where it exceeds it nowhere the indicator is 0. *)
Lemma mem_reset_above (threshold mem : tensor) (c : Qc) :
  data threshold = [[c]] ->
  all_entries (fun x => c < x) mem ->
  exists r, mem_reset threshold mem = Ok r
            /\ data r = data (ones_like mem) /\ requires_grad r = false.
Proof.
  intros Hthr Hall. unfold mem_reset, tsub.
  rewrite (@pointwise_number_r Qcminus _ _ c Hthr). simpl.
  eexists. split; [reflexivity|]. split; [|reflexivity]. simpl.
  rewrite map_map2. apply map_ext_in. intros row Hrow.
  apply map_ext_in. intros x Hx. apply heaviside_above, Qc_above_shift.
  unfold all_entries in Hall. rewrite Forall_forall in Hall.
  specialize (Hall row Hrow). rewrite Forall_forall in Hall. now apply Hall.
Qed.

Lemma mem_reset_not_above (threshold mem : tensor) (c : Qc) :
  data threshold = [[c]] ->
  all_entries (fun x => x <= c) mem ->
  exists r, mem_reset threshold mem = Ok r
            /\ data r = data (zeros_like mem) /\ requires_grad r = false.
Proof.
  intros Hthr Hall. unfold mem_reset, tsub.
  rewrite (@pointwise_number_r Qcminus _ _ c Hthr). simpl.
  eexists. split; [reflexivity|]. split; [|reflexivity]. simpl.
  rewrite map_map2. apply map_ext_in. intros row Hrow.
  apply map_ext_in. intros x Hx. apply heaviside_not_above, Qc_not_above_shift.
  unfold all_entries in Hall. rewrite Forall_forall in Hall.
  specialize (Hall row Hrow). rewrite Forall_forall in Hall. now apply Hall.
Qed.

(** ** The two ways a reset enters the state *)

(** [base - reset * threshold], the reset indicator being [rho] at every
    place and the threshold a number. *)
Lemma reset_subtract_combine (threshold base r : tensor) (rho thr : Qc) :
  data r = map (map (fun _ => rho)) (data base) ->
  data threshold = [[thr]] ->
  exists m,
    (drop <- tmul r threshold ;; tsub base drop) = Ok m
    /\ data m = map (map (fun b => b - rho * thr)) (data base).
Proof.
  intros Hr Hthr. unfold tmul, tsub.
  rewrite (@pointwise_number_r Qcmult _ _ _ Hthr). simpl.
  rewrite (@pointwise_along_r _ (fun _ => rho * thr)).
  - eexists. split; reflexivity.
  - simpl. rewrite Hr. now rewrite map_map2.
Qed.

(** [base - reset * base], the reset indicator being [rho] at every place. *)
Lemma reset_zero_combine (base r : tensor) (rho : Qc) :
  data r = map (map (fun _ => rho)) (data base) ->
  exists m,
    (drop <- tmul r base ;; tsub base drop) = Ok m
    /\ data m = map (map (fun b => b - rho * b)) (data base).
Proof.
  intros Hr. unfold tmul, tsub.
  rewrite (@pointwise_along_l Qcmult _ _ _ Hr). simpl.
  rewrite (@pointwise_along_r _ (fun b => rho * b)) by reflexivity.
  eexists. split; reflexivity.
Qed.

(** [base - reset * 0], the reset indicator being shaped like [base]. *)
Lemma reset_nothing_combine (base r : tensor) (rho : Qc) :
  data r = map (map (fun _ => rho)) (data base) ->
  exists m,
    (drop <- tmul r (py_scalar 0) ;; tsub base drop) = Ok m
    /\ data m = data base.
Proof.
  intros Hr. unfold tmul, tsub.
  rewrite (@pointwise_number_r Qcmult _ _ 0) by reflexivity. simpl.
  rewrite (@pointwise_along_r _ (fun _ => rho * 0)).
  - eexists. split; [reflexivity|]. simpl.
    rewrite <- (map_id2 (data base)) at 2. apply map_ext2. intro x. ring.
  - simpl. rewrite Hr. now rewrite map_map2.
Qed.

Lemma ones_like_data (t : tensor) :
  data (ones_like t) = map (map (fun _ => 1)) (data t).
Proof. reflexivity. Qed.

Lemma zeros_like_data (t : tensor) :
  data (zeros_like t) = map (map (fun _ => 0)) (data t).
Proof. reflexivity. Qed.

(** ** The reset policies of RLeaky *)

Section RLeakyPolicies.
Import RLeaky.

Lemma subtract_explicit (self : t) (input_ : tensor) (spk mem : pyval)
    (base r : tensor) (rho thr : Qc) :
  reset_mechanism_val self = 0%Z ->
  base_state_function self input_ spk mem = Ok base ->
  reset self = Some r ->
  data r = map (map (fun _ => rho)) (data base) ->
  data (threshold self) = [[thr]] ->
  exists m,
    build_state_function self input_ spk mem = Ok m
    /\ data m = map (map (fun b => b - rho * thr)) (data base).
Proof.
  intros Hval Hbase Hreset Hr Hthr. unfold build_state_function.
  rewrite Hval, Hbase, Hreset. simpl.
  eapply reset_subtract_combine; eassumption.
Qed.

Lemma subtract_hidden (self : t) (input_ : tensor)
    (base r : tensor) (rho thr : Qc) :
  reset_mechanism_val self = 0%Z ->
  base_state_function_hidden self input_ = Ok base ->
  reset self = Some r ->
  data r = map (map (fun _ => rho)) (data base) ->
  data (threshold self) = [[thr]] ->
  exists m,
    build_state_function_hidden self input_ = Ok m
    /\ data m = map (map (fun b => b - rho * thr)) (data base).
Proof.
  intros Hval Hbase Hreset Hr Hthr. unfold build_state_function_hidden.
  rewrite Hval, Hbase, Hreset. simpl.
  eapply reset_subtract_combine; eassumption.
Qed.

Lemma zero_hidden (self : t) (input_ : tensor)
    (base r : tensor) (rho : Qc) :
  reset_mechanism_val self = 1%Z ->
  base_state_function_hidden self input_ = Ok base ->
  reset self = Some r ->
  data r = map (map (fun _ => rho)) (data base) ->
  exists m,
    build_state_function_hidden self input_ = Ok m
    /\ data m = map (map (fun b => b - rho * b)) (data base).
Proof.
  intros Hval Hbase Hreset Hr. unfold build_state_function_hidden.
  rewrite Hval, Hbase, Hreset. simpl.
  eapply reset_zero_combine; eassumption.
Qed.

(** The reset-to-zero branch of the explicit-state form raises on every
    call. *)
Lemma zero_explicit_raises (self : t) (input_ : tensor) (spk mem : pyval) :
  reset_mechanism_val self = 1%Z ->
  build_state_function self input_ spk mem
  = Raise (TypeError
      "base_state_function() missing 1 required positional argument: 'mem'").
Proof. intro Hval. unfold build_state_function. now rewrite Hval. Qed.

Lemma none_explicit (self : t) (input_ : tensor) (spk mem : pyval) :
  reset_mechanism_val self = 2%Z ->
  build_state_function self input_ spk mem
  = base_state_function self input_ spk mem.
Proof. intro Hval. unfold build_state_function. now rewrite Hval. Qed.

Lemma none_hidden (self : t) (input_ : tensor) :
  reset_mechanism_val self = 2%Z ->
  build_state_function_hidden self input_
  = base_state_function_hidden self input_.
Proof. intro Hval. unfold build_state_function_hidden. now rewrite Hval. Qed.

End RLeakyPolicies.

(** ** The reset policies of RSynaptic *)

Section RSynapticPolicies.
Import RSynaptic.

Lemma base_state_reset_zero_spec (self : t) (input_ : tensor)
    (spk syn mem : pyval) (base_syn base_mem : tensor) :
  base_state_function self input_ spk syn mem = Ok (base_syn, base_mem) ->
  base_state_reset_zero self input_ spk syn mem = Ok (py_scalar 0, base_mem).
Proof.
  unfold base_state_function, base_state_reset_zero.
  repeat match goal with
         | |- context [rbind ?m _] => destruct m; simpl; try discriminate
         end.
  congruence.
Qed.

Lemma syn_subtract_explicit (self : t) (input_ : tensor) (spk syn mem : pyval)
    (base_syn base_mem r : tensor) (rho thr : Qc) :
  reset_mechanism_val self = 0%Z ->
  base_state_function self input_ spk syn mem = Ok (base_syn, base_mem) ->
  reset self = Some r ->
  data r = map (map (fun _ => rho)) (data base_mem) ->
  data (threshold self) = [[thr]] ->
  exists m,
    build_state_function self input_ spk syn mem = Ok (base_syn, m)
    /\ data m = map (map (fun b => b - rho * thr)) (data base_mem).
Proof.
  intros Hval Hbase Hreset Hr Hthr. unfold build_state_function.
  rewrite Hval, Hbase, Hreset. simpl.
  destruct (@reset_subtract_combine _ _ _ _ _ Hr Hthr)
    as [m [Hm Hd]].
  unfold rbind in Hm |- *. destruct (tmul r (threshold self)); [|discriminate].
  rewrite tsub_number_zero, Hm. eauto.
Qed.

Lemma syn_subtract_hidden (self : t) (input_ : tensor)
    (base_syn base_mem r : tensor) (rho thr : Qc) :
  reset_mechanism_val self = 0%Z ->
  base_state_function_hidden self input_ = Ok (base_syn, base_mem) ->
  reset self = Some r ->
  data r = map (map (fun _ => rho)) (data base_mem) ->
  data (threshold self) = [[thr]] ->
  exists m,
    build_state_function_hidden self input_ = Ok (base_syn, m)
    /\ data m = map (map (fun b => b - rho * thr)) (data base_mem).
Proof.
  intros Hval Hbase Hreset Hr Hthr. unfold build_state_function_hidden.
  rewrite Hval, Hbase, Hreset. simpl.
  destruct (@reset_subtract_combine _ _ _ _ _ Hr Hthr)
    as [m [Hm Hd]].
  unfold rbind in Hm |- *. destruct (tmul r (threshold self)); [|discriminate].
  rewrite tsub_number_zero, Hm. eauto.
Qed.

(** Whatever the reset indicator and the threshold, the subtraction branch
    hands the synaptic base through. *)
Lemma syn_subtract_keeps_syn (self : t) (input_ : tensor) (spk syn mem : pyval)
    (base_syn base_mem syn' mem' : tensor) :
  reset_mechanism_val self = 0%Z ->
  base_state_function self input_ spk syn mem = Ok (base_syn, base_mem) ->
  build_state_function self input_ spk syn mem = Ok (syn', mem') ->
  syn' = base_syn.
Proof.
  intros Hval Hbase. unfold build_state_function.
  rewrite Hval, Hbase. simpl. rewrite tsub_number_zero.
  destruct (attr "reset" (reset self)); simpl; [|discriminate].
  destruct (tmul a (threshold self)); simpl; [|discriminate].
  destruct (tsub base_mem a0); simpl; [|discriminate]. congruence.
Qed.

Lemma syn_subtract_keeps_syn_hidden (self : t) (input_ : tensor)
    (base_syn base_mem syn' mem' : tensor) :
  reset_mechanism_val self = 0%Z ->
  base_state_function_hidden self input_ = Ok (base_syn, base_mem) ->
  build_state_function_hidden self input_ = Ok (syn', mem') ->
  syn' = base_syn.
Proof.
  intros Hval Hbase. unfold build_state_function_hidden.
  rewrite Hval, Hbase. simpl. rewrite tsub_number_zero.
  destruct (attr "reset" (reset self)); simpl; [|discriminate].
  destruct (tmul a (threshold self)); simpl; [|discriminate].
  destruct (tsub base_mem a0); simpl; [|discriminate]. congruence.
Qed.

(** Reset to zero, explicit-state form: the membrane loses [rho] times its
    base, the synaptic current keeps its base. *)
Lemma syn_zero_explicit (self : t) (input_ : tensor) (spk syn mem : pyval)
    (base_syn base_mem r : tensor) (rho : Qc) :
  reset_mechanism_val self = 1%Z ->
  base_state_function self input_ spk syn mem = Ok (base_syn, base_mem) ->
  reset self = Some r ->
  data r = map (map (fun _ => rho)) (data base_syn) ->
  data r = map (map (fun _ => rho)) (data base_mem) ->
  exists s m,
    build_state_function self input_ spk syn mem = Ok (s, m)
    /\ data s = data base_syn
    /\ data m = map (map (fun b => b - rho * b)) (data base_mem).
Proof.
  intros Hval Hbase Hreset Hrs Hrm. unfold build_state_function.
  rewrite Hval, Hbase, (@base_state_reset_zero_spec _ _ _ _ _ _ _ Hbase), Hreset.
  simpl.
  destruct (@reset_nothing_combine _ _ _ Hrs) as [s [Hs Hds]].
  destruct (@reset_zero_combine _ _ _ Hrm) as [m [Hm Hdm]].
  unfold rbind in Hs, Hm |- *.
  destruct (tmul r (py_scalar 0)); [|discriminate]. rewrite Hs.
  destruct (tmul r base_mem); [|discriminate]. rewrite Hm. eauto.
Qed.

(** Reset to zero, hidden-state form: both components lose [rho] times
    their own base. *)
Lemma syn_zero_hidden (self : t) (input_ : tensor)
    (base_syn base_mem r : tensor) (rho : Qc) :
  reset_mechanism_val self = 1%Z ->
  base_state_function_hidden self input_ = Ok (base_syn, base_mem) ->
  reset self = Some r ->
  data r = map (map (fun _ => rho)) (data base_syn) ->
  data r = map (map (fun _ => rho)) (data base_mem) ->
  exists s m,
    build_state_function_hidden self input_ = Ok (s, m)
    /\ data s = map (map (fun b => b - rho * b)) (data base_syn)
    /\ data m = map (map (fun b => b - rho * b)) (data base_mem).
Proof.
  intros Hval Hbase Hreset Hrs Hrm. unfold build_state_function_hidden.
  rewrite Hval, Hbase, Hreset. simpl.
  destruct (@reset_zero_combine _ _ _ Hrs) as [s [Hs Hds]].
  destruct (@reset_zero_combine _ _ _ Hrm) as [m [Hm Hdm]].
  unfold rbind in Hs, Hm |- *.
  destruct (tmul r base_syn); [|discriminate]. rewrite Hs.
  destruct (tmul r base_mem); [|discriminate]. rewrite Hm. eauto.
Qed.

Lemma syn_none_explicit (self : t) (input_ : tensor) (spk syn mem : pyval) :
  reset_mechanism_val self = 2%Z ->
  build_state_function self input_ spk syn mem
  = base_state_function self input_ spk syn mem.
Proof. intro Hval. unfold build_state_function. now rewrite Hval. Qed.

Lemma syn_none_hidden (self : t) (input_ : tensor) :
  reset_mechanism_val self = 2%Z ->
  build_state_function_hidden self input_
  = base_state_function_hidden self input_.
Proof. intro Hval. unfold build_state_function_hidden. now rewrite Hval. Qed.

End RSynapticPolicies.

(** ** Inversion of method calls that return *)

Lemma mbind_inv {S A B} (m : method S A) (k : A -> method S B)
    (s s' : S) (b : B) :
  mbind m k s = (s', Ok b) ->
  exists a s1, m s = (s1, Ok a) /\ k a s1 = (s', Ok b).
Proof.
  unfold mbind. destruct (m s) as [s1 [a|e]]; intro H; [|discriminate].
  now exists a, s1.
Qed.

Lemma lift_inv {S A} (r : result A) (s s' : S) (a : A) :
  lift r s = (s', Ok a) -> s' = s /\ r = Ok a.
Proof. unfold lift. intro H. now injection H as <- ->. Qed.

Lemma getattr_inv {S A} (name : string) (proj : S -> option A)
    (s s' : S) (a : A) :
  getattr name proj s = (s', Ok a) -> s' = s /\ proj s = Some a.
Proof.
  unfold getattr. destruct (proj s); intro H; [|discriminate].
  now injection H as <- ->.
Qed.

Lemma assign_inv {S} (upd : S -> S) (s s' : S) (u : unit) :
  assign upd s = (s', Ok u) -> s' = upd s.
Proof. unfold assign. intro H. now injection H as <-. Qed.

Lemma mret_inv {S A} (a b : A) (s s' : S) :
  mret a s = (s', Ok b) -> s' = s /\ b = a.
Proof. unfold mret. intro H. now injection H as <- <-. Qed.

Lemma self_inv {S} (s s' a : S) :
  self_ s = (s', Ok a) -> s' = s /\ a = s.
Proof. unfold self_. intro H. now injection H as <- <-. Qed.

Lemma rbind_inv {A B} (m : result A) (k : A -> result B) (b : B) :
  rbind m k = Ok b -> exists a, m = Ok a /\ k a = Ok b.
Proof. destruct m as [a|e]; simpl; intro H; [|discriminate]. now exists a. Qed.

(** Splits a returning call into its steps. *)
Ltac method_inv H :=
  lazymatch type of H with
  | mbind _ _ _ = (_, Ok _) =>
      let a := fresh "a" in
      let s := fresh "s" in
      let H1 := fresh "Hstep" in
      let H2 := fresh "Hrest" in
      apply mbind_inv in H; destruct H as (a & s & H1 & H2);
      method_inv H1; try method_inv H2
  | lift _ _ = (_, Ok _) =>
      let E := fresh "E" in
      apply lift_inv in H; destruct H as [E H]; subst
  | getattr _ _ _ = (_, Ok _) =>
      let E := fresh "E" in
      apply getattr_inv in H; destruct H as [E H]; subst
  | assign _ _ = (_, Ok _) => apply assign_inv in H; subst
  | mret _ _ = (_, Ok _) =>
      let E := fresh "E" in
      apply mret_inv in H; destruct H as [E H]; subst
  | self_ _ = (_, Ok _) =>
      let E := fresh "E" in
      apply self_inv in H; destruct H as [E H]; subst
  | (let (_, _) := ?x in _) _ = (_, Ok _) =>
      is_var x; destruct x; method_inv H
  | _ => idtac
  end.

(** ** One call of [RLeaky.forward] *)

Section RLeakyForward.
Import RLeaky.

(** The conversion of two and of three slots. *)
Lemma convert_two (input_ : tensor) (a b : pyval) :
  (states <- _SpikeTorchConv [a; b] input_ ;; unpack2 states)
  = if is_False a || is_False b then Raise (AttributeError "to")
    else Ok (zero_state input_, zero_state input_).
Proof. destruct a, b; reflexivity. Qed.

Lemma convert_three (input_ : tensor) (a b c : pyval) :
  (states <- _SpikeTorchConv [a; b; c] input_ ;; unpack3 states)
  = if is_False a || is_False b || is_False c then Raise (AttributeError "to")
    else Ok (zero_state input_, zero_state input_, zero_state input_).
Proof. destruct a, b, c; reflexivity. Qed.

Lemma received_as_passed (input_ : tensor) (args : list pyval) (v : pyval) :
  any_marker args = false -> received input_ args v = v.
Proof. intro H. unfold received. now rewrite H. Qed.

Lemma received_zeroed (input_ : tensor) (args : list pyval) (v : pyval) :
  any_marker args = true -> received input_ args v = zero_state input_.
Proof. intro H. unfold received. now rewrite H. Qed.

(** The opening [if]/[elif], on an instance whose states are set, when no
    marker is passed beside a [False] and the stored spike is not
    [False]. *)
Lemma first_pass_total (self : t) (input_ : tensor) (spk mem s m : pyval) :
  RLeaky.spk self = Some s -> RLeaky.mem self = Some m ->
  marker_beside_False [spk; mem] = false -> is_False s = false ->
  first_pass input_ spk mem self
  = (if negb (any_marker [spk; mem]) && is_False mem
     then rleaky_lazy_init input_ self else self,
     Ok (received input_ [spk; mem] spk, received input_ [spk; mem] mem)).
Proof.
  intros Hs Hm Hmix Fs.
  unfold first_pass, rleaky_lazy_init, received, mbind, getattr, lift.
  destruct spk, mem; try discriminate Hmix; cbn; rewrite ?Hs, ?Hm;
    try reflexivity;
    destruct m; cbn; rewrite ?Hs; try reflexivity;
    destruct s; try discriminate Fs; reflexivity.
Qed.

(** A marker passed beside a [False]: the conversion raises and the
    instance is as it was. *)
Lemma first_pass_marker_beside_False (self : t) (input_ : tensor)
    (spk mem : pyval) :
  marker_beside_False [spk; mem] = true ->
  first_pass input_ spk mem self = (self, Raise (AttributeError "to")).
Proof.
  intro Hmix. unfold first_pass, lift. rewrite convert_two.
  destruct spk, mem; try discriminate Hmix; reflexivity.
Qed.

(** The opening [if]/[elif], when it returns. *)
Lemma first_pass_returns (self s1 : t) (input_ : tensor) (spk mem spk0 mem0 : pyval) :
  first_pass input_ spk mem self = (s1, Ok (spk0, mem0)) ->
  spk0 = received input_ [spk; mem] spk /\ mem0 = received input_ [spk; mem] mem
  /\ marker_beside_False [spk; mem] = false
  /\ (s1 = self \/ s1 = rleaky_lazy_init input_ self).
Proof.
  unfold first_pass, rleaky_lazy_init, received, mbind, getattr, lift.
  rewrite convert_two.
  destruct spk, mem; cbn; try discriminate;
    try (intro H; injection H as <- <- <-; auto);
    destruct (RLeaky.mem self) as [m|]; try discriminate;
    destruct m; cbn; try discriminate;
    try (intro H; injection H as <- <- <-; auto);
    destruct (RLeaky.spk self) as [s|]; try discriminate;
    destruct s; cbn; try discriminate;
    intro H; injection H as <- <- <-; auto.
Qed.

(** The lazy initialisation touches the stored spike and membrane only. *)
Lemma rleaky_lazy_init_frame (input_ : tensor) (self : t) :
  let self0 := rleaky_lazy_init input_ self in
  beta self0 = beta self /\ V self0 = V self
  /\ threshold self0 = threshold self /\ init_hidden self0 = init_hidden self
  /\ inhibition self0 = inhibition self
  /\ reset_mechanism_val self0 = reset_mechanism_val self
  /\ output self0 = output self /\ reset self0 = reset self.
Proof.
  unfold rleaky_lazy_init.
  destruct (RLeaky.spk self), (RLeaky.mem self) as [m|];
    try destruct (hasattr_init_flag m); simpl; repeat split.
Qed.

Lemma build_state_function_params (s s' : t) (input_ : tensor) (spk mem : pyval) :
  beta s = beta s' -> V s = V s' -> threshold s = threshold s' ->
  reset_mechanism_val s = reset_mechanism_val s' -> reset s = reset s' ->
  build_state_function s input_ spk mem = build_state_function s' input_ spk mem.
Proof.
  intros Hb HV Ht Hval Hr.
  unfold build_state_function, base_state_function, base_state_function_two_args.
  now rewrite Hb, HV, Ht, Hval, Hr.
Qed.

Lemma spike_params (s s' : t) (m : tensor) :
  threshold s = threshold s' -> inhibition s = inhibition s' ->
  spike s m = spike s' m.
Proof. intros Ht Hi. unfold spike. now rewrite Ht, Hi. Qed.

(** The explicit-state form: the reset indicator is taken from the membrane
    handed in, then the state function runs, then the spike is decided. *)
Lemma forward_explicit (self self' : t) (input_ : tensor) (spk mem : pyval)
    (out : returned) :
  init_hidden self = false ->
  forward input_ spk mem self = (self', Ok out) ->
  exists r m s,
    mem_reset (threshold self) (as_tensor (received input_ [spk; mem] mem))
    = Ok r
    /\ reset self' = Some r
    /\ build_state_function (set_reset r self) input_
         (received input_ [spk; mem] spk) (received input_ [spk; mem] mem)
       = Ok m
    /\ spike self m = Ok s
    /\ out = SpkMem s m.
Proof.
  intros Hh H. unfold forward in H.
  apply mbind_inv in H. destruct H as ([spk0 mem0] & s1 & Hfirst & H).
  apply first_pass_returns in Hfirst. destruct Hfirst as (-> & -> & _ & Hs1).
  assert (Hframe : beta s1 = beta self /\ V s1 = V self
    /\ threshold s1 = threshold self /\ init_hidden s1 = init_hidden self
    /\ inhibition s1 = inhibition self
    /\ reset_mechanism_val s1 = reset_mechanism_val self
    /\ output s1 = output self /\ reset s1 = reset self).
  { destruct Hs1 as [-> | ->]; [repeat split | apply rleaky_lazy_init_frame]. }
  destruct Hframe as (Hb & HV & Ht & Hi & Hinh & Hval & Hout & Hres).
  apply mbind_inv in H. destruct H as (self1 & s2 & Hself & H).
  apply self_inv in Hself. destruct Hself as [-> ->].
  rewrite Hi, Hh in H. simpl in H.
  method_inv H.
  rewrite Ht in *.
  eexists _, _, _. split; [eassumption|]. split; [reflexivity|].
  split; [|split; [|reflexivity]].
  - erewrite build_state_function_params; [eassumption | simpl; auto ..].
  - erewrite spike_params; [eassumption | simpl; auto ..].
Qed.

(** With both arguments left at their default, the opening [if]/[elif]
    leaves the instance lazily initialised. *)
Lemma first_pass_default (self s1 : t) (input_ : tensor) (x : pyval * pyval) :
  first_pass input_ PFalse PFalse self = (s1, Ok x) ->
  s1 = rleaky_lazy_init input_ self.
Proof.
  unfold first_pass, rleaky_lazy_init, mbind, getattr, lift. cbn.
  destruct (RLeaky.mem self) as [m|]; [|discriminate].
  destruct m; cbn.
  - unfold mret. intro H. injection H as <- _. now destruct (RLeaky.spk self).
  - destruct (RLeaky.spk self) as [s|]; [|discriminate].
    destruct s; cbn; try discriminate;
      unfold mret; intro H; now injection H as <- _.
  - unfold mret. intro H. injection H as <- _. now destruct (RLeaky.spk self).
Qed.

(** The usage check of the hidden-state form passes on default arguments
    only. *)
Lemma _rleaky_forward_cases_ok (spk mem : pyval) :
  _rleaky_forward_cases spk mem = Ok tt -> spk = PFalse /\ mem = PFalse.
Proof.
  unfold _rleaky_forward_cases. destruct spk, mem; simpl; intro H;
    try discriminate; auto.
Qed.

(** The hidden-state form: after the lazy initialisation the reset indicator
    is taken from the stored membrane, then the state function runs on the
    stored states, then the spike is decided; all three are stored. *)
Lemma forward_hidden (self self' : t) (input_ : tensor) (spk mem : pyval)
    (out : returned) :
  init_hidden self = true ->
  forward input_ spk mem self = (self', Ok out) ->
  spk = PFalse /\ mem = PFalse /\
  exists stored r m s,
    RLeaky.mem (rleaky_lazy_init input_ self) = Some stored
    /\ mem_reset (threshold self) (as_tensor stored) = Ok r
    /\ build_state_function_hidden
         (set_reset r (rleaky_lazy_init input_ self)) input_ = Ok m
    /\ spike self m = Ok s
    /\ self' = set_spk (Tensor s)
                 (set_mem (Tensor m) (set_reset r (rleaky_lazy_init input_ self)))
    /\ out = (if output self then SpkMem s m else Spk s).
Proof.
  intros Hh H. unfold forward in H.
  apply mbind_inv in H. destruct H as ([spk0 mem0] & s1 & Hfirst & H).
  apply mbind_inv in H. destruct H as (self1 & s2 & Hself & H).
  apply self_inv in Hself. destruct Hself as [-> ->].
  pose proof Hfirst as Hf. apply first_pass_returns in Hf.
  destruct Hf as (-> & -> & _ & Hs1).
  assert (Hi : init_hidden s1 = true).
  { destruct Hs1 as [-> | ->]; [assumption|].
    now rewrite (proj1 (proj2 (proj2 (proj2 (rleaky_lazy_init_frame input_ self))))). }
  rewrite Hi in H. simpl in H.
  apply mbind_inv in H. destruct H as (u & s2 & Hcases & H).
  apply lift_inv in Hcases. destruct Hcases as [-> Hcases]. destruct u.
  apply _rleaky_forward_cases_ok in Hcases. destruct Hcases as [Hspk Hmem].
  unfold received, zero_state in Hspk, Hmem.
  assert (spk = PFalse) as ->
    by (destruct spk, mem; cbn in Hspk; congruence).
  assert (mem = PFalse) as -> by (destruct mem; cbn in Hmem; congruence).
  clear Hspk Hmem Hs1.
  apply first_pass_default in Hfirst. subst s1.
  destruct (rleaky_lazy_init_frame input_ self)
    as (Hb & HV & Ht & _ & Hinh & Hval & Hout & Hres).
  simpl in Hb, HV, Ht, Hinh, Hval, Hout, Hres.
  method_inv H. rewrite Ht in *.
  repeat split.
  eexists _, _, _, _. split; [eassumption|]. split; [eassumption|].
  split; [eassumption|]. split.
  - erewrite spike_params; [eassumption | simpl; auto ..].
  - simpl. rewrite Hout. split; reflexivity.
Qed.

End RLeakyForward.

(** ** One call of [RSynaptic.forward] *)

Section RSynapticForward.
Import RSynaptic.

Lemma syn_first_pass_total (self : t) (input_ : tensor)
    (spk syn mem s y m : pyval) :
  RSynaptic.spk self = Some s -> RSynaptic.syn self = Some y ->
  RSynaptic.mem self = Some m ->
  marker_beside_False [spk; syn; mem] = false ->
  is_False s = false -> is_False y = false ->
  first_pass input_ spk syn mem self
  = (if negb (any_marker [spk; syn; mem]) && is_False mem
     then rsynaptic_lazy_init input_ self else self,
     Ok (received input_ [spk; syn; mem] spk,
         received input_ [spk; syn; mem] syn,
         received input_ [spk; syn; mem] mem)).
Proof.
  intros Hs Hy Hm Hmix Fs Fy.
  unfold first_pass, rsynaptic_lazy_init, received, mbind, getattr, lift.
  destruct spk, syn, mem; try discriminate Hmix; cbn; rewrite ?Hs, ?Hy, ?Hm;
    try reflexivity;
    destruct m; cbn; rewrite ?Hs; cbn; rewrite ?Hy; try reflexivity;
    destruct s; try discriminate Fs; destruct y; try discriminate Fy;
    reflexivity.
Qed.

Lemma syn_first_pass_marker_beside_False (self : t) (input_ : tensor)
    (spk syn mem : pyval) :
  marker_beside_False [spk; syn; mem] = true ->
  first_pass input_ spk syn mem self = (self, Raise (AttributeError "to")).
Proof.
  intro Hmix. unfold first_pass, lift. rewrite convert_three.
  destruct spk, syn, mem; try discriminate Hmix; reflexivity.
Qed.

Lemma syn_first_pass_returns (self s1 : t) (input_ : tensor)
    (spk syn mem spk0 syn0 mem0 : pyval) :
  first_pass input_ spk syn mem self = (s1, Ok (spk0, syn0, mem0)) ->
  spk0 = received input_ [spk; syn; mem] spk
  /\ syn0 = received input_ [spk; syn; mem] syn
  /\ mem0 = received input_ [spk; syn; mem] mem
  /\ marker_beside_False [spk; syn; mem] = false
  /\ (s1 = self \/ s1 = rsynaptic_lazy_init input_ self).
Proof.
  unfold first_pass, rsynaptic_lazy_init, received, mbind, getattr, lift.
  rewrite convert_three.
  destruct spk, syn, mem; cbn; try discriminate;
    try (intro H; injection H as <- <- <- <-; repeat split; auto);
    destruct (RSynaptic.mem self) as [m|]; try discriminate;
    destruct m; cbn; try discriminate;
    try (intro H; injection H as <- <- <- <-; repeat split; auto);
    destruct (RSynaptic.spk self) as [s|]; try discriminate;
    destruct (RSynaptic.syn self) as [y|]; try discriminate;
    destruct s, y; cbn; try discriminate;
    intro H; injection H as <- <- <- <-; repeat split; auto.
Qed.

Lemma syn_first_pass_default (self s1 : t) (input_ : tensor)
    (x : pyval * pyval * pyval) :
  first_pass input_ PFalse PFalse PFalse self = (s1, Ok x) ->
  s1 = rsynaptic_lazy_init input_ self.
Proof.
  unfold first_pass, rsynaptic_lazy_init, mbind, getattr, lift. cbn.
  destruct (RSynaptic.mem self) as [m|]; [|discriminate].
  destruct m; cbn.
  - unfold mret. intro H. injection H as <- _.
    now destruct (RSynaptic.spk self), (RSynaptic.syn self).
  - destruct (RSynaptic.spk self) as [s|]; [|discriminate].
    destruct (RSynaptic.syn self) as [y|]; [|discriminate].
    destruct s, y; cbn; try discriminate;
      unfold mret; intro H; now injection H as <- _.
  - unfold mret. intro H. injection H as <- _.
    now destruct (RSynaptic.spk self), (RSynaptic.syn self).
Qed.

Lemma rsynaptic_lazy_init_frame (input_ : tensor) (self : t) :
  let self0 := rsynaptic_lazy_init input_ self in
  alpha self0 = alpha self /\ beta self0 = beta self /\ V self0 = V self
  /\ threshold self0 = threshold self /\ init_hidden self0 = init_hidden self
  /\ inhibition self0 = inhibition self
  /\ reset_mechanism_val self0 = reset_mechanism_val self
  /\ output self0 = output self /\ reset self0 = reset self.
Proof.
  unfold rsynaptic_lazy_init.
  destruct (RSynaptic.spk self), (RSynaptic.syn self),
    (RSynaptic.mem self) as [m|];
    try destruct (hasattr_init_flag m); simpl; repeat split.
Qed.

Lemma syn_build_state_function_params (s s' : t) (input_ : tensor)
    (spk syn mem : pyval) :
  alpha s = alpha s' -> beta s = beta s' -> V s = V s' ->
  threshold s = threshold s' ->
  reset_mechanism_val s = reset_mechanism_val s' -> reset s = reset s' ->
  build_state_function s input_ spk syn mem
  = build_state_function s' input_ spk syn mem.
Proof.
  intros Ha Hb HV Ht Hval Hr.
  unfold build_state_function, base_state_function, base_state_reset_zero.
  now rewrite Ha, Hb, HV, Ht, Hval, Hr.
Qed.

Lemma syn_spike_params (s s' : t) (m : tensor) :
  threshold s = threshold s' -> inhibition s = inhibition s' ->
  spike s m = spike s' m.
Proof. intros Ht Hi. unfold spike. now rewrite Ht, Hi. Qed.

Lemma syn_forward_explicit (self self' : t) (input_ : tensor)
    (spk syn mem : pyval) (out : returned) :
  init_hidden self = false ->
  forward input_ spk syn mem self = (self', Ok out) ->
  exists r y m s,
    mem_reset (threshold self)
      (as_tensor (received input_ [spk; syn; mem] mem)) = Ok r
    /\ reset self' = Some r
    /\ build_state_function (set_reset r self) input_
         (received input_ [spk; syn; mem] spk)
         (received input_ [spk; syn; mem] syn)
         (received input_ [spk; syn; mem] mem) = Ok (y, m)
    /\ spike self m = Ok s
    /\ out = SpkSynMem s y m.
Proof.
  intros Hh H. unfold forward in H.
  apply mbind_inv in H. destruct H as ([[spk0 syn0] mem0] & s1 & Hfirst & H).
  apply syn_first_pass_returns in Hfirst.
  destruct Hfirst as (-> & -> & -> & _ & Hs1).
  assert (Hframe : alpha s1 = alpha self /\ beta s1 = beta self /\ V s1 = V self
    /\ threshold s1 = threshold self /\ init_hidden s1 = init_hidden self
    /\ inhibition s1 = inhibition self
    /\ reset_mechanism_val s1 = reset_mechanism_val self
    /\ output s1 = output self /\ reset s1 = reset self).
  { destruct Hs1 as [-> | ->]; [repeat split | apply rsynaptic_lazy_init_frame]. }
  destruct Hframe as (Ha & Hb & HV & Ht & Hi & Hinh & Hval & Hout & Hres).
  apply mbind_inv in H. destruct H as (self1 & s2 & Hself & H).
  apply self_inv in Hself. destruct Hself as [-> ->].
  rewrite Hi, Hh in H. simpl in H.
  method_inv H.
  rewrite Ht in *.
  eexists _, _, _, _. split; [eassumption|]. split; [reflexivity|].
  split; [|split; [|reflexivity]].
  - erewrite syn_build_state_function_params; [eassumption | simpl; auto ..].
  - erewrite syn_spike_params; [eassumption | simpl; auto ..].
Qed.

Lemma _rsynaptic_forward_cases_ok (spk mem syn : pyval) :
  _rsynaptic_forward_cases spk mem syn = Ok tt ->
  spk = PFalse /\ syn = PFalse /\ mem = PFalse.
Proof.
  unfold _rsynaptic_forward_cases. destruct spk, mem, syn; simpl; intro H;
    try discriminate; auto.
Qed.

Lemma syn_forward_hidden (self self' : t) (input_ : tensor)
    (spk syn mem : pyval) (out : returned) :
  init_hidden self = true ->
  forward input_ spk syn mem self = (self', Ok out) ->
  spk = PFalse /\ syn = PFalse /\ mem = PFalse /\
  exists stored r y m s,
    RSynaptic.mem (rsynaptic_lazy_init input_ self) = Some stored
    /\ mem_reset (threshold self) (as_tensor stored) = Ok r
    /\ build_state_function_hidden
         (set_reset r (rsynaptic_lazy_init input_ self)) input_ = Ok (y, m)
    /\ spike self m = Ok s
    /\ self' = set_spk (Tensor s)
                 (set_mem (Tensor m)
                    (set_syn (Tensor y)
                       (set_reset r (rsynaptic_lazy_init input_ self))))
    /\ out = (if output self then SpkSynMem s y m else Spk s).
Proof.
  intros Hh H. unfold forward in H.
  apply mbind_inv in H. destruct H as ([[spk0 syn0] mem0] & s1 & Hfirst & H).
  apply mbind_inv in H. destruct H as (self1 & s2 & Hself & H).
  apply self_inv in Hself. destruct Hself as [-> ->].
  pose proof Hfirst as Hf. apply syn_first_pass_returns in Hf.
  destruct Hf as (-> & -> & -> & _ & Hs1).
  assert (Hi : init_hidden s1 = true).
  { destruct Hs1 as [-> | ->]; [assumption|].
    destruct (rsynaptic_lazy_init_frame input_ self)
      as (_ & _ & _ & _ & Hi & _). simpl in Hi. congruence. }
  rewrite Hi in H. simpl in H.
  apply mbind_inv in H. destruct H as (u & s2 & Hcases & H).
  apply lift_inv in Hcases. destruct Hcases as [-> Hcases]. destruct u.
  apply _rsynaptic_forward_cases_ok in Hcases.
  destruct Hcases as (Hspk & Hsyn & Hmem).
  unfold received, zero_state in Hspk, Hsyn, Hmem.
  assert (spk = PFalse) as ->
    by (destruct spk, syn, mem; cbn in Hspk; congruence).
  assert (syn = PFalse) as ->
    by (destruct syn, mem; cbn in Hsyn; congruence).
  assert (mem = PFalse) as -> by (destruct mem; cbn in Hmem; congruence).
  clear Hspk Hsyn Hmem Hs1.
  apply syn_first_pass_default in Hfirst. subst s1.
  destruct (rsynaptic_lazy_init_frame input_ self)
    as (Ha & Hb & HV & Ht & _ & Hinh & Hval & Hout & Hres).
  simpl in Ha, Hb, HV, Ht, Hinh, Hval, Hout, Hres.
  method_inv H. rewrite Ht in *.
  repeat split.
  eexists _, _, _, _, _. split; [eassumption|]. split; [eassumption|].
  split; [eassumption|]. split.
  - erewrite syn_spike_params; [eassumption | simpl; auto ..].
  - simpl. rewrite Hout. split; reflexivity.
Qed.

End RSynapticForward.

(** * The claims *)

(** C8: with [reset_mechanism="none"] the state function of RLeaky and of
    RSynaptic, in the explicit-state and in the hidden-state form, returns
    exactly the base term (for RSynaptic the pair of the synaptic base and the
    membrane base), whatever the threshold and the reset indicator held by the
    instance. *)
Theorem C8_no_reset_is_base :
  (forall (self : RLeaky.t) (input_ : tensor) (spk mem : pyval)
          (threshold' : tensor) (reset' : option tensor),
     RLeaky.reset_mechanism_val self = 2%Z ->
     RLeaky.build_state_function
       (RLeaky.mk (RLeaky.beta self) (RLeaky.V self) threshold'
          (RLeaky.init_hidden self) (RLeaky.inhibition self)
          (RLeaky.reset_mechanism_val self) (RLeaky.output self)
          (RLeaky.spk self) (RLeaky.mem self) reset') input_ spk mem
     = RLeaky.base_state_function self input_ spk mem)
  /\
  (forall (self : RLeaky.t) (input_ : tensor)
          (threshold' : tensor) (reset' : option tensor),
     RLeaky.reset_mechanism_val self = 2%Z ->
     RLeaky.build_state_function_hidden
       (RLeaky.mk (RLeaky.beta self) (RLeaky.V self) threshold'
          (RLeaky.init_hidden self) (RLeaky.inhibition self)
          (RLeaky.reset_mechanism_val self) (RLeaky.output self)
          (RLeaky.spk self) (RLeaky.mem self) reset') input_
     = RLeaky.base_state_function_hidden self input_)
  /\
  (forall (self : RSynaptic.t) (input_ : tensor) (spk syn mem : pyval)
          (threshold' : tensor) (reset' : option tensor),
     RSynaptic.reset_mechanism_val self = 2%Z ->
     RSynaptic.build_state_function
       (RSynaptic.mk (RSynaptic.alpha self) (RSynaptic.beta self)
          (RSynaptic.V self) threshold'
          (RSynaptic.init_hidden self) (RSynaptic.inhibition self)
          (RSynaptic.reset_mechanism_val self) (RSynaptic.output self)
          (RSynaptic.spk self) (RSynaptic.syn self) (RSynaptic.mem self)
          reset') input_ spk syn mem
     = RSynaptic.base_state_function self input_ spk syn mem)
  /\
  (forall (self : RSynaptic.t) (input_ : tensor)
          (threshold' : tensor) (reset' : option tensor),
     RSynaptic.reset_mechanism_val self = 2%Z ->
     RSynaptic.build_state_function_hidden
       (RSynaptic.mk (RSynaptic.alpha self) (RSynaptic.beta self)
          (RSynaptic.V self) threshold'
          (RSynaptic.init_hidden self) (RSynaptic.inhibition self)
          (RSynaptic.reset_mechanism_val self) (RSynaptic.output self)
          (RSynaptic.spk self) (RSynaptic.syn self) (RSynaptic.mem self)
          reset') input_
     = RSynaptic.base_state_function_hidden self input_).
Proof.
  repeat split; intros.
  - now rewrite none_explicit.
  - now rewrite none_hidden.
  - now rewrite syn_none_explicit.
  - now rewrite syn_none_hidden.
Qed.

(** With no reset, a membrane of 5 against a threshold of 1 and a reset
    indicator of 1 changes nothing: the new states are the base terms. *)
Lemma C8_no_reset_is_base_witness :
  (RLeaky.build_state_function
     (RLeaky.set_reset (batch [[1; 1]]%Q) (leaky false none false))
     (batch [[1; 2]]%Q) (Tensor (batch [[1; 0]]%Q)) (Tensor (batch [[5; 4]]%Q))
   = RLeaky.base_state_function (leaky false none false)
       (batch [[1; 2]]%Q) (Tensor (batch [[1; 0]]%Q)) (Tensor (batch [[5; 4]]%Q))
   /\ RLeaky.base_state_function (leaky false none false)
        (batch [[1; 2]]%Q) (Tensor (batch [[1; 0]]%Q)) (Tensor (batch [[5; 4]]%Q))
      = Ok (tensor_of [[9 # 2; 4]]%Q true))
  /\
  (RSynaptic.build_state_function_hidden
     (RSynaptic.set_reset (batch [[1; 1]]%Q)
        (synaptic_holding none (batch [[1; 0]]%Q) (batch [[2; 2]]%Q)
           (batch [[5; 4]]%Q)))
     (batch [[1; 2]]%Q)
   = RSynaptic.base_state_function_hidden
       (synaptic_holding none (batch [[1; 0]]%Q) (batch [[2; 2]]%Q)
          (batch [[5; 4]]%Q))
       (batch [[1; 2]]%Q)
   /\ RSynaptic.base_state_function_hidden
        (synaptic_holding none (batch [[1; 0]]%Q) (batch [[2; 2]]%Q)
           (batch [[5; 4]]%Q))
        (batch [[1; 2]]%Q)
      = Ok (tensor_of [[3; 3]]%Q true, tensor_of [[11 # 2; 5]]%Q true)).
Proof.
  split; (split; [|qc_eq]).
  - apply (proj1 C8_no_reset_is_base (leaky false none false)). reflexivity.
  - apply (proj2 (proj2 (proj2 C8_no_reset_is_base))
             (synaptic_holding none (batch [[1; 0]]%Q) (batch [[2; 2]]%Q)
                (batch [[5; 4]]%Q))).
    reflexivity.
Defined.

(** C5: with [reset_mechanism="subtract"], in RLeaky and in RSynaptic and in
    both calling conventions, a reset indicator of 1 makes the new membrane
    the base minus the threshold, a reset indicator of 0 leaves it the base;
    the subtraction branch of RSynaptic hands the synaptic base through
    whatever the reset indicator is. *)
Theorem C5_subtract_policy :
  (forall (self : RLeaky.t) (input_ : tensor) (spk mem : pyval)
          (base r : tensor) (thr : Qc),
     RLeaky.reset_mechanism_val self = 0%Z ->
     RLeaky.base_state_function self input_ spk mem = Ok base ->
     RLeaky.reset self = Some r ->
     data (RLeaky.threshold self) = [[thr]] ->
     (data r = data (ones_like base) ->
      exists m, RLeaky.build_state_function self input_ spk mem = Ok m
                /\ data m = map (map (fun b => b - thr)) (data base))
     /\ (data r = data (zeros_like base) ->
         exists m, RLeaky.build_state_function self input_ spk mem = Ok m
                   /\ data m = data base))
  /\
  (forall (self : RLeaky.t) (input_ : tensor) (base r : tensor) (thr : Qc),
     RLeaky.reset_mechanism_val self = 0%Z ->
     RLeaky.base_state_function_hidden self input_ = Ok base ->
     RLeaky.reset self = Some r ->
     data (RLeaky.threshold self) = [[thr]] ->
     (data r = data (ones_like base) ->
      exists m, RLeaky.build_state_function_hidden self input_ = Ok m
                /\ data m = map (map (fun b => b - thr)) (data base))
     /\ (data r = data (zeros_like base) ->
         exists m, RLeaky.build_state_function_hidden self input_ = Ok m
                   /\ data m = data base))
  /\
  (forall (self : RSynaptic.t) (input_ : tensor) (spk syn mem : pyval)
          (base_syn base_mem r : tensor) (thr : Qc),
     RSynaptic.reset_mechanism_val self = 0%Z ->
     RSynaptic.base_state_function self input_ spk syn mem
       = Ok (base_syn, base_mem) ->
     RSynaptic.reset self = Some r ->
     data (RSynaptic.threshold self) = [[thr]] ->
     (data r = data (ones_like base_mem) ->
      exists m, RSynaptic.build_state_function self input_ spk syn mem
                  = Ok (base_syn, m)
                /\ data m = map (map (fun b => b - thr)) (data base_mem))
     /\ (data r = data (zeros_like base_mem) ->
         exists m, RSynaptic.build_state_function self input_ spk syn mem
                     = Ok (base_syn, m)
                   /\ data m = data base_mem))
  /\
  (forall (self : RSynaptic.t) (input_ : tensor)
          (base_syn base_mem r : tensor) (thr : Qc),
     RSynaptic.reset_mechanism_val self = 0%Z ->
     RSynaptic.base_state_function_hidden self input_
       = Ok (base_syn, base_mem) ->
     RSynaptic.reset self = Some r ->
     data (RSynaptic.threshold self) = [[thr]] ->
     (data r = data (ones_like base_mem) ->
      exists m, RSynaptic.build_state_function_hidden self input_
                  = Ok (base_syn, m)
                /\ data m = map (map (fun b => b - thr)) (data base_mem))
     /\ (data r = data (zeros_like base_mem) ->
         exists m, RSynaptic.build_state_function_hidden self input_
                     = Ok (base_syn, m)
                   /\ data m = data base_mem))
  /\
  (forall (self : RSynaptic.t) (input_ : tensor) (spk syn mem : pyval)
          (base_syn base_mem syn' mem' : tensor),
     RSynaptic.reset_mechanism_val self = 0%Z ->
     RSynaptic.base_state_function self input_ spk syn mem
       = Ok (base_syn, base_mem) ->
     RSynaptic.build_state_function self input_ spk syn mem = Ok (syn', mem') ->
     syn' = base_syn)
  /\
  (forall (self : RSynaptic.t) (input_ : tensor)
          (base_syn base_mem syn' mem' : tensor),
     RSynaptic.reset_mechanism_val self = 0%Z ->
     RSynaptic.base_state_function_hidden self input_
       = Ok (base_syn, base_mem) ->
     RSynaptic.build_state_function_hidden self input_ = Ok (syn', mem') ->
     syn' = base_syn).
Proof.
  assert (Hone : forall (thr : Qc) rows,
            map (map (fun b => b - 1 * thr)) rows
            = map (map (fun b => b - thr)) rows)
    by (intros; apply map_ext2; intro; ring).
  assert (Hzero : forall (thr : Qc) rows,
            map (map (fun b : Qc => b - 0 * thr)) rows = rows).
  { intros thr rows. rewrite <- (map_id2 rows) at 2. apply map_ext2.
    intro. ring. }
  repeat apply conj.
  - intros self input_ spk mem base r thr Hval Hbase Hreset Hthr. split; intro Hr.
    + destruct (@subtract_explicit self input_ spk mem base r 1 thr
                  Hval Hbase Hreset Hr Hthr) as [m [Hm Hd]].
      exists m. now rewrite <- Hone.
    + destruct (@subtract_explicit self input_ spk mem base r 0 thr
                  Hval Hbase Hreset Hr Hthr) as [m [Hm Hd]].
      exists m. now rewrite <- (Hzero thr (data base)).
  - intros self input_ base r thr Hval Hbase Hreset Hthr. split; intro Hr.
    + destruct (@subtract_hidden self input_ base r 1 thr
                  Hval Hbase Hreset Hr Hthr) as [m [Hm Hd]].
      exists m. now rewrite <- Hone.
    + destruct (@subtract_hidden self input_ base r 0 thr
                  Hval Hbase Hreset Hr Hthr) as [m [Hm Hd]].
      exists m. now rewrite <- (Hzero thr (data base)).
  - intros self input_ spk syn mem bs bm r thr Hval Hbase Hreset Hthr.
    split; intro Hr.
    + destruct (@syn_subtract_explicit self input_ spk syn mem bs bm r 1 thr
                  Hval Hbase Hreset Hr Hthr) as [m [Hm Hd]].
      exists m. now rewrite <- Hone.
    + destruct (@syn_subtract_explicit self input_ spk syn mem bs bm r 0 thr
                  Hval Hbase Hreset Hr Hthr) as [m [Hm Hd]].
      exists m. now rewrite <- (Hzero thr (data bm)).
  - intros self input_ bs bm r thr Hval Hbase Hreset Hthr. split; intro Hr.
    + destruct (@syn_subtract_hidden self input_ bs bm r 1 thr
                  Hval Hbase Hreset Hr Hthr) as [m [Hm Hd]].
      exists m. now rewrite <- Hone.
    + destruct (@syn_subtract_hidden self input_ bs bm r 0 thr
                  Hval Hbase Hreset Hr Hthr) as [m [Hm Hd]].
      exists m. now rewrite <- (Hzero thr (data bm)).
  - intros. eapply syn_subtract_keeps_syn; eassumption.
  - intros. eapply syn_subtract_keeps_syn_hidden; eassumption.
Qed.

(** The subtraction policy on two neurons at once, threshold 1: with a reset
    indicator of 1 the bases 9/2 and 4 lose 1 each; with a reset indicator of
    0 the hidden-state bases stay; the synaptic base of RSynaptic is handed
    through. *)
Lemma C5_subtract_policy_witness :
  (exists m,
     RLeaky.build_state_function
       (RLeaky.set_reset (batch [[1; 1]]%Q) (leaky false subtract false))
       (batch [[1; 2]]%Q) (Tensor (batch [[1; 0]]%Q)) (Tensor (batch [[5; 4]]%Q))
     = Ok m
     /\ data m = map (map (fun b => b - 1))
                   (data (tensor_of [[9 # 2; 4]]%Q true)))
  /\
  (exists m,
     RLeaky.build_state_function_hidden
       (RLeaky.set_reset (batch [[0; 0]]%Q)
          (leaky_holding subtract (batch [[1; 0]]%Q) (batch [[5; 4]]%Q)))
       (batch [[1; 2]]%Q)
     = Ok m
     /\ data m = data (tensor_of [[9 # 2; 4]]%Q true))
  /\
  (exists m,
     RSynaptic.build_state_function
       (RSynaptic.set_reset (batch [[1; 1]]%Q) (synaptic false subtract false))
       (batch [[1; 2]]%Q) (Tensor (batch [[1; 0]]%Q)) (Tensor (batch [[2; 2]]%Q))
       (Tensor (batch [[5; 4]]%Q))
     = Ok (tensor_of [[3; 3]]%Q true, m)
     /\ data m = map (map (fun b => b - 1))
                   (data (tensor_of [[11 # 2; 5]]%Q true)))
  /\
  (exists m,
     RSynaptic.build_state_function_hidden
       (RSynaptic.set_reset (batch [[0; 0]]%Q)
          (synaptic_holding subtract (batch [[1; 0]]%Q) (batch [[2; 2]]%Q)
             (batch [[5; 4]]%Q)))
       (batch [[1; 2]]%Q)
     = Ok (tensor_of [[3; 3]]%Q true, m)
     /\ data m = data (tensor_of [[11 # 2; 5]]%Q true)).
Proof.
  repeat apply conj.
  - refine (proj1 (proj1 C5_subtract_policy _ _ _ _
                     (tensor_of [[9 # 2; 4]]%Q true) (batch [[1; 1]]%Q) 1
                     _ _ _ _) _);
      first [reflexivity | qc_eq].
  - refine (proj2 (proj1 (proj2 C5_subtract_policy) _ _
                     (tensor_of [[9 # 2; 4]]%Q true) (batch [[0; 0]]%Q) 1
                     _ _ _ _) _);
      first [reflexivity | qc_eq].
  - refine (proj1 (proj1 (proj2 (proj2 C5_subtract_policy)) _ _ _ _ _
                     (tensor_of [[3; 3]]%Q true)
                     (tensor_of [[11 # 2; 5]]%Q true) (batch [[1; 1]]%Q) 1
                     _ _ _ _) _);
      first [reflexivity | qc_eq].
  - refine (proj2 (proj1 (proj2 (proj2 (proj2 C5_subtract_policy))) _ _
                     (tensor_of [[3; 3]]%Q true)
                     (tensor_of [[11 # 2; 5]]%Q true) (batch [[0; 0]]%Q) 1
                     _ _ _ _) _);
      first [reflexivity | qc_eq].
Defined.

(** C1, as stated, fails in the explicit-state form.  An explicit-state
    RSynaptic neuron with [reset_mechanism="zero"] is stepped from a membrane
    of 2 above the threshold 1, so the reset indicator is 1: the membrane is
    zeroed, the synaptic current comes back as its base 5/2. *)
Lemma C1_explicit_keeps_synaptic_current :
  exists self' spk' syn' mem',
    RSynaptic.forward (batch [[1]]%Q) (Tensor (batch [[1]]%Q))
      (Tensor (batch [[1]]%Q)) (Tensor (batch [[2]]%Q))
      (synaptic false zero false)
    = (self', Ok (RSynaptic.SpkSynMem spk' syn' mem'))
    /\ RSynaptic.reset self' = Some (batch [[1]]%Q)
    /\ data mem' = [[0]]
    /\ data syn' = [[q 5 2]]
    /\ data syn' <> [[0]].
Proof.
  eexists _, _, _, _. split; [vm_compute; reflexivity|].
  repeat split; try qc_eq.
  intro H.
  apply (f_equal (fun rows => match rows with
                              | [[x]] => this x
                              | _ => 0%Q
                              end)) in H.
  vm_compute in H. discriminate H.
Qed.

(** C1, amended: with [reset_mechanism="zero"] and a reset indicator of 1,
    the hidden-state form of RSynaptic zeroes both components, each by its
    own base; the explicit-state form zeroes the membrane and returns the
    synaptic current at its base. *)
Theorem C1_zero_policy_rsynaptic :
  (forall (self : RSynaptic.t) (input_ : tensor)
          (base_syn base_mem r : tensor),
     RSynaptic.reset_mechanism_val self = 1%Z ->
     RSynaptic.base_state_function_hidden self input_
       = Ok (base_syn, base_mem) ->
     RSynaptic.reset self = Some r ->
     data r = data (ones_like base_syn) ->
     data r = data (ones_like base_mem) ->
     exists s m,
       RSynaptic.build_state_function_hidden self input_ = Ok (s, m)
       /\ data s = map (map (fun b => b - 1 * b)) (data base_syn)
       /\ data s = data (zeros_like base_syn)
       /\ data m = map (map (fun b => b - 1 * b)) (data base_mem)
       /\ data m = data (zeros_like base_mem))
  /\
  (forall (self : RSynaptic.t) (input_ : tensor) (spk syn mem : pyval)
          (base_syn base_mem r : tensor),
     RSynaptic.reset_mechanism_val self = 1%Z ->
     RSynaptic.base_state_function self input_ spk syn mem
       = Ok (base_syn, base_mem) ->
     RSynaptic.reset self = Some r ->
     data r = data (ones_like base_syn) ->
     data r = data (ones_like base_mem) ->
     exists s m,
       RSynaptic.build_state_function self input_ spk syn mem = Ok (s, m)
       /\ data s = data base_syn
       /\ data m = map (map (fun b => b - 1 * b)) (data base_mem)
       /\ data m = data (zeros_like base_mem)).
Proof.
  assert (Hz : forall rows : list (list Qc),
            map (map (fun b => b - 1 * b)) rows = map (map (fun _ => 0)) rows)
    by (intros; apply map_ext2; intro; ring).
  split.
  - intros self input_ bs bm r Hval Hbase Hreset Hrs Hrm.
    destruct (@syn_zero_hidden self input_ bs bm r 1 Hval Hbase Hreset Hrs Hrm)
      as (s & m & Hb & Hs & Hm).
    exists s, m. rewrite Hs, Hm. repeat split; try assumption; apply Hz.
  - intros self input_ spk syn mem bs bm r Hval Hbase Hreset Hrs Hrm.
    destruct (@syn_zero_explicit self input_ spk syn mem bs bm r 1
                Hval Hbase Hreset Hrs Hrm) as (s & m & Hb & Hs & Hm).
    exists s, m. rewrite Hm. repeat split; try assumption; apply Hz.
Qed.

(** The zero policy at a reset indicator of 1, bases 3 and 11/2 and 5: the
    hidden-state form returns zeros for both components, the explicit-state
    form returns the synaptic base and a zero membrane. *)
Lemma C1_zero_policy_rsynaptic_witness :
  (exists s m,
     RSynaptic.build_state_function_hidden
       (RSynaptic.set_reset (batch [[1; 1]]%Q)
          (synaptic_holding zero (batch [[1; 0]]%Q) (batch [[2; 2]]%Q)
             (batch [[5; 4]]%Q)))
       (batch [[1; 2]]%Q) = Ok (s, m)
     /\ data s = map (map (fun b => b - 1 * b))
                   (data (tensor_of [[3; 3]]%Q true))
     /\ data s = data (zeros_like (tensor_of [[3; 3]]%Q true))
     /\ data m = map (map (fun b => b - 1 * b))
                   (data (tensor_of [[11 # 2; 5]]%Q true))
     /\ data m = data (zeros_like (tensor_of [[11 # 2; 5]]%Q true)))
  /\
  (exists s m,
     RSynaptic.build_state_function
       (RSynaptic.set_reset (batch [[1; 1]]%Q) (synaptic false zero false))
       (batch [[1; 2]]%Q) (Tensor (batch [[1; 0]]%Q)) (Tensor (batch [[2; 2]]%Q))
       (Tensor (batch [[5; 4]]%Q)) = Ok (s, m)
     /\ data s = data (tensor_of [[3; 3]]%Q true)
     /\ data m = map (map (fun b => b - 1 * b))
                   (data (tensor_of [[11 # 2; 5]]%Q true))
     /\ data m = data (zeros_like (tensor_of [[11 # 2; 5]]%Q true))).
Proof.
  split.
  - refine (proj1 C1_zero_policy_rsynaptic _ _
              (tensor_of [[3; 3]]%Q true) (tensor_of [[11 # 2; 5]]%Q true)
              (batch [[1; 1]]%Q) _ _ _ _ _);
      first [reflexivity | qc_eq].
  - refine (proj2 C1_zero_policy_rsynaptic _ _ _ _ _
              (tensor_of [[3; 3]]%Q true) (tensor_of [[11 # 2; 5]]%Q true)
              (batch [[1; 1]]%Q) _ _ _ _ _);
      first [reflexivity | qc_eq].
Defined.

(** C2: an RLeaky neuron with [reset_mechanism="zero"] is to return the base
    minus the reset indicator times the base, a zero membrane when the reset
    indicator is 1.  The explicit-state form does not: on a call with
    well-formed states (here a membrane of 2 above the threshold 1) it raises
    a [TypeError].  The hidden-state form on the same states returns the zero
    membrane. *)
Theorem C2_explicit_zero_reset_raises :
  (exists msg,
     snd (RLeaky.forward (batch [[1]]%Q) (Tensor (batch [[0]]%Q))
            (Tensor (batch [[2]]%Q)) (leaky false zero false))
     = Raise (TypeError msg))
  /\
  exists self' spk' mem',
    RLeaky.forward (batch [[1]]%Q) PFalse PFalse
      (leaky_holding zero (batch [[0]]%Q) (batch [[2]]%Q))
    = (self', Ok (RLeaky.SpkMem spk' mem'))
    /\ RLeaky.reset self' = Some (batch [[1]]%Q)
    /\ data mem' = [[0]].
Proof.
  split; [eexists; vm_compute; reflexivity|].
  eexists _, _, _. split; [vm_compute; reflexivity|].
  split; qc_eq.
Qed.

(** C4, as stated, fails at its first step: the membrane reaches the
    threshold 1 without exceeding it, and no spike is emitted. *)
Lemma C4_first_step_does_not_spike :
  exists self' spk' mem',
    RLeaky.forward (batch [[1]]%Q) (Tensor (batch [[0]]%Q))
      (Tensor (batch [[0]]%Q)) (leaky false subtract false)
    = (self', Ok (RLeaky.SpkMem spk' mem'))
    /\ data mem' = [[1]]
    /\ data spk' = [[0]]
    /\ data spk' <> [[1]].
Proof.
  eexists _, _, _. split; [vm_compute; reflexivity|].
  repeat split; try qc_eq.
  intro H.
  apply (f_equal (fun rows => match rows with
                              | [[x]] => this x
                              | _ => 0%Q
                              end)) in H.
  vm_compute in H. discriminate H.
Qed.

(** C4, amended: an RLeaky neuron with beta 0.5, V 1, threshold 1 and reset
    by subtraction, stepped in the explicit-state form over the inputs 1, 1, 1
    from spike 0 and membrane 0, gives: step 1 base 1, reset 0, membrane 1,
    spike 0; step 2 base 3/2, reset 0, membrane 3/2, spike 1; step 3 base
    11/4, reset 1, membrane 7/4, spike 1.  Spike and reset are triggered when
    the membrane exceeds the threshold. *)
Theorem C4_scenario_trace :
  rleaky_run (leaky false subtract false)
    [batch [[1]]%Q; batch [[1]]%Q; batch [[1]]%Q]
    (Tensor (batch [[0]]%Q)) (Tensor (batch [[0]]%Q))
  = Ok [ ([[q 1 1]], [[q 0 1]], [[q 1 1]], [[q 0 1]]);
         ([[q 3 2]], [[q 0 1]], [[q 3 2]], [[q 1 1]]);
         ([[q 11 4]], [[q 1 1]], [[q 7 4]], [[q 1 1]]) ].
Proof. qc_eq. Qed.

(** ** The class methods and the stored spike *)

Lemma for_each_layer_spk (body : method instance unit) (instances : list instance) :
  (forall i, spk_of (fst (body i)) = spk_of i) ->
  map spk_of (fst (for_each_layer body instances)) = map spk_of instances.
Proof.
  intro Hbody. induction instances as [|layer rest IH]; simpl; [reflexivity|].
  specialize (Hbody layer).
  destruct (body layer) as [layer' [u|e]]; simpl in Hbody.
  - destruct (for_each_layer body rest) as [rest' r]. simpl in *. congruence.
  - simpl. congruence.
Qed.

Lemma rleaky_detach_layer_spk (layer : RLeaky.t) :
  RLeaky.spk (fst (RLeakyClass.detach_layer layer)) = RLeaky.spk layer.
Proof.
  unfold RLeakyClass.detach_layer, mbind, getattr, lift, assign.
  destruct (RLeaky.mem layer) as [v|]; [|reflexivity].
  destruct (py_detach_ v); reflexivity.
Qed.

Lemma rsynaptic_detach_layer_spk (layer : RSynaptic.t) :
  RSynaptic.spk (fst (RSynapticClass.detach_layer layer)) = RSynaptic.spk layer.
Proof.
  unfold RSynapticClass.detach_layer, mbind, getattr, lift, assign.
  destruct (RSynaptic.syn layer) as [v|]; [|reflexivity].
  destruct (py_detach_ v); [|reflexivity]. simpl.
  destruct (RSynaptic.mem layer) as [w|]; [|reflexivity].
  destruct (py_detach_ w); reflexivity.
Qed.

(** Two instances on which the opening [if]/[elif] of [forward] agrees step
    alike. *)
Lemma rleaky_forward_first_pass (a b : RLeaky.t) (input_ : tensor)
    (spk mem : pyval) :
  RLeaky.first_pass input_ spk mem a = RLeaky.first_pass input_ spk mem b ->
  RLeaky.forward input_ spk mem a = RLeaky.forward input_ spk mem b.
Proof. intro H. unfold RLeaky.forward, mbind. now rewrite H. Qed.

Lemma rsynaptic_forward_first_pass (a b : RSynaptic.t) (input_ : tensor)
    (spk syn mem : pyval) :
  RSynaptic.first_pass input_ spk syn mem a
  = RSynaptic.first_pass input_ spk syn mem b ->
  RSynaptic.forward input_ spk syn mem a = RSynaptic.forward input_ spk syn mem b.
Proof. intro H. unfold RSynaptic.forward, mbind. now rewrite H. Qed.

(** ** The usage error of the hidden-state form *)

Lemma rleaky_cases_raise (spk mem : pyval) :
  spk <> PFalse \/ mem <> PFalse ->
  RLeaky._rleaky_forward_cases spk mem
  = Raise (TypeError "When `init_hidden=True`, RLeaky expects 1 input argument.").
Proof.
  unfold RLeaky._rleaky_forward_cases.
  destruct spk, mem; simpl; try reflexivity. intros [H|H]; congruence.
Qed.

Lemma rsynaptic_cases_raise (spk mem syn : pyval) :
  spk <> PFalse \/ syn <> PFalse \/ mem <> PFalse ->
  RSynaptic._rsynaptic_forward_cases spk mem syn
  = Raise (TypeError
      "When `init_hidden=True`, RSynaptic expects 1 input argument.").
Proof.
  unfold RSynaptic._rsynaptic_forward_cases.
  destruct spk, mem, syn; simpl; try reflexivity. intros [H|[H|H]]; congruence.
Qed.

Lemma received_not_False (input_ : tensor) (args : list pyval) (v : pyval) :
  v <> PFalse -> received input_ args v <> PFalse.
Proof.
  unfold received, zero_state. destruct (any_marker args); congruence.
Qed.

(** C7, as stated, fails in two ways on a neuron not stepped yet.  A fresh
    hidden-state RLeaky neuron called with an explicit spike raises the usage
    error, and by then the stored spike and membrane have gone from the
    marker to zero tensors shaped like this input.  Called with a spike that
    bears the marker beside [mem] left at [False], it raises the
    [AttributeError] of the lazy initialisation and not the usage error. *)
Lemma C7_state_initialised_before_error :
  (exists self',
     RLeaky.forward (batch [[1; 2]]%Q) (Tensor (batch [[0; 0]]%Q)) PFalse
       (leaky true subtract false)
     = (self',
        Raise (TypeError
          "When `init_hidden=True`, RLeaky expects 1 input argument."))
     /\ RLeaky.mem (leaky true subtract false) = Some SpikeTensor
     /\ RLeaky.spk (leaky true subtract false) = Some SpikeTensor
     /\ RLeaky.mem self' = Some (Tensor (tensor_of [[0; 0]]%Q true))
     /\ RLeaky.spk self' = Some (Tensor (tensor_of [[0; 0]]%Q true)))
  /\
  RLeaky.forward (batch [[1; 2]]%Q) SpikeTensor PFalse
    (leaky true subtract false)
  = (leaky true subtract false, Raise (AttributeError "to")).
Proof.
  split; [|vm_compute; reflexivity].
  eexists. split; [vm_compute; reflexivity|]. repeat split; qc_eq.
Qed.

(** C7, amended: a hidden-state neuron holding its states, called with a
    state argument that is not the default, raises the usage error naming the
    call pattern, before the reset indicator, the membrane (and the synaptic
    current) and the spike are recomputed, unless an argument bearing the
    marker is passed beside one left at [False]: then the lazy
    initialisation raises [AttributeError] and the instance is as it was.
    With the usage error the instance is left as it was, except that, when
    no argument bears the marker and [mem] is left at its default, stored
    states whose membrane still bears the marker have been zero-initialised
    for this input; an initialised stored state and the reset indicator are
    not touched. *)
Theorem C7_usage_error :
  (forall (self : RLeaky.t) (input_ : tensor) (spk mem s m : pyval),
     RLeaky.init_hidden self = true ->
     RLeaky.spk self = Some s -> RLeaky.mem self = Some m ->
     is_False s = false ->
     spk <> PFalse \/ mem <> PFalse ->
     marker_beside_False [spk; mem] = false ->
     RLeaky.forward input_ spk mem self
     = (if negb (any_marker [spk; mem]) && is_False mem
        then rleaky_lazy_init input_ self else self,
        Raise (TypeError
          "When `init_hidden=True`, RLeaky expects 1 input argument."))
     /\ RLeaky.reset (rleaky_lazy_init input_ self) = RLeaky.reset self
     /\ (hasattr_init_flag m = false -> rleaky_lazy_init input_ self = self))
  /\
  (forall (self : RLeaky.t) (input_ : tensor) (spk mem : pyval),
     marker_beside_False [spk; mem] = true ->
     RLeaky.forward input_ spk mem self
     = (self, Raise (AttributeError "to")))
  /\
  (forall (self : RSynaptic.t) (input_ : tensor) (spk syn mem s y m : pyval),
     RSynaptic.init_hidden self = true ->
     RSynaptic.spk self = Some s -> RSynaptic.syn self = Some y ->
     RSynaptic.mem self = Some m ->
     is_False s = false -> is_False y = false ->
     spk <> PFalse \/ syn <> PFalse \/ mem <> PFalse ->
     marker_beside_False [spk; syn; mem] = false ->
     RSynaptic.forward input_ spk syn mem self
     = (if negb (any_marker [spk; syn; mem]) && is_False mem
        then rsynaptic_lazy_init input_ self else self,
        Raise (TypeError
          "When `init_hidden=True`, RSynaptic expects 1 input argument."))
     /\ RSynaptic.reset (rsynaptic_lazy_init input_ self) = RSynaptic.reset self
     /\ (hasattr_init_flag m = false -> rsynaptic_lazy_init input_ self = self))
  /\
  (forall (self : RSynaptic.t) (input_ : tensor) (spk syn mem : pyval),
     marker_beside_False [spk; syn; mem] = true ->
     RSynaptic.forward input_ spk syn mem self
     = (self, Raise (AttributeError "to"))).
Proof.
  repeat apply conj.
  - intros self input_ spk mem s m Hh Hs Hm Fs Hargs Hmix.
    destruct (rleaky_lazy_init_frame input_ self)
      as (_ & _ & _ & Hi & _ & _ & _ & Hres).
    simpl in Hi, Hres. split; [|split].
    + unfold RLeaky.forward. unfold mbind at 1.
      rewrite (@first_pass_total self input_ spk mem s m Hs Hm Hmix Fs).
      set (s1 := if negb (any_marker [spk; mem]) && is_False mem
                 then rleaky_lazy_init input_ self else self).
      assert (Hi1 : RLeaky.init_hidden s1 = true)
        by (unfold s1; destruct (negb _ && _); congruence).
      unfold mbind at 1, self_. rewrite Hi1. simpl.
      unfold mbind at 1, lift. rewrite rleaky_cases_raise; [reflexivity|].
      destruct Hargs as [H|H]; [left|right];
        now apply received_not_False.
    + exact Hres.
    + intro Hflag. unfold rleaky_lazy_init. now rewrite Hs, Hm, Hflag.
  - intros self input_ spk mem Hmix. unfold RLeaky.forward, mbind.
    now rewrite (@first_pass_marker_beside_False self input_ spk mem Hmix).
  - intros self input_ spk syn mem s y m Hh Hs Hy Hm Fs Fy Hargs Hmix.
    destruct (rsynaptic_lazy_init_frame input_ self)
      as (_ & _ & _ & _ & Hi & _ & _ & _ & Hres).
    simpl in Hi, Hres. split; [|split].
    + unfold RSynaptic.forward. unfold mbind at 1.
      rewrite (@syn_first_pass_total self input_ spk syn mem s y m
                 Hs Hy Hm Hmix Fs Fy).
      set (s1 := if negb (any_marker [spk; syn; mem]) && is_False mem
                 then rsynaptic_lazy_init input_ self else self).
      assert (Hi1 : RSynaptic.init_hidden s1 = true)
        by (unfold s1; destruct (negb _ && _); congruence).
      unfold mbind at 1, self_. rewrite Hi1. simpl.
      unfold mbind at 1, lift. rewrite rsynaptic_cases_raise; [reflexivity|].
      destruct Hargs as [H|[H|H]]; [left|right; left|right; right];
        now apply received_not_False.
    + exact Hres.
    + intro Hflag. unfold rsynaptic_lazy_init. now rewrite Hs, Hy, Hm, Hflag.
  - intros self input_ spk syn mem Hmix. unfold RSynaptic.forward, mbind.
    now rewrite (@syn_first_pass_marker_beside_False self input_ spk syn mem
                   Hmix).
Qed.

(** The usage error on three neurons: a fresh RLeaky neuron called with a
    spike is zero-initialised and raises; an RLeaky neuron and an RSynaptic
    neuron holding their states raise and are left as they were.  A marker
    passed beside a default raises in the lazy initialisation. *)
Lemma C7_usage_error_witness :
  (RLeaky.forward (batch [[1; 2]]%Q) (Tensor (batch [[0; 0]]%Q)) PFalse
     (leaky true subtract false)
   = (rleaky_lazy_init (batch [[1; 2]]%Q) (leaky true subtract false),
      Raise (TypeError
        "When `init_hidden=True`, RLeaky expects 1 input argument."))
   /\ RLeaky.reset
        (rleaky_lazy_init (batch [[1; 2]]%Q) (leaky true subtract false))
      = RLeaky.reset (leaky true subtract false)
   /\ (hasattr_init_flag SpikeTensor = false ->
       rleaky_lazy_init (batch [[1; 2]]%Q) (leaky true subtract false)
       = leaky true subtract false))
  /\
  (RLeaky.forward (batch [[1; 2]]%Q) PFalse (Tensor (batch [[0; 0]]%Q))
     (leaky_holding subtract (batch [[1; 0]]%Q) (batch [[5; 4]]%Q))
   = (leaky_holding subtract (batch [[1; 0]]%Q) (batch [[5; 4]]%Q),
      Raise (TypeError
        "When `init_hidden=True`, RLeaky expects 1 input argument."))
   /\ RLeaky.reset
        (rleaky_lazy_init (batch [[1; 2]]%Q)
           (leaky_holding subtract (batch [[1; 0]]%Q) (batch [[5; 4]]%Q)))
      = RLeaky.reset
          (leaky_holding subtract (batch [[1; 0]]%Q) (batch [[5; 4]]%Q))
   /\ (hasattr_init_flag (Tensor (batch [[5; 4]]%Q)) = false ->
       rleaky_lazy_init (batch [[1; 2]]%Q)
         (leaky_holding subtract (batch [[1; 0]]%Q) (batch [[5; 4]]%Q))
       = leaky_holding subtract (batch [[1; 0]]%Q) (batch [[5; 4]]%Q)))
  /\
  (RSynaptic.forward (batch [[1; 2]]%Q) PFalse (Tensor (batch [[0; 0]]%Q))
     PFalse
     (synaptic_holding subtract (batch [[1; 0]]%Q) (batch [[2; 2]]%Q)
        (batch [[5; 4]]%Q))
   = (rsynaptic_lazy_init (batch [[1; 2]]%Q)
        (synaptic_holding subtract (batch [[1; 0]]%Q) (batch [[2; 2]]%Q)
           (batch [[5; 4]]%Q)),
      Raise (TypeError
        "When `init_hidden=True`, RSynaptic expects 1 input argument."))
   /\ RSynaptic.reset
        (rsynaptic_lazy_init (batch [[1; 2]]%Q)
           (synaptic_holding subtract (batch [[1; 0]]%Q) (batch [[2; 2]]%Q)
              (batch [[5; 4]]%Q)))
      = RSynaptic.reset
          (synaptic_holding subtract (batch [[1; 0]]%Q) (batch [[2; 2]]%Q)
             (batch [[5; 4]]%Q))
   /\ (hasattr_init_flag (Tensor (batch [[5; 4]]%Q)) = false ->
       rsynaptic_lazy_init (batch [[1; 2]]%Q)
         (synaptic_holding subtract (batch [[1; 0]]%Q) (batch [[2; 2]]%Q)
            (batch [[5; 4]]%Q))
       = synaptic_holding subtract (batch [[1; 0]]%Q) (batch [[2; 2]]%Q)
           (batch [[5; 4]]%Q)))
  /\
  RSynaptic.forward (batch [[1; 2]]%Q) PFalse SpikeTensor PFalse
    (synaptic true subtract false)
  = (synaptic true subtract false, Raise (AttributeError "to")).
Proof.
  split; [|split; [|split]].
  - apply (proj1 C7_usage_error (leaky true subtract false)
             (batch [[1; 2]]%Q) (Tensor (batch [[0; 0]]%Q)) PFalse
             SpikeTensor SpikeTensor);
      first [reflexivity | left; discriminate].
  - apply (proj1 C7_usage_error
             (leaky_holding subtract (batch [[1; 0]]%Q) (batch [[5; 4]]%Q))
             (batch [[1; 2]]%Q) PFalse (Tensor (batch [[0; 0]]%Q))
             (Tensor (batch [[1; 0]]%Q)) (Tensor (batch [[5; 4]]%Q)));
      first [reflexivity | right; discriminate].
  - apply (proj1 (proj2 (proj2 C7_usage_error))
             (synaptic_holding subtract (batch [[1; 0]]%Q) (batch [[2; 2]]%Q)
                (batch [[5; 4]]%Q))
             (batch [[1; 2]]%Q) PFalse (Tensor (batch [[0; 0]]%Q)) PFalse
             (Tensor (batch [[1; 0]]%Q)) (Tensor (batch [[2; 2]]%Q))
             (Tensor (batch [[5; 4]]%Q)));
      first [reflexivity | right; left; discriminate].
  - apply (proj2 (proj2 (proj2 C7_usage_error))). reflexivity.
Defined.

(** ** The decay rates *)

Lemma Qc_0_le_1 : 0 <= 1.
Proof. unfold Qcle. simpl. discriminate. Qed.

Lemma clamp_idempotent (t : tensor) : clamp 0 1 (clamp 0 1 t) = clamp 0 1 t.
Proof.
  unfold clamp, tmap. simpl. f_equal. rewrite map_map2.
  apply map_ext2. intro x. apply clamp1_idempotent, Qc_0_le_1.
Qed.

Lemma clamp_bounds (t : tensor) :
  all_entries (fun x => 0 <= x <= 1) (clamp 0 1 t).
Proof.
  unfold all_entries, clamp, tmap. simpl.
  apply Forall_forall. intros row Hrow. apply in_map_iff in Hrow.
  destruct Hrow as (row0 & <- & _).
  apply Forall_forall. intros x Hx. apply in_map_iff in Hx.
  destruct Hx as (x0 & <- & _). apply clamp1_bounds, Qc_0_le_1.
Qed.

Lemma rleaky_state_function_clamped (b V thr : tensor) (ih inh : bool) (val : Z)
    (out : bool) (s m : option pyval) (r : option tensor) (input_ : tensor)
    (spk mem : pyval) :
  RLeaky.build_state_function
    (RLeaky.mk (clamp 0 1 b) V thr ih inh val out s m r) input_ spk mem
  = RLeaky.build_state_function
      (RLeaky.mk b V thr ih inh val out s m r) input_ spk mem.
Proof.
  unfold RLeaky.build_state_function, RLeaky.base_state_function. simpl.
  now rewrite clamp_idempotent.
Qed.

Lemma rleaky_state_function_hidden_clamped (b V thr : tensor) (ih inh : bool)
    (val : Z) (out : bool) (s m : option pyval) (r : option tensor)
    (input_ : tensor) :
  RLeaky.build_state_function_hidden
    (RLeaky.mk (clamp 0 1 b) V thr ih inh val out s m r) input_
  = RLeaky.build_state_function_hidden
      (RLeaky.mk b V thr ih inh val out s m r) input_.
Proof.
  unfold RLeaky.build_state_function_hidden, RLeaky.base_state_function_hidden.
  simpl. now rewrite clamp_idempotent.
Qed.

(** Evaluation of the steps of a method. *)
Lemma mbind_self {S B} (k : S -> method S B) (s : S) :
  mbind self_ k s = k s s.
Proof. reflexivity. Qed.

Lemma mbind_lift {S A B} (r : result A) (k : A -> method S B) (s : S) :
  mbind (lift r) k s
  = match r with Ok a => k a s | Raise e => (s, Raise e) end.
Proof. reflexivity. Qed.

Lemma mbind_assign {S B} (upd : S -> S) (k : unit -> method S B) (s : S) :
  mbind (assign upd) k s = k tt (upd s).
Proof. reflexivity. Qed.

Lemma mbind_getattr {S A B} (name : string) (proj : S -> option A)
    (k : A -> method S B) (s : S) :
  mbind (getattr name proj) k s
  = match proj s with
    | Some v => k v s
    | None => (s, Raise (AttributeError name))
    end.
Proof. unfold mbind, getattr. now destruct (proj s). Qed.

Lemma mbind_mret {S A B} (a : A) (k : A -> method S B) (s : S) :
  mbind (mret a) k s = k a s.
Proof. reflexivity. Qed.

Lemma mbind_mbind {S A B C} (m : method S A) (k : A -> method S B)
    (h : B -> method S C) (s : S) :
  mbind (mbind m k) h s = mbind m (fun a => mbind (k a) h) s.
Proof. unfold mbind. destruct (m s) as [s1 [a|e]]; reflexivity. Qed.

(** Runs a call step by step, splitting on every test it meets. *)
Ltac run_call normalise :=
  repeat first
    [ rewrite mbind_self
    | rewrite mbind_lift
    | rewrite mbind_assign
    | rewrite mbind_getattr
    | rewrite mbind_mret
    | rewrite mbind_mbind
    | progress normalise
    | progress (cbn beta iota)
    | match goal with
      | |- context [match ?x with _ => _ end] => destruct x eqn:?
      end ].

Lemma rleaky_forward_clamped (self : RLeaky.t) (input_ : tensor)
    (spk mem : pyval) :
  RLeaky.forward input_ spk mem
    (rleaky_with_beta (clamp 0 1 (RLeaky.beta self)) self)
  = (rleaky_with_beta (clamp 0 1 (RLeaky.beta self))
       (fst (RLeaky.forward input_ spk mem self)),
     snd (RLeaky.forward input_ spk mem self)).
Proof.
  destruct self as [b V thr ih inh val out s m r].
  unfold rleaky_with_beta, RLeaky.forward, RLeaky.first_pass,
    RLeaky.set_reset, RLeaky.set_mem, RLeaky.set_spk, RLeaky.spike.
  cbn [RLeaky.beta RLeaky.V RLeaky.threshold RLeaky.init_hidden
       RLeaky.inhibition RLeaky.reset_mechanism_val RLeaky.output
       RLeaky.spk RLeaky.mem RLeaky.reset].
  run_call ltac:(rewrite ?rleaky_state_function_clamped,
                   ?rleaky_state_function_hidden_clamped;
                 cbn [RLeaky.beta RLeaky.V RLeaky.threshold RLeaky.init_hidden
                      RLeaky.inhibition RLeaky.reset_mechanism_val
                      RLeaky.output RLeaky.spk RLeaky.mem RLeaky.reset
                      fst snd]);
    try reflexivity.
Qed.

Lemma rleaky_forward_keeps_params (self : RLeaky.t) (input_ : tensor)
    (spk mem : pyval) :
  RLeaky.beta (fst (RLeaky.forward input_ spk mem self)) = RLeaky.beta self
  /\ RLeaky.V (fst (RLeaky.forward input_ spk mem self)) = RLeaky.V self
  /\ RLeaky.threshold (fst (RLeaky.forward input_ spk mem self))
     = RLeaky.threshold self.
Proof.
  destruct self as [b V thr ih inh val out s m r].
  unfold RLeaky.forward, RLeaky.first_pass,
    RLeaky.set_reset, RLeaky.set_mem, RLeaky.set_spk, RLeaky.spike.
  cbn [RLeaky.beta RLeaky.V RLeaky.threshold RLeaky.init_hidden
       RLeaky.inhibition RLeaky.reset_mechanism_val RLeaky.output
       RLeaky.spk RLeaky.mem RLeaky.reset].
  run_call ltac:(cbn [RLeaky.beta RLeaky.V RLeaky.threshold RLeaky.init_hidden
                      RLeaky.inhibition RLeaky.reset_mechanism_val
                      RLeaky.output RLeaky.spk RLeaky.mem RLeaky.reset
                      fst snd]);
    repeat split.
Qed.

Lemma rsynaptic_state_function_clamped (a b V thr : tensor) (ih inh : bool)
    (val : Z) (out : bool) (s y m : option pyval) (r : option tensor)
    (input_ : tensor) (spk syn mem : pyval) :
  RSynaptic.build_state_function
    (RSynaptic.mk (clamp 0 1 a) (clamp 0 1 b) V thr ih inh val out s y m r)
    input_ spk syn mem
  = RSynaptic.build_state_function
      (RSynaptic.mk a b V thr ih inh val out s y m r) input_ spk syn mem.
Proof.
  unfold RSynaptic.build_state_function, RSynaptic.base_state_function,
    RSynaptic.base_state_reset_zero.
  simpl. now rewrite !clamp_idempotent.
Qed.

Lemma rsynaptic_state_function_hidden_clamped (a b V thr : tensor)
    (ih inh : bool) (val : Z) (out : bool) (s y m : option pyval)
    (r : option tensor) (input_ : tensor) :
  RSynaptic.build_state_function_hidden
    (RSynaptic.mk (clamp 0 1 a) (clamp 0 1 b) V thr ih inh val out s y m r)
    input_
  = RSynaptic.build_state_function_hidden
      (RSynaptic.mk a b V thr ih inh val out s y m r) input_.
Proof.
  unfold RSynaptic.build_state_function_hidden,
    RSynaptic.base_state_function_hidden.
  simpl. now rewrite !clamp_idempotent.
Qed.

Lemma rsynaptic_forward_clamped (self : RSynaptic.t) (input_ : tensor)
    (spk syn mem : pyval) :
  RSynaptic.forward input_ spk syn mem
    (rsynaptic_with_rates (clamp 0 1 (RSynaptic.alpha self))
       (clamp 0 1 (RSynaptic.beta self)) self)
  = (rsynaptic_with_rates (clamp 0 1 (RSynaptic.alpha self))
       (clamp 0 1 (RSynaptic.beta self))
       (fst (RSynaptic.forward input_ spk syn mem self)),
     snd (RSynaptic.forward input_ spk syn mem self)).
Proof.
  destruct self as [a b V thr ih inh val out s y m r].
  unfold rsynaptic_with_rates, RSynaptic.forward, RSynaptic.first_pass,
    RSynaptic.set_reset, RSynaptic.set_mem, RSynaptic.set_syn,
    RSynaptic.set_spk, RSynaptic.spike.
  cbn [RSynaptic.alpha RSynaptic.beta RSynaptic.V RSynaptic.threshold
       RSynaptic.init_hidden RSynaptic.inhibition
       RSynaptic.reset_mechanism_val RSynaptic.output RSynaptic.spk
       RSynaptic.syn RSynaptic.mem RSynaptic.reset].
  run_call ltac:(rewrite ?rsynaptic_state_function_clamped,
                   ?rsynaptic_state_function_hidden_clamped;
                 cbn [RSynaptic.alpha RSynaptic.beta RSynaptic.V
                      RSynaptic.threshold RSynaptic.init_hidden
                      RSynaptic.inhibition RSynaptic.reset_mechanism_val
                      RSynaptic.output RSynaptic.spk RSynaptic.syn
                      RSynaptic.mem RSynaptic.reset fst snd]);
    try reflexivity.
Qed.

Lemma rsynaptic_forward_keeps_params (self : RSynaptic.t) (input_ : tensor)
    (spk syn mem : pyval) :
  RSynaptic.alpha (fst (RSynaptic.forward input_ spk syn mem self))
  = RSynaptic.alpha self
  /\ RSynaptic.beta (fst (RSynaptic.forward input_ spk syn mem self))
     = RSynaptic.beta self
  /\ RSynaptic.V (fst (RSynaptic.forward input_ spk syn mem self))
     = RSynaptic.V self
  /\ RSynaptic.threshold (fst (RSynaptic.forward input_ spk syn mem self))
     = RSynaptic.threshold self.
Proof.
  destruct self as [a b V thr ih inh val out s y m r].
  unfold RSynaptic.forward, RSynaptic.first_pass,
    RSynaptic.set_reset, RSynaptic.set_mem, RSynaptic.set_syn,
    RSynaptic.set_spk, RSynaptic.spike.
  cbn [RSynaptic.alpha RSynaptic.beta RSynaptic.V RSynaptic.threshold
       RSynaptic.init_hidden RSynaptic.inhibition
       RSynaptic.reset_mechanism_val RSynaptic.output RSynaptic.spk
       RSynaptic.syn RSynaptic.mem RSynaptic.reset].
  run_call ltac:(cbn [RSynaptic.alpha RSynaptic.beta RSynaptic.V
                      RSynaptic.threshold RSynaptic.init_hidden
                      RSynaptic.inhibition RSynaptic.reset_mechanism_val
                      RSynaptic.output RSynaptic.spk RSynaptic.syn
                      RSynaptic.mem RSynaptic.reset fst snd]);
    repeat split.
Qed.

(** C6: in every call of [forward] that returns, of RLeaky and of RSynaptic,
    in the explicit-state and in the hidden-state form, the reset indicator
    kept by the instance is [mem_reset] of the membrane the call received
    (the argument, zeroed with the other arguments when one of them bore the
    marker, or the stored membrane, zero-initialised when it bore the
    marker), and the new membrane is the state function evaluated with that
    reset indicator. *)
Theorem C6_reset_from_received_membrane :
  (forall (self self' : RLeaky.t) (input_ : tensor) (spk mem : pyval)
          (out : RLeaky.returned),
     RLeaky.init_hidden self = false ->
     RLeaky.forward input_ spk mem self = (self', Ok out) ->
     exists r m s,
       mem_reset (RLeaky.threshold self)
         (as_tensor (received input_ [spk; mem] mem)) = Ok r
       /\ RLeaky.reset self' = Some r
       /\ RLeaky.build_state_function (RLeaky.set_reset r self) input_
            (received input_ [spk; mem] spk) (received input_ [spk; mem] mem)
          = Ok m
       /\ out = RLeaky.SpkMem s m)
  /\
  (forall (self self' : RLeaky.t) (input_ : tensor) (spk mem : pyval)
          (out : RLeaky.returned),
     RLeaky.init_hidden self = true ->
     RLeaky.forward input_ spk mem self = (self', Ok out) ->
     exists stored r m,
       RLeaky.mem (rleaky_lazy_init input_ self) = Some stored
       /\ mem_reset (RLeaky.threshold self) (as_tensor stored) = Ok r
       /\ RLeaky.reset self' = Some r
       /\ RLeaky.build_state_function_hidden
            (RLeaky.set_reset r (rleaky_lazy_init input_ self)) input_ = Ok m
       /\ RLeaky.mem self' = Some (Tensor m))
  /\
  (forall (self self' : RSynaptic.t) (input_ : tensor) (spk syn mem : pyval)
          (out : RSynaptic.returned),
     RSynaptic.init_hidden self = false ->
     RSynaptic.forward input_ spk syn mem self = (self', Ok out) ->
     exists r y m s,
       mem_reset (RSynaptic.threshold self)
         (as_tensor (received input_ [spk; syn; mem] mem)) = Ok r
       /\ RSynaptic.reset self' = Some r
       /\ RSynaptic.build_state_function (RSynaptic.set_reset r self) input_
            (received input_ [spk; syn; mem] spk)
            (received input_ [spk; syn; mem] syn)
            (received input_ [spk; syn; mem] mem) = Ok (y, m)
       /\ out = RSynaptic.SpkSynMem s y m)
  /\
  (forall (self self' : RSynaptic.t) (input_ : tensor) (spk syn mem : pyval)
          (out : RSynaptic.returned),
     RSynaptic.init_hidden self = true ->
     RSynaptic.forward input_ spk syn mem self = (self', Ok out) ->
     exists stored r y m,
       RSynaptic.mem (rsynaptic_lazy_init input_ self) = Some stored
       /\ mem_reset (RSynaptic.threshold self) (as_tensor stored) = Ok r
       /\ RSynaptic.reset self' = Some r
       /\ RSynaptic.build_state_function_hidden
            (RSynaptic.set_reset r (rsynaptic_lazy_init input_ self)) input_
          = Ok (y, m)
       /\ RSynaptic.mem self' = Some (Tensor m)).
Proof.
  repeat apply conj.
  - intros self self' input_ spk mem out Hh H.
    destruct (@forward_explicit self self' input_ spk mem out Hh H)
      as (r & m & s & H1 & H2 & H3 & _ & H5).
    exists r, m, s. auto.
  - intros self self' input_ spk mem out Hh H.
    destruct (@forward_hidden self self' input_ spk mem out Hh H)
      as (_ & _ & stored & r & m & s & H1 & H2 & H3 & _ & H5 & _).
    exists stored, r, m. subst self'. auto.
  - intros self self' input_ spk syn mem out Hh H.
    destruct (@syn_forward_explicit self self' input_ spk syn mem out Hh H)
      as (r & y & m & s & H1 & H2 & H3 & _ & H5).
    exists r, y, m, s. auto.
  - intros self self' input_ spk syn mem out Hh H.
    destruct (@syn_forward_hidden self self' input_ spk syn mem out Hh H)
      as (_ & _ & _ & stored & r & y & m & s & H1 & H2 & H3 & _ & H5 & _).
    exists stored, r, y, m. subst self'. auto.
Qed.

(** A membrane of 2, above the threshold 1, is stepped with no input under
    reset by subtraction: the reset indicator is 1, taken from the membrane
    received, and the new membrane is 1 - 1 = 0, whose own [mem_reset] would
    be 0. *)
Lemma C6_reset_from_received_membrane_witness :
  (exists self' out,
     RLeaky.forward (batch [[0]]%Q) (Tensor (batch [[0]]%Q))
       (Tensor (batch [[2]]%Q)) (leaky false subtract false) = (self', Ok out)
     /\ (exists r m s,
           mem_reset (RLeaky.threshold (leaky false subtract false))
             (as_tensor
                (received (batch [[0]]%Q)
                   [Tensor (batch [[0]]%Q); Tensor (batch [[2]]%Q)]
                   (Tensor (batch [[2]]%Q)))) = Ok r
           /\ RLeaky.reset self' = Some r
           /\ RLeaky.build_state_function
                (RLeaky.set_reset r (leaky false subtract false))
                (batch [[0]]%Q)
                (received (batch [[0]]%Q)
                   [Tensor (batch [[0]]%Q); Tensor (batch [[2]]%Q)]
                   (Tensor (batch [[0]]%Q)))
                (received (batch [[0]]%Q)
                   [Tensor (batch [[0]]%Q); Tensor (batch [[2]]%Q)]
                   (Tensor (batch [[2]]%Q)))
              = Ok m
           /\ out = RLeaky.SpkMem s m)
     /\ RLeaky.reset self' = Some (batch [[1]]%Q)
     /\ exists s m,
          out = RLeaky.SpkMem s m /\ data m = [[0]]
          /\ mem_reset (RLeaky.threshold (leaky false subtract false)) m
             = Ok (batch [[0]]%Q))
  /\
  (exists self' out,
     RLeaky.forward (batch [[0]]%Q) PFalse PFalse
       (leaky_holding subtract (batch [[0]]%Q) (batch [[2]]%Q))
     = (self', Ok out)
     /\ (exists stored r m,
           RLeaky.mem
             (rleaky_lazy_init (batch [[0]]%Q)
                (leaky_holding subtract (batch [[0]]%Q) (batch [[2]]%Q)))
           = Some stored
           /\ mem_reset
                (RLeaky.threshold
                   (leaky_holding subtract (batch [[0]]%Q) (batch [[2]]%Q)))
                (as_tensor stored) = Ok r
           /\ RLeaky.reset self' = Some r
           /\ RLeaky.build_state_function_hidden
                (RLeaky.set_reset r
                   (rleaky_lazy_init (batch [[0]]%Q)
                      (leaky_holding subtract (batch [[0]]%Q)
                         (batch [[2]]%Q))))
                (batch [[0]]%Q) = Ok m
           /\ RLeaky.mem self' = Some (Tensor m))
     /\ RLeaky.reset self' = Some (batch [[1]]%Q))
  /\
  (exists self' out,
     RSynaptic.forward (batch [[0]]%Q) (Tensor (batch [[0]]%Q))
       (Tensor (batch [[0]]%Q)) (Tensor (batch [[2]]%Q))
       (synaptic false subtract false) = (self', Ok out)
     /\ (exists r y m s,
           mem_reset (RSynaptic.threshold (synaptic false subtract false))
             (as_tensor
                (received (batch [[0]]%Q)
                   [Tensor (batch [[0]]%Q); Tensor (batch [[0]]%Q);
                    Tensor (batch [[2]]%Q)]
                   (Tensor (batch [[2]]%Q)))) = Ok r
           /\ RSynaptic.reset self' = Some r
           /\ RSynaptic.build_state_function
                (RSynaptic.set_reset r (synaptic false subtract false))
                (batch [[0]]%Q)
                (received (batch [[0]]%Q)
                   [Tensor (batch [[0]]%Q); Tensor (batch [[0]]%Q);
                    Tensor (batch [[2]]%Q)]
                   (Tensor (batch [[0]]%Q)))
                (received (batch [[0]]%Q)
                   [Tensor (batch [[0]]%Q); Tensor (batch [[0]]%Q);
                    Tensor (batch [[2]]%Q)]
                   (Tensor (batch [[0]]%Q)))
                (received (batch [[0]]%Q)
                   [Tensor (batch [[0]]%Q); Tensor (batch [[0]]%Q);
                    Tensor (batch [[2]]%Q)]
                   (Tensor (batch [[2]]%Q)))
              = Ok (y, m)
           /\ out = RSynaptic.SpkSynMem s y m)
     /\ RSynaptic.reset self' = Some (batch [[1]]%Q)).
Proof.
  split; [|split].
  - eexists _, _. split; [vm_compute; reflexivity|]. split; [|split].
    + eapply (proj1 C6_reset_from_received_membrane
                (leaky false subtract false));
        [reflexivity | vm_compute; reflexivity].
    + qc_eq.
    + eexists _, _. split; [reflexivity|]. split; qc_eq.
  - eexists _, _. split; [vm_compute; reflexivity|]. split.
    + eapply (proj1 (proj2 C6_reset_from_received_membrane)
               (leaky_holding subtract (batch [[0]]%Q) (batch [[2]]%Q))
               _ (batch [[0]]%Q) PFalse PFalse);
        [reflexivity | vm_compute; reflexivity].
    + qc_eq.
  - eexists _, _. split; [vm_compute; reflexivity|]. split.
    + eapply (proj1 (proj2 (proj2 C6_reset_from_received_membrane))
               (synaptic false subtract false));
        [reflexivity | vm_compute; reflexivity].
    + qc_eq.
Defined.

(** * Further properties of the two classes *)

(** ** Every call of [forward], returning or raising *)

Lemma rleaky_first_pass_given (self : RLeaky.t) (input_ : tensor)
    (spk mem : pyval) :
  is_False mem = false -> marker_beside_False [spk; mem] = false ->
  RLeaky.first_pass input_ spk mem self
  = (self, Ok (received input_ [spk; mem] spk, received input_ [spk; mem] mem)).
Proof.
  intros Hmem Hmix. unfold RLeaky.first_pass, received, lift.
  rewrite convert_two.
  destruct spk, mem; try discriminate Hmem; try discriminate Hmix;
    reflexivity.
Qed.

(** A marker passed beside a [False] stops the call in its lazy
    initialisation. *)
Lemma rleaky_forward_marker_beside_False (self : RLeaky.t) (input_ : tensor)
    (spk mem : pyval) :
  marker_beside_False [spk; mem] = true ->
  RLeaky.forward input_ spk mem self = (self, Raise (AttributeError "to")).
Proof.
  intro Hmix. unfold RLeaky.forward, mbind.
  now rewrite (@first_pass_marker_beside_False self input_ spk mem Hmix).
Qed.

(** The explicit-state form, with a membrane handed in. *)
Lemma rleaky_forward_explicit_total (self : RLeaky.t) (input_ : tensor)
    (spk mem : pyval) :
  RLeaky.init_hidden self = false ->
  is_False mem = false -> marker_beside_False [spk; mem] = false ->
  RLeaky.forward input_ spk mem self
  = match mem_reset (RLeaky.threshold self)
            (as_tensor (received input_ [spk; mem] mem)) with
    | Raise e => (self, Raise e)
    | Ok r =>
        match RLeaky.build_state_function (RLeaky.set_reset r self) input_
                (received input_ [spk; mem] spk)
                (received input_ [spk; mem] mem) with
        | Raise e => (RLeaky.set_reset r self, Raise e)
        | Ok m =>
            match RLeaky.spike self m with
            | Raise e => (RLeaky.set_reset r self, Raise e)
            | Ok s => (RLeaky.set_reset r self, Ok (RLeaky.SpkMem s m))
            end
        end
    end.
Proof.
  intros Hh Hmem Hmix. unfold RLeaky.forward. unfold mbind at 1.
  rewrite (@rleaky_first_pass_given self input_ spk mem Hmem Hmix).
  rewrite mbind_self, Hh. cbn [negb]. rewrite mbind_lift.
  destruct (mem_reset (RLeaky.threshold self)
              (as_tensor (received input_ [spk; mem] mem))) as [r|e];
    [|reflexivity].
  rewrite mbind_assign, mbind_self, mbind_lift.
  destruct (RLeaky.build_state_function (RLeaky.set_reset r self) input_
              (received input_ [spk; mem] spk)
              (received input_ [spk; mem] mem))
    as [m|e]; [|reflexivity].
  rewrite mbind_lift.
  replace (RLeaky.spike (RLeaky.set_reset r self) m) with (RLeaky.spike self m)
    by reflexivity.
  destruct (RLeaky.spike self m); reflexivity.
Qed.

(** The hidden-state form, called with its input alone on a neuron holding
    its states, the stored spike not being [False]. *)
Lemma rleaky_forward_hidden_total (self : RLeaky.t) (input_ : tensor)
    (s m : pyval) :
  RLeaky.init_hidden self = true ->
  RLeaky.spk self = Some s -> RLeaky.mem self = Some m ->
  is_False s = false ->
  RLeaky.forward input_ PFalse PFalse self
  = match mem_reset (RLeaky.threshold self)
            (as_tensor (initialised input_ m)) with
    | Raise e => (rleaky_lazy_init input_ self, Raise e)
    | Ok r =>
        match RLeaky.build_state_function_hidden
                (RLeaky.set_reset r (rleaky_lazy_init input_ self)) input_ with
        | Raise e => (RLeaky.set_reset r (rleaky_lazy_init input_ self), Raise e)
        | Ok m' =>
            match RLeaky.spike self m' with
            | Raise e =>
                (RLeaky.set_mem (Tensor m')
                   (RLeaky.set_reset r (rleaky_lazy_init input_ self)),
                 Raise e)
            | Ok s' =>
                (RLeaky.set_spk (Tensor s')
                   (RLeaky.set_mem (Tensor m')
                      (RLeaky.set_reset r (rleaky_lazy_init input_ self))),
                 Ok (if RLeaky.output self then RLeaky.SpkMem s' m'
                     else RLeaky.Spk s'))
            end
        end
    end.
Proof.
  intros Hh Hs Hm Fs. unfold RLeaky.forward. unfold mbind at 1.
  rewrite (@first_pass_total self input_ PFalse PFalse s m Hs Hm eq_refl Fs).
  cbn [any_marker existsb hasattr_init_flag orb negb is_False andb received].
  destruct (rleaky_lazy_init_frame input_ self)
    as (_ & _ & Ht & Hi & Hinh & _ & Hout & _).
  cbn zeta in Ht, Hi, Hinh, Hout.
  assert (Hm1 : RLeaky.mem (rleaky_lazy_init input_ self)
                = Some (initialised input_ m)).
  { unfold rleaky_lazy_init, initialised. rewrite Hs, Hm.
    destruct (hasattr_init_flag m); [reflexivity | exact Hm]. }
  rewrite mbind_self, Hi, Hh. cbn [negb]. rewrite mbind_lift.
  cbn [RLeaky._rleaky_forward_cases is_False negb orb].
  rewrite mbind_getattr, Hm1, mbind_lift, Ht.
  destruct (mem_reset (RLeaky.threshold self)
              (as_tensor (initialised input_ m))) as [r|e];
    [|reflexivity].
  rewrite mbind_assign, mbind_self, mbind_lift.
  destruct (RLeaky.build_state_function_hidden
              (RLeaky.set_reset r (rleaky_lazy_init input_ self)) input_)
    as [m'|e]; [|reflexivity].
  rewrite mbind_assign, mbind_lift.
  replace (RLeaky.spike (RLeaky.set_reset r (rleaky_lazy_init input_ self)) m')
    with (RLeaky.spike self m')
    by (unfold RLeaky.spike; cbn [RLeaky.set_reset RLeaky.inhibition
                                   RLeaky.threshold];
        now rewrite Hinh, Ht).
  destruct (RLeaky.spike self m') as [s'|e]; [|reflexivity].
  rewrite mbind_assign. unfold mret.
  cbn [RLeaky.set_reset RLeaky.output]. now rewrite Hout.
Qed.

Lemma rsynaptic_first_pass_given (self : RSynaptic.t) (input_ : tensor)
    (spk syn mem : pyval) :
  is_False mem = false -> marker_beside_False [spk; syn; mem] = false ->
  RSynaptic.first_pass input_ spk syn mem self
  = (self, Ok (received input_ [spk; syn; mem] spk,
               received input_ [spk; syn; mem] syn,
               received input_ [spk; syn; mem] mem)).
Proof.
  intros Hmem Hmix. unfold RSynaptic.first_pass, received, lift.
  rewrite convert_three.
  destruct spk, syn, mem; try discriminate Hmem; try discriminate Hmix;
    reflexivity.
Qed.

Lemma rsynaptic_forward_marker_beside_False (self : RSynaptic.t)
    (input_ : tensor) (spk syn mem : pyval) :
  marker_beside_False [spk; syn; mem] = true ->
  RSynaptic.forward input_ spk syn mem self
  = (self, Raise (AttributeError "to")).
Proof.
  intro Hmix. unfold RSynaptic.forward, mbind.
  now rewrite (@syn_first_pass_marker_beside_False self input_ spk syn mem
                 Hmix).
Qed.

Lemma rsynaptic_forward_explicit_total (self : RSynaptic.t) (input_ : tensor)
    (spk syn mem : pyval) :
  RSynaptic.init_hidden self = false ->
  is_False mem = false -> marker_beside_False [spk; syn; mem] = false ->
  RSynaptic.forward input_ spk syn mem self
  = match mem_reset (RSynaptic.threshold self)
            (as_tensor (received input_ [spk; syn; mem] mem)) with
    | Raise e => (self, Raise e)
    | Ok r =>
        match RSynaptic.build_state_function (RSynaptic.set_reset r self)
                input_ (received input_ [spk; syn; mem] spk)
                (received input_ [spk; syn; mem] syn)
                (received input_ [spk; syn; mem] mem) with
        | Raise e => (RSynaptic.set_reset r self, Raise e)
        | Ok (y, m) =>
            match RSynaptic.spike self m with
            | Raise e => (RSynaptic.set_reset r self, Raise e)
            | Ok s => (RSynaptic.set_reset r self,
                       Ok (RSynaptic.SpkSynMem s y m))
            end
        end
    end.
Proof.
  intros Hh Hmem Hmix. unfold RSynaptic.forward. unfold mbind at 1.
  rewrite (@rsynaptic_first_pass_given self input_ spk syn mem Hmem Hmix).
  rewrite mbind_self, Hh. cbn [negb]. rewrite mbind_lift.
  destruct (mem_reset (RSynaptic.threshold self)
              (as_tensor (received input_ [spk; syn; mem] mem))) as [r|e];
    [|reflexivity].
  rewrite mbind_assign, mbind_self, mbind_lift.
  destruct (RSynaptic.build_state_function (RSynaptic.set_reset r self) input_
              (received input_ [spk; syn; mem] spk)
              (received input_ [spk; syn; mem] syn)
              (received input_ [spk; syn; mem] mem))
    as [[y m]|e]; [|reflexivity].
  rewrite mbind_lift.
  replace (RSynaptic.spike (RSynaptic.set_reset r self) m)
    with (RSynaptic.spike self m) by reflexivity.
  destruct (RSynaptic.spike self m); reflexivity.
Qed.

Lemma rsynaptic_forward_hidden_total (self : RSynaptic.t) (input_ : tensor)
    (s y m : pyval) :
  RSynaptic.init_hidden self = true ->
  RSynaptic.spk self = Some s -> RSynaptic.syn self = Some y ->
  RSynaptic.mem self = Some m ->
  is_False s = false -> is_False y = false ->
  RSynaptic.forward input_ PFalse PFalse PFalse self
  = match mem_reset (RSynaptic.threshold self)
            (as_tensor (initialised input_ m)) with
    | Raise e => (rsynaptic_lazy_init input_ self, Raise e)
    | Ok r =>
        match RSynaptic.build_state_function_hidden
                (RSynaptic.set_reset r (rsynaptic_lazy_init input_ self))
                input_ with
        | Raise e =>
            (RSynaptic.set_reset r (rsynaptic_lazy_init input_ self), Raise e)
        | Ok (y', m') =>
            match RSynaptic.spike self m' with
            | Raise e =>
                (RSynaptic.set_mem (Tensor m')
                   (RSynaptic.set_syn (Tensor y')
                      (RSynaptic.set_reset r
                         (rsynaptic_lazy_init input_ self))),
                 Raise e)
            | Ok s' =>
                (RSynaptic.set_spk (Tensor s')
                   (RSynaptic.set_mem (Tensor m')
                      (RSynaptic.set_syn (Tensor y')
                         (RSynaptic.set_reset r
                            (rsynaptic_lazy_init input_ self)))),
                 Ok (if RSynaptic.output self
                     then RSynaptic.SpkSynMem s' y' m'
                     else RSynaptic.Spk s'))
            end
        end
    end.
Proof.
  intros Hh Hs Hy Hm Fs Fy. unfold RSynaptic.forward. unfold mbind at 1.
  rewrite (@syn_first_pass_total self input_ PFalse PFalse PFalse s y m
             Hs Hy Hm eq_refl Fs Fy).
  cbn [any_marker existsb hasattr_init_flag orb negb is_False andb received].
  destruct (rsynaptic_lazy_init_frame input_ self)
    as (_ & _ & _ & Ht & Hi & Hinh & _ & Hout & _).
  cbn zeta in Ht, Hi, Hinh, Hout.
  assert (Hm1 : RSynaptic.mem (rsynaptic_lazy_init input_ self)
                = Some (initialised input_ m)).
  { unfold rsynaptic_lazy_init, initialised. rewrite Hs, Hy, Hm.
    destruct (hasattr_init_flag m); [reflexivity | exact Hm]. }
  rewrite mbind_self, Hi, Hh. cbn [negb]. rewrite mbind_lift.
  cbn [RSynaptic._rsynaptic_forward_cases is_False negb orb].
  rewrite mbind_getattr, Hm1, mbind_lift, Ht.
  destruct (mem_reset (RSynaptic.threshold self)
              (as_tensor (initialised input_ m))) as [r|e];
    [|reflexivity].
  rewrite mbind_assign, mbind_self, mbind_lift.
  destruct (RSynaptic.build_state_function_hidden
              (RSynaptic.set_reset r (rsynaptic_lazy_init input_ self)) input_)
    as [[y' m']|e]; [|reflexivity].
  rewrite !mbind_assign, mbind_lift.
  replace (RSynaptic.spike
             (RSynaptic.set_reset r (rsynaptic_lazy_init input_ self)) m')
    with (RSynaptic.spike self m')
    by (unfold RSynaptic.spike;
        cbn [RSynaptic.set_reset RSynaptic.inhibition RSynaptic.threshold];
        now rewrite Hinh, Ht).
  destruct (RSynaptic.spike self m') as [s'|e]; [|reflexivity].
  rewrite mbind_assign. unfold mret.
  cbn [RSynaptic.set_reset RSynaptic.output]. now rewrite Hout.
Qed.

(** ** The class methods over the registry *)

Lemma for_each_layer_ok (body : method instance unit) (f : instance -> instance)
    (instances : list instance) :
  Forall (fun i => body i = (f i, Ok tt)) instances ->
  for_each_layer body instances = (map f instances, Ok tt).
Proof.
  induction 1 as [|i rest Hi _ IH]; simpl; [reflexivity|].
  now rewrite Hi, IH.
Qed.

Lemma for_each_layer_raise (body : method instance unit)
    (f : instance -> instance) (before after : list instance)
    (i i' : instance) (e : exn) :
  Forall (fun j => body j = (f j, Ok tt)) before ->
  body i = (i', Raise e) ->
  for_each_layer body (before ++ i :: after)
  = (map f before ++ i' :: after, Raise e).
Proof.
  intros Hbefore Hi.
  induction Hbefore as [|j rest Hj _ IH]; simpl.
  - now rewrite Hi.
  - now rewrite Hj, IH.
Qed.

Lemma py_detach_holds (v : pyval) : v <> PFalse -> py_detach_ v = Ok (detached v).
Proof. destruct v; simpl; congruence. Qed.

Lemma rleaky_detach_layer_ok (layer : RLeaky.t) :
  holds_state (RLeaky.mem layer) ->
  RLeakyClass.detach_layer layer = (rleaky_detached layer, Ok tt).
Proof.
  intros (v & Hv & Hnot). unfold RLeakyClass.detach_layer, rleaky_detached.
  rewrite mbind_getattr, Hv, mbind_lift, (@py_detach_holds v Hnot). reflexivity.
Qed.

Lemma rsynaptic_detach_layer_ok (layer : RSynaptic.t) :
  holds_state (RSynaptic.syn layer) -> holds_state (RSynaptic.mem layer) ->
  RSynapticClass.detach_layer layer = (rsynaptic_detached layer, Ok tt).
Proof.
  intros (y & Hy & Hynot) (v & Hv & Hvnot).
  unfold RSynapticClass.detach_layer, rsynaptic_detached.
  rewrite mbind_getattr, Hy, mbind_lift, (@py_detach_holds y Hynot).
  rewrite mbind_assign, mbind_getattr.
  cbn [RSynaptic.set_syn RSynaptic.mem]. rewrite Hv, mbind_lift.
  rewrite (@py_detach_holds v Hvnot). reflexivity.
Qed.

(** X1: [reset_hidden] never raises, keeps the registry's length and order,
    replaces the membrane of every RLeaky neuron (the synaptic current and the
    membrane of every RSynaptic neuron) by the uninitialised marker and leaves
    every neuron of another class exactly as it was.  Resetting twice is
    resetting once, and the two classes' resets can be called in either
    order. *)
Theorem X1_reset_hidden_resets_own_class :
  (forall instances,
     RLeakyClass.reset_hidden instances
     = (map (only_rleaky (RLeaky.set_mem SpikeTensor)) instances, Ok tt))
  /\
  (forall instances,
     RSynapticClass.reset_hidden instances
     = (map (only_rsynaptic
               (fun layer => RSynaptic.set_mem SpikeTensor
                               (RSynaptic.set_syn SpikeTensor layer)))
            instances, Ok tt))
  /\
  (forall instances,
     RLeakyClass.reset_hidden (fst (RLeakyClass.reset_hidden instances))
     = RLeakyClass.reset_hidden instances)
  /\
  (forall instances,
     RSynapticClass.reset_hidden (fst (RSynapticClass.reset_hidden instances))
     = RSynapticClass.reset_hidden instances)
  /\
  (forall instances,
     RLeakyClass.reset_hidden (fst (RSynapticClass.reset_hidden instances))
     = RSynapticClass.reset_hidden (fst (RLeakyClass.reset_hidden instances))).
Proof.
  assert (HL : forall instances,
     RLeakyClass.reset_hidden instances
     = (map (only_rleaky (RLeaky.set_mem SpikeTensor)) instances, Ok tt)).
  { intro instances. apply for_each_layer_ok.
    apply Forall_forall. intros [layer|layer|] _; reflexivity. }
  assert (HS : forall instances,
     RSynapticClass.reset_hidden instances
     = (map (only_rsynaptic
               (fun layer => RSynaptic.set_mem SpikeTensor
                               (RSynaptic.set_syn SpikeTensor layer)))
            instances, Ok tt)).
  { intro instances. apply for_each_layer_ok.
    apply Forall_forall. intros [layer|layer|] _; reflexivity. }
  repeat apply conj; try assumption; intro instances.
  - rewrite !HL. cbn [fst]. f_equal. rewrite map_map. apply map_ext.
    intros [layer|layer|]; reflexivity.
  - rewrite !HS. cbn [fst]. f_equal. rewrite map_map. apply map_ext.
    intros [layer|layer|]; reflexivity.
  - rewrite ?HL, ?HS. cbn [fst]. rewrite ?HL, ?HS. f_equal.
    rewrite !map_map. apply map_ext. intros [layer|layer|]; reflexivity.
Qed.

Lemma as_tensor_detached (v : pyval) :
  data (as_tensor (detached v)) = data (as_tensor v)
  /\ requires_grad (as_tensor (detached v)) = false.
Proof. destruct v; simpl; auto. Qed.

(** X2: on a registry whose RLeaky neurons all hold a membrane (whose
    RSynaptic neurons all hold a synaptic current and a membrane),
    [detach_hidden] returns without raising; it replaces each such state by a
    state with the same entries and no gradient history, and leaves the spike,
    the parameters, and every neuron of another class as they were.  Detaching
    twice is detaching once. *)
Theorem X2_detach_hidden_keeps_values :
  (forall instances,
     Forall rleaky_ready instances ->
     RLeakyClass.detach_hidden instances
     = (map (only_rleaky rleaky_detached) instances, Ok tt)
     /\ RLeakyClass.detach_hidden (map (only_rleaky rleaky_detached) instances)
        = (map (only_rleaky rleaky_detached) instances, Ok tt))
  /\
  (forall instances,
     Forall rsynaptic_ready instances ->
     RSynapticClass.detach_hidden instances
     = (map (only_rsynaptic rsynaptic_detached) instances, Ok tt)
     /\ RSynapticClass.detach_hidden
          (map (only_rsynaptic rsynaptic_detached) instances)
        = (map (only_rsynaptic rsynaptic_detached) instances, Ok tt))
  /\
  (forall v : pyval,
     data (as_tensor (detached v)) = data (as_tensor v)
     /\ requires_grad (as_tensor (detached v)) = false).
Proof.
  assert (Hd : forall v, v <> PFalse -> detached v <> PFalse)
    by (intros [| |t]; simpl; congruence).
  assert (Hdd : forall v, detached (detached v) = detached v)
    by (intros [| |t]; reflexivity).
  assert (HL : forall instances, Forall rleaky_ready instances ->
     RLeakyClass.detach_hidden instances
     = (map (only_rleaky rleaky_detached) instances, Ok tt)).
  { intros instances Hready. apply for_each_layer_ok.
    eapply Forall_impl; [|exact Hready]. intros [layer|layer|] Hi;
      try reflexivity.
    simpl in *. now rewrite (@rleaky_detach_layer_ok layer Hi). }
  assert (HS : forall instances, Forall rsynaptic_ready instances ->
     RSynapticClass.detach_hidden instances
     = (map (only_rsynaptic rsynaptic_detached) instances, Ok tt)).
  { intros instances Hready. apply for_each_layer_ok.
    eapply Forall_impl; [|exact Hready]. intros [layer|layer|] Hi;
      try reflexivity.
    simpl in *. destruct Hi as [Hy Hv].
    now rewrite (@rsynaptic_detach_layer_ok layer Hy Hv). }
  repeat apply conj.
  - intros instances Hready. split; [now apply HL|].
    rewrite HL.
    + f_equal. rewrite map_map. apply map_ext_in. intros [layer|layer|] Hin;
        try reflexivity.
      rewrite Forall_forall in Hready. specialize (Hready _ Hin).
      destruct Hready as (v & Hv & _). simpl.
      unfold rleaky_detached. rewrite Hv. cbn [RLeaky.set_mem RLeaky.mem].
      now rewrite Hdd.
    + apply Forall_forall. intros i Hin. apply in_map_iff in Hin.
      destruct Hin as ([layer|layer|] & <- & Hin); simpl; try exact I.
      rewrite Forall_forall in Hready. specialize (Hready _ Hin).
      destruct Hready as (v & Hv & Hnot). unfold rleaky_detached. rewrite Hv.
      exists (detached v). split; [reflexivity | now apply Hd].
  - intros instances Hready. split; [now apply HS|].
    rewrite HS.
    + f_equal. rewrite map_map. apply map_ext_in. intros [layer|layer|] Hin;
        try reflexivity.
      rewrite Forall_forall in Hready. specialize (Hready _ Hin).
      destruct Hready as [(y & Hy & _) (v & Hv & _)]. simpl.
      unfold rsynaptic_detached. rewrite Hy, Hv.
      cbn [RSynaptic.set_mem RSynaptic.set_syn RSynaptic.mem RSynaptic.syn].
      now rewrite !Hdd.
    + apply Forall_forall. intros i Hin. apply in_map_iff in Hin.
      destruct Hin as ([layer|layer|] & <- & Hin); simpl; try exact I.
      rewrite Forall_forall in Hready. specialize (Hready _ Hin).
      destruct Hready as [(y & Hy & Hynot) (v & Hv & Hvnot)].
      unfold rsynaptic_detached. rewrite Hy, Hv. split.
      * exists (detached y). split; [reflexivity | now apply Hd].
      * exists (detached v). split; [reflexivity | now apply Hd].
  - apply as_tensor_detached.
Qed.

(** A registry of a stepped RLeaky neuron, a stepped RSynaptic neuron and a
    neuron of another class: detaching the RLeaky neurons keeps the membrane
    5, 4 and drops its gradient history. *)
Lemma X2_detach_hidden_keeps_values_witness :
  (RLeakyClass.detach_hidden
     [IsRLeaky (leaky_holding subtract (batch [[1; 0]]%Q)
                  (tensor_of [[5; 4]]%Q true));
      IsRSynaptic (synaptic_holding subtract (batch [[1; 0]]%Q)
                     (tensor_of [[2; 2]]%Q true) (tensor_of [[5; 4]]%Q true));
      IsOther]
   = (map (only_rleaky rleaky_detached)
        [IsRLeaky (leaky_holding subtract (batch [[1; 0]]%Q)
                     (tensor_of [[5; 4]]%Q true));
         IsRSynaptic (synaptic_holding subtract (batch [[1; 0]]%Q)
                        (tensor_of [[2; 2]]%Q true)
                        (tensor_of [[5; 4]]%Q true));
         IsOther], Ok tt)
   /\ RLeakyClass.detach_hidden
        (map (only_rleaky rleaky_detached)
           [IsRLeaky (leaky_holding subtract (batch [[1; 0]]%Q)
                        (tensor_of [[5; 4]]%Q true));
            IsRSynaptic (synaptic_holding subtract (batch [[1; 0]]%Q)
                           (tensor_of [[2; 2]]%Q true)
                           (tensor_of [[5; 4]]%Q true));
            IsOther])
      = (map (only_rleaky rleaky_detached)
           [IsRLeaky (leaky_holding subtract (batch [[1; 0]]%Q)
                        (tensor_of [[5; 4]]%Q true));
            IsRSynaptic (synaptic_holding subtract (batch [[1; 0]]%Q)
                           (tensor_of [[2; 2]]%Q true)
                           (tensor_of [[5; 4]]%Q true));
            IsOther], Ok tt))
  /\
  RLeaky.mem
    (rleaky_detached (leaky_holding subtract (batch [[1; 0]]%Q)
                        (tensor_of [[5; 4]]%Q true)))
  = Some (Tensor (batch [[5; 4]]%Q)).
Proof.
  split; [|reflexivity].
  apply (proj1 X2_detach_hidden_keeps_values).
  repeat constructor.
  eexists. split; [reflexivity | discriminate].
Defined.

(** X3: [detach_hidden] stops at the first neuron of its class that has no
    membrane attribute, as an RLeaky neuron built with [init_hidden=False]
    has none: it raises [AttributeError], the neurons before it in the
    registry are detached, that neuron and those after it are left as they
    were.  An RSynaptic neuron without a synaptic current stops it
    likewise. *)
Theorem X3_detach_hidden_stops_at_stateless_neuron :
  (forall (before after : list instance) (layer : RLeaky.t),
     Forall rleaky_ready before ->
     RLeaky.mem layer = None ->
     RLeakyClass.detach_hidden (before ++ IsRLeaky layer :: after)
     = (map (only_rleaky rleaky_detached) before ++ IsRLeaky layer :: after,
        Raise (AttributeError "mem")))
  /\
  (forall (before after : list instance) (layer : RSynaptic.t),
     Forall rsynaptic_ready before ->
     RSynaptic.syn layer = None ->
     RSynapticClass.detach_hidden (before ++ IsRSynaptic layer :: after)
     = (map (only_rsynaptic rsynaptic_detached) before
          ++ IsRSynaptic layer :: after,
        Raise (AttributeError "syn"))).
Proof.
  split.
  - intros before after layer Hready Hmem.
    apply for_each_layer_raise.
    + eapply Forall_impl; [|exact Hready]. intros [l|l|] Hi; try reflexivity.
      simpl in *. now rewrite (@rleaky_detach_layer_ok l Hi).
    + simpl. unfold RLeakyClass.detach_layer.
      now rewrite mbind_getattr, Hmem.
  - intros before after layer Hready Hsyn.
    apply for_each_layer_raise.
    + eapply Forall_impl; [|exact Hready]. intros [l|l|] Hi; try reflexivity.
      simpl in *. destruct Hi as [Hy Hv].
      now rewrite (@rsynaptic_detach_layer_ok l Hy Hv).
    + simpl. unfold RSynapticClass.detach_layer.
      now rewrite mbind_getattr, Hsyn.
Qed.

(** A hidden-state neuron, then an explicit-state neuron, then another
    hidden-state neuron: the first is detached, the call raises at the second
    and the third keeps its gradient history. *)
Lemma X3_detach_hidden_stops_at_stateless_neuron_witness :
  RLeakyClass.detach_hidden
    ([IsRLeaky (leaky_holding subtract (batch [[1]]%Q)
                  (tensor_of [[5]]%Q true))]
       ++ IsRLeaky (leaky false subtract false)
       :: [IsRLeaky (leaky_holding subtract (batch [[0]]%Q)
                       (tensor_of [[3]]%Q true))])
  = (map (only_rleaky rleaky_detached)
       [IsRLeaky (leaky_holding subtract (batch [[1]]%Q)
                    (tensor_of [[5]]%Q true))]
       ++ IsRLeaky (leaky false subtract false)
       :: [IsRLeaky (leaky_holding subtract (batch [[0]]%Q)
                       (tensor_of [[3]]%Q true))],
     Raise (AttributeError "mem")).
Proof.
  apply (proj1 X3_detach_hidden_stops_at_stateless_neuron).
  - repeat constructor. eexists. split; [reflexivity | discriminate].
  - reflexivity.
Defined.

(** ** The two calling conventions *)

(** X4: the explicit-state form, called with a membrane, keeps no state
    between calls: it leaves the stored spike and membrane (and synaptic
    current) attributes as they were, and what it returns or raises depends
    on the parameters and the arguments only, so two neurons with the same
    parameters, whatever they were called with before, answer alike. *)
Theorem X4_explicit_form_is_stateless :
  (forall (self : RLeaky.t) (input_ : tensor) (spk mem : pyval),
     RLeaky.init_hidden self = false -> is_False mem = false ->
     RLeaky.spk (fst (RLeaky.forward input_ spk mem self)) = RLeaky.spk self
     /\ RLeaky.mem (fst (RLeaky.forward input_ spk mem self))
        = RLeaky.mem self)
  /\
  (forall (self other : RLeaky.t) (input_ : tensor) (spk mem : pyval),
     RLeaky.init_hidden self = false -> RLeaky.init_hidden other = false ->
     is_False mem = false ->
     rleaky_explicit_twin self = rleaky_explicit_twin other ->
     snd (RLeaky.forward input_ spk mem self)
     = snd (RLeaky.forward input_ spk mem other))
  /\
  (forall (self : RSynaptic.t) (input_ : tensor) (spk syn mem : pyval),
     RSynaptic.init_hidden self = false -> is_False mem = false ->
     RSynaptic.spk (fst (RSynaptic.forward input_ spk syn mem self))
     = RSynaptic.spk self
     /\ RSynaptic.syn (fst (RSynaptic.forward input_ spk syn mem self))
        = RSynaptic.syn self
     /\ RSynaptic.mem (fst (RSynaptic.forward input_ spk syn mem self))
        = RSynaptic.mem self)
  /\
  (forall (self other : RSynaptic.t) (input_ : tensor) (spk syn mem : pyval),
     RSynaptic.init_hidden self = false ->
     RSynaptic.init_hidden other = false ->
     is_False mem = false ->
     rsynaptic_explicit_twin self = rsynaptic_explicit_twin other ->
     snd (RSynaptic.forward input_ spk syn mem self)
     = snd (RSynaptic.forward input_ spk syn mem other)).
Proof.
  repeat apply conj.
  - intros self input_ spk mem Hh Hmem.
    destruct (marker_beside_False [spk; mem]) eqn:Hmix;
      [now rewrite (@rleaky_forward_marker_beside_False self input_ spk mem
                      Hmix)|].
    rewrite (@rleaky_forward_explicit_total self input_ spk mem Hh Hmem Hmix).
    destruct (mem_reset _ _) as [r|e]; [|split; reflexivity].
    destruct (RLeaky.build_state_function _ _ _ _) as [m|e];
      [|split; reflexivity].
    destruct (RLeaky.spike self m); split; reflexivity.
  - intros self other input_ spk mem Hh Ho Hmem Htwin.
    destruct (marker_beside_False [spk; mem]) eqn:Hmix;
      [now rewrite
         (@rleaky_forward_marker_beside_False self input_ spk mem Hmix),
         (@rleaky_forward_marker_beside_False other input_ spk mem Hmix)|].
    injection Htwin as Hb HV Ht Hinh Hval Hout.
    rewrite
      (@rleaky_forward_explicit_total self input_ spk mem Hh Hmem Hmix),
      (@rleaky_forward_explicit_total other input_ spk mem Ho Hmem Hmix), Ht.
    destruct (mem_reset _ _) as [r|e]; [|reflexivity].
    rewrite (@build_state_function_params (RLeaky.set_reset r self)
               (RLeaky.set_reset r other)) by (simpl; auto).
    destruct (RLeaky.build_state_function _ _ _ _) as [m|e]; [|reflexivity].
    rewrite (@spike_params self other m Ht Hinh).
    destruct (RLeaky.spike other m); reflexivity.
  - intros self input_ spk syn mem Hh Hmem.
    destruct (marker_beside_False [spk; syn; mem]) eqn:Hmix;
      [rewrite (@rsynaptic_forward_marker_beside_False self input_ spk syn
                  mem Hmix); repeat split|].
    rewrite (@rsynaptic_forward_explicit_total self input_ spk syn mem
               Hh Hmem Hmix).
    destruct (mem_reset _ _) as [r|e]; [|repeat split].
    destruct (RSynaptic.build_state_function _ _ _ _ _) as [[y m]|e];
      [|repeat split].
    destruct (RSynaptic.spike self m); repeat split.
  - intros self other input_ spk syn mem Hh Ho Hmem Htwin.
    destruct (marker_beside_False [spk; syn; mem]) eqn:Hmix;
      [now rewrite
         (@rsynaptic_forward_marker_beside_False self input_ spk syn mem
            Hmix),
         (@rsynaptic_forward_marker_beside_False other input_ spk syn mem
            Hmix)|].
    injection Htwin as Ha Hb HV Ht Hinh Hval Hout.
    rewrite
      (@rsynaptic_forward_explicit_total self input_ spk syn mem
         Hh Hmem Hmix),
      (@rsynaptic_forward_explicit_total other input_ spk syn mem
         Ho Hmem Hmix), Ht.
    destruct (mem_reset _ _) as [r|e]; [|reflexivity].
    rewrite (@syn_build_state_function_params (RSynaptic.set_reset r self)
               (RSynaptic.set_reset r other)) by (simpl; auto).
    destruct (RSynaptic.build_state_function _ _ _ _ _) as [[y m]|e];
      [|reflexivity].
    rewrite (@syn_spike_params self other m Ht Hinh).
    destruct (RSynaptic.spike other m); reflexivity.
Qed.

(** An explicit-state neuron answers the same before and after a call with
    other states. *)
Lemma X4_explicit_form_is_stateless_witness :
  (RLeaky.spk
     (fst (RLeaky.forward (batch [[1; 2]]%Q) (Tensor (batch [[1; 0]]%Q))
             (Tensor (batch [[5; 4]]%Q)) (leaky false subtract false)))
   = RLeaky.spk (leaky false subtract false)
   /\ RLeaky.mem
        (fst (RLeaky.forward (batch [[1; 2]]%Q) (Tensor (batch [[1; 0]]%Q))
                (Tensor (batch [[5; 4]]%Q)) (leaky false subtract false)))
      = RLeaky.mem (leaky false subtract false))
  /\
  snd (RLeaky.forward (batch [[1; 2]]%Q) (Tensor (batch [[1; 0]]%Q))
         (Tensor (batch [[5; 4]]%Q)) (leaky false subtract false))
  = snd (RLeaky.forward (batch [[1; 2]]%Q) (Tensor (batch [[1; 0]]%Q))
           (Tensor (batch [[5; 4]]%Q))
           (fst (RLeaky.forward (batch [[7; 7]]%Q) (Tensor (batch [[0; 0]]%Q))
                   (Tensor (batch [[3; 3]]%Q)) (leaky false subtract false)))).
Proof.
  split.
  - apply (proj1 X4_explicit_form_is_stateless); reflexivity.
  - apply (proj1 (proj2 X4_explicit_form_is_stateless));
      first [reflexivity | vm_compute; reflexivity].
Defined.

(** X5: a call of the hidden-state form that returns leaves a tensor as the
    stored spike and as the stored membrane (and synaptic current), and what
    it returns is what it stored: the spike alone, or with [output] the
    spike and the states.  On the instance it leaves, the opening
    [if]/[elif] of the next call finds no marker and changes nothing. *)
Theorem X5_hidden_form_returns_what_it_stores :
  (forall (self self' : RLeaky.t) (input_ : tensor) (spk mem : pyval)
          (out : RLeaky.returned),
     RLeaky.init_hidden self = true ->
     RLeaky.forward input_ spk mem self = (self', Ok out) ->
     exists s m,
       RLeaky.spk self' = Some (Tensor s)
       /\ RLeaky.mem self' = Some (Tensor m)
       /\ out = (if RLeaky.output self then RLeaky.SpkMem s m
                 else RLeaky.Spk s)
       /\ forall next : tensor,
            RLeaky.first_pass next PFalse PFalse self'
            = (self', Ok (PFalse, PFalse)))
  /\
  (forall (self self' : RSynaptic.t) (input_ : tensor) (spk syn mem : pyval)
          (out : RSynaptic.returned),
     RSynaptic.init_hidden self = true ->
     RSynaptic.forward input_ spk syn mem self = (self', Ok out) ->
     exists s y m,
       RSynaptic.spk self' = Some (Tensor s)
       /\ RSynaptic.syn self' = Some (Tensor y)
       /\ RSynaptic.mem self' = Some (Tensor m)
       /\ out = (if RSynaptic.output self then RSynaptic.SpkSynMem s y m
                 else RSynaptic.Spk s)
       /\ forall next : tensor,
            RSynaptic.first_pass next PFalse PFalse PFalse self'
            = (self', Ok (PFalse, PFalse, PFalse))).
Proof.
  split.
  - intros self self' input_ spk mem out Hh H.
    destruct (@forward_hidden self self' input_ spk mem out Hh H)
      as (_ & _ & stored & r & m & s & _ & _ & _ & _ & -> & ->).
    exists s, m. repeat split.
  - intros self self' input_ spk syn mem out Hh H.
    destruct (@syn_forward_hidden self self' input_ spk syn mem out Hh H)
      as (_ & _ & _ & stored & r & y & m & s & _ & _ & _ & _ & -> & ->).
    exists s, y, m. repeat split.
Qed.

Lemma X5_hidden_form_returns_what_it_stores_witness :
  exists s m,
    RLeaky.spk
      (fst (RLeaky.forward (batch [[1; 2]]%Q) PFalse PFalse
              (leaky true subtract false)))
    = Some (Tensor s)
    /\ RLeaky.mem
         (fst (RLeaky.forward (batch [[1; 2]]%Q) PFalse PFalse
                 (leaky true subtract false)))
       = Some (Tensor m)
    /\ RLeaky.Spk (tensor_of [[0; 1]]%Q true)
       = (if RLeaky.output (leaky true subtract false)
          then RLeaky.SpkMem s m else RLeaky.Spk s)
    /\ forall next : tensor,
         RLeaky.first_pass next PFalse PFalse
           (fst (RLeaky.forward (batch [[1; 2]]%Q) PFalse PFalse
                   (leaky true subtract false)))
         = (fst (RLeaky.forward (batch [[1; 2]]%Q) PFalse PFalse
                   (leaky true subtract false)),
            Ok (PFalse, PFalse)).
Proof.
  apply (proj1 X5_hidden_form_returns_what_it_stores
           (leaky true subtract false) _ (batch [[1; 2]]%Q) PFalse PFalse
           (RLeaky.Spk (tensor_of [[0; 1]]%Q true)) eq_refl).
  vm_compute. repeat f_equal; apply Qc_is_canon; reflexivity.
Defined.

(** On stored tensors the state function of the hidden-state form is that
    of the explicit-state form on the same tensors, except for the
    reset-to-zero branch. *)
Lemma rleaky_state_functions_agree (h e : RLeaky.t) (input_ s m : tensor) :
  RLeaky.spk h = Some (Tensor s) -> RLeaky.mem h = Some (Tensor m) ->
  RLeaky.beta h = RLeaky.beta e -> RLeaky.V h = RLeaky.V e ->
  RLeaky.threshold h = RLeaky.threshold e ->
  RLeaky.reset_mechanism_val h = RLeaky.reset_mechanism_val e ->
  RLeaky.reset h = RLeaky.reset e ->
  RLeaky.reset_mechanism_val h <> 1%Z ->
  RLeaky.build_state_function_hidden h input_
  = RLeaky.build_state_function e input_ (Tensor s) (Tensor m).
Proof.
  intros Hs Hm Hb HV Ht Hval Hr Hne.
  assert (Hbase : RLeaky.base_state_function_hidden h input_
                  = RLeaky.base_state_function e input_ (Tensor s) (Tensor m)).
  { unfold RLeaky.base_state_function_hidden, RLeaky.base_state_function.
    rewrite Hs, Hm, Hb, HV. simpl.
    destruct (tmul _ _); [|reflexivity]. simpl.
    destruct (tadd _ _); reflexivity. }
  unfold RLeaky.build_state_function_hidden, RLeaky.build_state_function.
  rewrite Hbase, <- Hval, <- Hr, <- Ht.
  destruct (RLeaky.reset_mechanism_val h =? 1)%Z eqn:H1;
    [apply Z.eqb_eq in H1; contradiction | reflexivity].
Qed.

Lemma rsynaptic_state_functions_agree (h e : RSynaptic.t)
    (input_ s y m : tensor) :
  RSynaptic.spk h = Some (Tensor s) -> RSynaptic.syn h = Some (Tensor y) ->
  RSynaptic.mem h = Some (Tensor m) ->
  RSynaptic.alpha h = RSynaptic.alpha e ->
  RSynaptic.beta h = RSynaptic.beta e -> RSynaptic.V h = RSynaptic.V e ->
  RSynaptic.threshold h = RSynaptic.threshold e ->
  RSynaptic.reset_mechanism_val h = RSynaptic.reset_mechanism_val e ->
  RSynaptic.reset h = RSynaptic.reset e ->
  RSynaptic.reset_mechanism_val h <> 1%Z ->
  RSynaptic.build_state_function_hidden h input_
  = RSynaptic.build_state_function e input_ (Tensor s) (Tensor y) (Tensor m).
Proof.
  intros Hs Hy Hm Ha Hb HV Ht Hval Hr Hne.
  assert (Hbase : RSynaptic.base_state_function_hidden h input_
                  = RSynaptic.base_state_function e input_
                      (Tensor s) (Tensor y) (Tensor m)).
  { unfold RSynaptic.base_state_function_hidden, RSynaptic.base_state_function.
    rewrite Hs, Hy, Hm, Ha, Hb, HV. simpl.
    destruct (tmul _ _); [|reflexivity]. simpl.
    destruct (tadd _ _); [|reflexivity]. simpl.
    destruct (tmul _ _); [|reflexivity]. simpl.
    destruct (tadd _ _); reflexivity. }
  unfold RSynaptic.build_state_function_hidden, RSynaptic.build_state_function.
  rewrite Hbase, <- Hval, <- Hr, <- Ht.
  destruct (RSynaptic.reset_mechanism_val h =? 1)%Z eqn:H1;
    [apply Z.eqb_eq in H1; contradiction | reflexivity].
Qed.

(** X6: the two calling conventions compute the same step.  A hidden-state
    neuron with [output=True] that holds a spike and a membrane (and a
    synaptic current), called with its input alone, returns or raises
    exactly what the explicit-state neuron with the same parameters does
    when it is handed these states as arguments; this holds for reset by
    subtraction and for no reset, the only mechanisms of the two forms that
    share their formula. *)
Theorem X6_hidden_and_explicit_forms_agree :
  (forall (self : RLeaky.t) (input_ s m : tensor),
     RLeaky.init_hidden self = true -> RLeaky.output self = true ->
     RLeaky.spk self = Some (Tensor s) -> RLeaky.mem self = Some (Tensor m) ->
     RLeaky.reset_mechanism_val self <> 1%Z ->
     snd (RLeaky.forward input_ PFalse PFalse self)
     = snd (RLeaky.forward input_ (Tensor s) (Tensor m)
              (rleaky_explicit_twin self)))
  /\
  (forall (self : RSynaptic.t) (input_ s y m : tensor),
     RSynaptic.init_hidden self = true -> RSynaptic.output self = true ->
     RSynaptic.spk self = Some (Tensor s) ->
     RSynaptic.syn self = Some (Tensor y) ->
     RSynaptic.mem self = Some (Tensor m) ->
     RSynaptic.reset_mechanism_val self <> 1%Z ->
     snd (RSynaptic.forward input_ PFalse PFalse PFalse self)
     = snd (RSynaptic.forward input_ (Tensor s) (Tensor y) (Tensor m)
              (rsynaptic_explicit_twin self))).
Proof.
  split.
  - intros self input_ s m Hh Hout Hs Hm Hne.
    rewrite (@rleaky_forward_hidden_total self input_ (Tensor s) (Tensor m)
               Hh Hs Hm eq_refl),
      (@rleaky_forward_explicit_total (rleaky_explicit_twin self) input_
         (Tensor s) (Tensor m) eq_refl eq_refl eq_refl).
    assert (Hlazy : rleaky_lazy_init input_ self = self).
    { unfold rleaky_lazy_init. now rewrite Hs, Hm. }
    rewrite Hlazy. cbn [initialised received any_marker existsb orb hasattr_init_flag].
    change (RLeaky.threshold (rleaky_explicit_twin self))
      with (RLeaky.threshold self).
    destruct (mem_reset _ _) as [r|e]; [|reflexivity].
    rewrite (@rleaky_state_functions_agree (RLeaky.set_reset r self)
               (RLeaky.set_reset r (rleaky_explicit_twin self)) input_ s m)
      by (try assumption; reflexivity).
    destruct (RLeaky.build_state_function _ _ _ _) as [m'|e]; [|reflexivity].
    rewrite (@spike_params self (rleaky_explicit_twin self) m' eq_refl eq_refl).
    destruct (RLeaky.spike _ m'); [|reflexivity].
    now rewrite Hout.
  - intros self input_ s y m Hh Hout Hs Hy Hm Hne.
    rewrite (@rsynaptic_forward_hidden_total self input_ (Tensor s) (Tensor y)
               (Tensor m) Hh Hs Hy Hm eq_refl eq_refl),
      (@rsynaptic_forward_explicit_total (rsynaptic_explicit_twin self) input_
         (Tensor s) (Tensor y) (Tensor m) eq_refl eq_refl eq_refl).
    assert (Hlazy : rsynaptic_lazy_init input_ self = self).
    { unfold rsynaptic_lazy_init. now rewrite Hs, Hy, Hm. }
    rewrite Hlazy. cbn [initialised received any_marker existsb orb hasattr_init_flag].
    change (RSynaptic.threshold (rsynaptic_explicit_twin self))
      with (RSynaptic.threshold self).
    destruct (mem_reset _ _) as [r|e]; [|reflexivity].
    rewrite (@rsynaptic_state_functions_agree (RSynaptic.set_reset r self)
               (RSynaptic.set_reset r (rsynaptic_explicit_twin self))
               input_ s y m)
      by (try assumption; reflexivity).
    destruct (RSynaptic.build_state_function _ _ _ _ _) as [[y' m']|e];
      [|reflexivity].
    rewrite (@syn_spike_params self (rsynaptic_explicit_twin self) m'
               eq_refl eq_refl).
    destruct (RSynaptic.spike _ m'); [|reflexivity].
    now rewrite Hout.
Qed.

Lemma X6_hidden_and_explicit_forms_agree_witness :
  snd (RLeaky.forward (batch [[1; 2]]%Q) PFalse PFalse
         (leaky_holding subtract (batch [[0; 1]]%Q) (batch [[1; 3]]%Q)))
  = snd (RLeaky.forward (batch [[1; 2]]%Q) (Tensor (batch [[0; 1]]%Q))
           (Tensor (batch [[1; 3]]%Q))
           (rleaky_explicit_twin
              (leaky_holding subtract (batch [[0; 1]]%Q) (batch [[1; 3]]%Q)))).
Proof.
  apply (proj1 X6_hidden_and_explicit_forms_agree); try reflexivity.
  vm_compute. discriminate.
Defined.

(** ** Calls that cannot succeed *)

(** X7: an explicit-state RLeaky neuron with the reset-to-zero mechanism
    never returns from [forward], whatever the input and the states: the
    reset-to-zero branch of [build_state_function] calls
    [base_state_function] with two arguments.  When a membrane is handed in
    and the reset indicator can be computed, the call raises a [TypeError]
    and has stored the reset indicator by then; a spike left at [False]
    beside a membrane bearing the marker stops the call earlier, in the
    lazy initialisation. *)
Theorem X7_explicit_reset_to_zero_never_returns :
  forall (self : RLeaky.t) (input_ : tensor) (spk mem : pyval),
    RLeaky.init_hidden self = false ->
    RLeaky.reset_mechanism_val self = 1%Z ->
    (forall out : RLeaky.returned,
       snd (RLeaky.forward input_ spk mem self) <> Ok out)
    /\ (forall r : tensor,
          is_False mem = false ->
          marker_beside_False [spk; mem] = false ->
          mem_reset (RLeaky.threshold self)
            (as_tensor (received input_ [spk; mem] mem)) = Ok r ->
          exists msg,
            RLeaky.forward input_ spk mem self
            = (RLeaky.set_reset r self, Raise (TypeError msg)))
    /\ (marker_beside_False [spk; mem] = true ->
        RLeaky.forward input_ spk mem self
        = (self, Raise (AttributeError "to"))).
Proof.
  intros self input_ spk mem Hh Hval. split; [|split].
  - intros out Hout.
    destruct (RLeaky.forward input_ spk mem self) as [self' res] eqn:H.
    simpl in Hout. subst res.
    destruct (@forward_explicit self self' input_ spk mem out Hh H)
      as (r & m & s & _ & _ & Hbuild & _).
    rewrite zero_explicit_raises in Hbuild by exact Hval. discriminate Hbuild.
  - intros r Hmem Hmix Hr.
    rewrite (@rleaky_forward_explicit_total self input_ spk mem Hh Hmem Hmix),
      Hr.
    rewrite zero_explicit_raises by exact Hval. eexists. reflexivity.
  - apply rleaky_forward_marker_beside_False.
Qed.

Lemma X7_explicit_reset_to_zero_never_returns_witness :
  (forall out : RLeaky.returned,
     snd (RLeaky.forward (batch [[1; 2]]%Q) (Tensor (batch [[0; 0]]%Q))
            (Tensor (batch [[0; 0]]%Q)) (leaky false zero false)) <> Ok out)
  /\ (forall r : tensor,
        is_False (Tensor (batch [[0; 0]]%Q)) = false ->
        marker_beside_False
          [Tensor (batch [[0; 0]]%Q); Tensor (batch [[0; 0]]%Q)] = false ->
        mem_reset (RLeaky.threshold (leaky false zero false))
          (as_tensor
             (received (batch [[1; 2]]%Q)
                [Tensor (batch [[0; 0]]%Q); Tensor (batch [[0; 0]]%Q)]
                (Tensor (batch [[0; 0]]%Q)))) = Ok r ->
        exists msg,
          RLeaky.forward (batch [[1; 2]]%Q) (Tensor (batch [[0; 0]]%Q))
            (Tensor (batch [[0; 0]]%Q)) (leaky false zero false)
          = (RLeaky.set_reset r (leaky false zero false),
             Raise (TypeError msg)))
  /\ (marker_beside_False
        [Tensor (batch [[0; 0]]%Q); Tensor (batch [[0; 0]]%Q)] = true ->
      RLeaky.forward (batch [[1; 2]]%Q) (Tensor (batch [[0; 0]]%Q))
        (Tensor (batch [[0; 0]]%Q)) (leaky false zero false)
      = (leaky false zero false, Raise (AttributeError "to"))).
Proof.
  apply X7_explicit_reset_to_zero_never_returns; reflexivity.
Defined.

(** X8: the explicit-state form called with [mem] left at its default, on a
    neuron that holds no membrane (one built with [init_hidden=False] and
    never given one), raises an [AttributeError] for [mem] when the opening
    [elif] reads [self.mem], and leaves the instance as it was.  It does so
    unless an argument bears the marker, which the opening [if] takes
    first. *)
Theorem X8_omitted_membrane_raises :
  (forall (self : RLeaky.t) (input_ : tensor) (spk : pyval),
     RLeaky.mem self = None -> hasattr_init_flag spk = false ->
     RLeaky.forward input_ spk PFalse self
     = (self, Raise (AttributeError "mem")))
  /\
  (forall (self : RSynaptic.t) (input_ : tensor) (spk syn : pyval),
     RSynaptic.mem self = None ->
     hasattr_init_flag spk = false -> hasattr_init_flag syn = false ->
     RSynaptic.forward input_ spk syn PFalse self
     = (self, Raise (AttributeError "mem"))).
Proof.
  split.
  - intros self input_ spk Hm Hs.
    unfold RLeaky.forward, RLeaky.first_pass. rewrite Hs.
    cbn [hasattr_init_flag orb is_False].
    unfold mbind at 1. unfold mbind at 1. unfold getattr. now rewrite Hm.
  - intros self input_ spk syn Hm Hs Hy.
    unfold RSynaptic.forward, RSynaptic.first_pass. rewrite Hs, Hy.
    cbn [hasattr_init_flag orb is_False].
    unfold mbind at 1. unfold mbind at 1. unfold getattr. now rewrite Hm.
Qed.

Lemma X8_omitted_membrane_raises_witness :
  RLeaky.forward (batch [[1; 2]]%Q) PFalse PFalse (leaky false subtract false)
  = (leaky false subtract false, Raise (AttributeError "mem"))
  /\ RSynaptic.forward (batch [[1; 2]]%Q) (Tensor (batch [[0; 0]]%Q))
       (Tensor (batch [[0; 0]]%Q)) PFalse (synaptic false subtract false)
     = (synaptic false subtract false, Raise (AttributeError "mem")).
Proof.
  split.
  - apply (proj1 X8_omitted_membrane_raises); reflexivity.
  - apply (proj2 X8_omitted_membrane_raises); reflexivity.
Defined.

(** ** The base term, entry by entry *)

Lemma zip_with_map_l {A A' B C} (g : A' -> B -> C) (h : A -> A')
    (a : list A) (b : list B) :
  zip_with g (map h a) b = zip_with (fun x y => g (h x) y) a b.
Proof.
  revert b. induction a as [|x a IH]; intros [|y b]; simpl; congruence.
Qed.

Lemma zip_with_map_l2 {A A' B C} (g : A' -> B -> C) (h : A -> A')
    (a : list (list A)) (b : list (list B)) :
  zip_with (zip_with g) (map (map h) a) b
  = zip_with (zip_with (fun x y => g (h x) y)) a b.
Proof.
  revert b. induction a as [|x a IH]; intros [|y b]; simpl; try reflexivity.
  now rewrite zip_with_map_l, IH.
Qed.

Lemma zip_with3_ext {A B C D} (g g' : A -> B -> C -> D)
    (a : list A) (b : list B) (c : list C) :
  (forall x y z, g x y z = g' x y z) -> zip_with3 g a b c = zip_with3 g' a b c.
Proof.
  intro H. revert b c.
  induction a as [|x a IH]; intros [|y b] [|z c]; simpl; try reflexivity.
  now rewrite H, IH.
Qed.

Lemma zip_with_zip_with_map {A B C C' D E} (g : D -> C' -> E) (f : A -> B -> D)
    (h : C -> C') (a : list A) (b : list B) (c : list C) :
  zip_with g (zip_with f a b) (map h c)
  = zip_with3 (fun x y z => g (f x y) (h z)) a b c.
Proof.
  revert b c.
  induction a as [|x a IH]; intros [|y b] [|z c]; simpl; try reflexivity.
  now rewrite IH.
Qed.

Lemma length_zip_with {A B C} (g : A -> B -> C) (a : list A) (b : list B) :
  length a = length b -> length (zip_with g a b) = length a.
Proof.
  revert b. induction a as [|x a IH]; intros [|y b] H; simpl in *;
    try discriminate; [reflexivity|].
  f_equal. apply IH. now injection H.
Qed.

Lemma shape_zip_with (op : Qc -> Qc -> Qc) (a b : list (list Qc)) :
  map (@length Qc) a = map (@length Qc) b ->
  map (@length Qc) (zip_with (zip_with op) a b) = map (@length Qc) a.
Proof.
  revert b. induction a as [|r a IH]; intros [|r' b] H; simpl in *;
    try discriminate; [reflexivity|].
  injection H as Hr Hrest. f_equal; [now apply length_zip_with | now apply IH].
Qed.

(** [rate.clamp(0, 1) * state + input_ + V * spk] on a state, an input and a
    spike of one shape, the rate and the weight being numbers. *)
Lemma base_term_entrywise (rate V state input_ spk : tensor) (a v : Qc) :
  data rate = [[a]] -> data V = [[v]] ->
  shape state = shape input_ -> shape spk = shape input_ ->
  exists base,
    (decayed <- tmul (clamp 0 1 rate) state ;;
     driven <- tadd decayed input_ ;;
     recurrent <- tmul V spk ;;
     tadd driven recurrent) = Ok base
    /\ data base
       = zip_with3 (zip_with3 (base_entry a v))
           (data state) (data input_) (data spk)
    /\ shape base = shape input_
    /\ requires_grad base
       = (requires_grad rate || requires_grad state || requires_grad input_
          || (requires_grad V || requires_grad spk)).
Proof.
  intros Ha Hv Hstate Hspk. unfold tmul, tadd.
  rewrite (@pointwise_number_l Qcmult (clamp 0 1 rate) state (clamp1 0 1 a))
    by (simpl; now rewrite Ha).
  cbn [rbind].
  rewrite pointwise_same_shape
    by (unfold shape in *; cbn [data]; now rewrite shape_map).
  cbn [rbind data requires_grad clamp tmap].
  rewrite (@pointwise_number_l Qcmult V spk v Hv). cbn [rbind].
  rewrite pointwise_same_shape.
  2:{ unfold shape in *. cbn [data].
      rewrite shape_zip_with by (now rewrite shape_map).
      now rewrite !shape_map, Hstate, Hspk. }
  eexists. split; [reflexivity|]. cbn [data requires_grad].
  split; [|split; [|reflexivity]].
  - rewrite zip_with_map_l2, zip_with_zip_with_map.
    apply zip_with3_ext. intros r1 r2 r3.
    rewrite zip_with_zip_with_map. reflexivity.
  - unfold shape in *. cbn [data].
    rewrite shape_zip_with.
    + rewrite shape_zip_with by (now rewrite shape_map).
      now rewrite shape_map.
    + rewrite shape_zip_with by (now rewrite shape_map).
      now rewrite !shape_map, Hstate, Hspk.
Qed.

(** The hidden-state base term reads the stored states where the
    explicit-state one reads its arguments. *)
Lemma rleaky_base_hidden_stored (self : RLeaky.t) (input_ : tensor)
    (s m : pyval) :
  RLeaky.spk self = Some s -> RLeaky.mem self = Some m ->
  RLeaky.base_state_function_hidden self input_
  = RLeaky.base_state_function self input_ s m.
Proof.
  intros Hs Hm.
  unfold RLeaky.base_state_function_hidden, RLeaky.base_state_function.
  rewrite Hs, Hm. cbn [RLeaky.attr rbind].
  destruct (tmul _ _); [|reflexivity]. cbn [rbind].
  destruct (tadd _ _); reflexivity.
Qed.

Lemma rsynaptic_base_hidden_stored (self : RSynaptic.t) (input_ : tensor)
    (s y m : pyval) :
  RSynaptic.spk self = Some s -> RSynaptic.syn self = Some y ->
  RSynaptic.mem self = Some m ->
  RSynaptic.base_state_function_hidden self input_
  = RSynaptic.base_state_function self input_ s y m.
Proof.
  intros Hs Hy Hm.
  unfold RSynaptic.base_state_function_hidden, RSynaptic.base_state_function.
  rewrite Hs, Hy, Hm. cbn [RSynaptic.attr rbind].
  destruct (tmul _ _); [|reflexivity]. cbn [rbind].
  destruct (tadd _ _); [|reflexivity]. cbn [rbind].
  destruct (tmul _ _); [|reflexivity]. cbn [rbind].
  destruct (tadd _ _); reflexivity.
Qed.

(** The two base terms of RSynaptic on tensors of one shape. *)
Lemma rsynaptic_base_entrywise (self : RSynaptic.t)
    (input_ spk syn mem : tensor) (a b v : Qc) :
  data (RSynaptic.alpha self) = [[a]] ->
  data (RSynaptic.beta self) = [[b]] ->
  data (RSynaptic.V self) = [[v]] ->
  shape spk = shape input_ -> shape syn = shape input_ ->
  shape mem = shape input_ ->
  exists base_syn base_mem,
    RSynaptic.base_state_function self input_
      (Tensor spk) (Tensor syn) (Tensor mem)
    = Ok (base_syn, base_mem)
    /\ data base_syn
       = zip_with3 (zip_with3 (base_entry a v))
           (data syn) (data input_) (data spk)
    /\ data base_mem
       = zip_with (zip_with (fun m y => clamp1 0 1 b * m + y))
           (data mem) (data base_syn)
    /\ shape base_syn = shape input_ /\ shape base_mem = shape input_.
Proof.
  intros Ha Hb Hv Hspk Hsyn Hmem.
  destruct (@base_term_entrywise (RSynaptic.alpha self) (RSynaptic.V self)
              syn input_ spk a v Ha Hv Hsyn Hspk)
    as (base_syn & Hbase & Hdata & Hshape & _).
  assert (Hm2 : exists base_mem,
             (decayed_mem <- tmul (clamp 0 1 (RSynaptic.beta self)) mem ;;
              tadd decayed_mem base_syn) = Ok base_mem
             /\ data base_mem
                = zip_with (zip_with (fun m y => clamp1 0 1 b * m + y))
                    (data mem) (data base_syn)
             /\ shape base_mem = shape input_).
  { unfold tmul, tadd.
    rewrite (@pointwise_number_l Qcmult (clamp 0 1 (RSynaptic.beta self))
               mem (clamp1 0 1 b)) by (simpl; now rewrite Hb).
    cbn [rbind].
    rewrite pointwise_same_shape
      by (unfold shape in *; cbn [data];
          now rewrite shape_map, Hmem, Hshape).
    eexists. split; [reflexivity|]. cbn [data]. split.
    - apply zip_with_map_l2.
    - unfold shape in *. cbn [data].
      rewrite shape_zip_with by (now rewrite shape_map, Hmem, Hshape).
      now rewrite shape_map. }
  destruct Hm2 as (base_mem & Hbm & Hdm & Hsm).
  exists base_syn, base_mem. split; [|repeat split; assumption].
  unfold RSynaptic.base_state_function. cbn [as_tensor].
  destruct (tmul (clamp 0 1 (RSynaptic.alpha self)) syn) as [d|e];
    [|discriminate Hbase].
  cbn [rbind] in *.
  destruct (tadd d input_) as [dr|e]; [|discriminate Hbase].
  cbn [rbind] in *.
  destruct (tmul (RSynaptic.V self) spk) as [rc|e]; [|discriminate Hbase].
  cbn [rbind] in *. rewrite Hbase. cbn [rbind].
  destruct (tmul (clamp 0 1 (RSynaptic.beta self)) mem) as [dm|e];
    [|discriminate Hbm].
  cbn [rbind] in *. now rewrite Hbm.
Qed.

(** X9: on a spike, a membrane and an input of one shape, with a number
    as decay rate and as recurrent weight, the base term of RLeaky is
    computed and never raises; its entry at each place is the clamped rate
    times the membrane plus the input plus the weight times the spike, at
    that place, and it has the shape of the input.  The hidden-state form
    computes the same from the stored tensors.  For RSynaptic the synaptic
    base is built this way from the synaptic current, and the membrane base
    adds it to the clamped [beta] times the membrane. *)
Theorem X9_base_term_entry_by_entry :
  (forall (self : RLeaky.t) (input_ spk mem : tensor) (b v : Qc),
     data (RLeaky.beta self) = [[b]] -> data (RLeaky.V self) = [[v]] ->
     shape spk = shape input_ -> shape mem = shape input_ ->
     exists base,
       RLeaky.base_state_function self input_ (Tensor spk) (Tensor mem)
       = Ok base
       /\ (RLeaky.spk self = Some (Tensor spk) ->
           RLeaky.mem self = Some (Tensor mem) ->
           RLeaky.base_state_function_hidden self input_ = Ok base)
       /\ data base
          = zip_with3 (zip_with3 (base_entry b v))
              (data mem) (data input_) (data spk)
       /\ shape base = shape input_)
  /\
  (forall (self : RSynaptic.t) (input_ spk syn mem : tensor) (a b v : Qc),
     data (RSynaptic.alpha self) = [[a]] ->
     data (RSynaptic.beta self) = [[b]] ->
     data (RSynaptic.V self) = [[v]] ->
     shape spk = shape input_ -> shape syn = shape input_ ->
     shape mem = shape input_ ->
     exists base_syn base_mem,
       RSynaptic.base_state_function self input_
         (Tensor spk) (Tensor syn) (Tensor mem)
       = Ok (base_syn, base_mem)
       /\ (RSynaptic.spk self = Some (Tensor spk) ->
           RSynaptic.syn self = Some (Tensor syn) ->
           RSynaptic.mem self = Some (Tensor mem) ->
           RSynaptic.base_state_function_hidden self input_
           = Ok (base_syn, base_mem))
       /\ data base_syn
          = zip_with3 (zip_with3 (base_entry a v))
              (data syn) (data input_) (data spk)
       /\ data base_mem
          = zip_with (zip_with (fun m y => clamp1 0 1 b * m + y))
              (data mem) (data base_syn)
       /\ shape base_syn = shape input_ /\ shape base_mem = shape input_).
Proof.
  split.
  - intros self input_ spk mem b v Hb Hv Hspk Hmem.
    destruct (@base_term_entrywise (RLeaky.beta self) (RLeaky.V self)
                mem input_ spk b v Hb Hv Hmem Hspk)
      as (base & Hbase & Hdata & Hshape & _).
    exists base. split; [exact Hbase|]. split; [|split; assumption].
    intros Hs Hm.
    now rewrite (@rleaky_base_hidden_stored self input_ (Tensor spk)
                   (Tensor mem) Hs Hm).
  - intros self input_ spk syn mem a b v Ha Hb Hv Hspk Hsyn Hmem.
    destruct (@rsynaptic_base_entrywise self input_ spk syn mem a b v
                Ha Hb Hv Hspk Hsyn Hmem)
      as (base_syn & base_mem & Hexp & Hrest).
    exists base_syn, base_mem. split; [exact Hexp|]. split; [|exact Hrest].
    intros Hs Hy Hm.
    now rewrite (@rsynaptic_base_hidden_stored self input_ (Tensor spk)
                   (Tensor syn) (Tensor mem) Hs Hy Hm).
Qed.

Lemma X9_base_term_entry_by_entry_witness :
  exists base,
    RLeaky.base_state_function (leaky false subtract false)
      (batch [[1; 2]; [3; 4]]%Q) (Tensor (batch [[0; 1]; [1; 0]]%Q))
      (Tensor (batch [[2; 2]; [4; 4]]%Q))
    = Ok base
    /\ (RLeaky.spk (leaky false subtract false)
        = Some (Tensor (batch [[0; 1]; [1; 0]]%Q)) ->
        RLeaky.mem (leaky false subtract false)
        = Some (Tensor (batch [[2; 2]; [4; 4]]%Q)) ->
        RLeaky.base_state_function_hidden (leaky false subtract false)
          (batch [[1; 2]; [3; 4]]%Q) = Ok base)
    /\ data base
       = zip_with3 (zip_with3 (base_entry (q 1 2) 1))
           (data (batch [[2; 2]; [4; 4]]%Q)) (data (batch [[1; 2]; [3; 4]]%Q))
           (data (batch [[0; 1]; [1; 0]]%Q))
    /\ shape base = shape (batch [[1; 2]; [3; 4]]%Q).
Proof.
  apply (proj1 X9_base_term_entry_by_entry); reflexivity.
Defined.

(** ** One step, entry by entry *)

Lemma zip_with_map_r {A B B' C} (g : A -> B' -> C) (h : B -> B')
    (a : list A) (b : list B) :
  zip_with g a (map h b) = zip_with (fun x y => g x (h y)) a b.
Proof.
  revert b. induction a as [|x a IH]; intros [|y b]; simpl; congruence.
Qed.

Lemma zip_with_map_r2 {A B B' C} (g : A -> B' -> C) (h : B -> B')
    (a : list (list A)) (b : list (list B)) :
  zip_with (zip_with g) a (map (map h) b)
  = zip_with (zip_with (fun x y => g x (h y))) a b.
Proof.
  revert b. induction a as [|x a IH]; intros [|y b]; simpl; try reflexivity.
  now rewrite zip_with_map_r, IH.
Qed.

Lemma zip_with_back {A B C D} (g : A -> C -> D) (f : B -> A -> C)
    (a : list A) (b : list B) :
  zip_with g a (zip_with f b a) = zip_with (fun x y => g x (f y x)) a b.
Proof.
  revert b. induction a as [|x a IH]; intros [|y b]; simpl; congruence.
Qed.

Lemma zip_with_back2 {A B C D} (g : A -> C -> D) (f : B -> A -> C)
    (a : list (list A)) (b : list (list B)) :
  zip_with (zip_with g) a (zip_with (zip_with f) b a)
  = zip_with (zip_with (fun x y => g x (f y x))) a b.
Proof.
  revert b. induction a as [|x a IH]; intros [|y b]; simpl; try reflexivity.
  now rewrite zip_with_back, IH.
Qed.

Lemma zip_with_zip_with3_map {A B C D E F} (g : D -> E -> F)
    (f : A -> B -> C -> D) (h : A -> E)
    (a : list A) (b : list B) (c : list C) :
  zip_with g (zip_with3 f a b c) (map h a)
  = zip_with3 (fun x y z => g (f x y z) (h x)) a b c.
Proof.
  revert b c.
  induction a as [|x a IH]; intros [|y b] [|z c]; simpl; try reflexivity.
  now rewrite IH.
Qed.

Lemma zip_with_zip_with3_map2 {A B C D E F} (g : D -> E -> F)
    (f : A -> B -> C -> D) (h : A -> E)
    (a : list (list A)) (b : list (list B)) (c : list (list C)) :
  zip_with (zip_with g) (zip_with3 (zip_with3 f) a b c) (map (map h) a)
  = zip_with3 (zip_with3 (fun x y z => g (f x y z) (h x))) a b c.
Proof.
  revert b c.
  induction a as [|x a IH]; intros [|y b] [|z c]; simpl; try reflexivity.
  now rewrite zip_with_zip_with3_map, IH.
Qed.

Lemma zip_with_fst2 {A B} (a : list (list A)) (b : list (list B)) :
  map (@length A) a = map (@length B) b ->
  zip_with (zip_with (fun x _ => x)) a b = a.
Proof.
  revert b. induction a as [|row rows IH]; intros [|row' rows'] H;
    simpl in H; try discriminate; [reflexivity|].
  injection H as Hrow Hrows. simpl. f_equal; [|now apply IH].
  clear -Hrow. revert row' Hrow.
  induction row as [|x row IH]; intros [|y row'] H; simpl in H;
    try discriminate; [reflexivity|].
  simpl. f_equal. apply IH. now injection H.
Qed.

(** The reset indicator and the spike against a threshold that is a
    number. *)
Lemma mem_reset_entrywise (threshold mem : tensor) (thr : Qc) :
  data threshold = [[thr]] ->
  mem_reset threshold mem
  = Ok (mkTensor (map (map (fun x => heaviside (x - thr))) (data mem)) false).
Proof.
  intro Hthr. unfold mem_reset, tsub.
  rewrite (@pointwise_number_r Qcminus mem threshold thr Hthr).
  cbn [rbind]. unfold detach_, tmap. cbn [data]. now rewrite map_map2.
Qed.

Lemma fire_entrywise (threshold mem : tensor) (thr : Qc) :
  data threshold = [[thr]] ->
  fire threshold mem
  = Ok (mkTensor (map (map (fun x => heaviside (x - thr))) (data mem))
                 (requires_grad mem || requires_grad threshold)).
Proof.
  intro Hthr. unfold fire, tsub.
  rewrite (@pointwise_number_r Qcminus mem threshold thr Hthr).
  cbn [rbind]. unfold tmap. cbn [data requires_grad]. now rewrite map_map2.
Qed.

(** [base - reset * threshold] and [base - reset * other], the reset
    indicator having the shape of the base. *)
Lemma subtract_entrywise (threshold base r : tensor) (thr : Qc) :
  data threshold = [[thr]] -> shape r = shape base ->
  exists m,
    (drop <- tmul r threshold ;; tsub base drop) = Ok m
    /\ data m
       = zip_with (zip_with (fun b rho => b - rho * thr)) (data base) (data r).
Proof.
  intros Hthr Hshape. unfold tmul, tsub.
  rewrite (@pointwise_number_r Qcmult r threshold thr Hthr). cbn [rbind].
  rewrite pointwise_same_shape
    by (unfold shape in *; cbn [data]; now rewrite shape_map).
  eexists. split; [reflexivity|]. cbn [data]. apply zip_with_map_r2.
Qed.

Lemma zero_entrywise (base r : tensor) :
  shape r = shape base ->
  exists m,
    (drop <- tmul r base ;; tsub base drop) = Ok m
    /\ data m
       = zip_with (zip_with (fun b rho => b - rho * b)) (data base) (data r).
Proof.
  intros Hshape. unfold tmul, tsub.
  rewrite pointwise_same_shape by exact Hshape. cbn [rbind].
  rewrite pointwise_same_shape
    by (unfold shape in *; cbn [data]; now rewrite shape_zip_with).
  eexists. split; [reflexivity|]. cbn [data]. apply zip_with_back2.
Qed.

(** The state function of the hidden-state RLeaky on a base term and a
    reset indicator of one shape. *)
Lemma rleaky_reset_entrywise (self : RLeaky.t) (input_ base r : tensor)
    (thr : Qc) :
  RLeaky.reset_mechanism_val self = 0%Z
  \/ RLeaky.reset_mechanism_val self = 1%Z
  \/ RLeaky.reset_mechanism_val self = 2%Z ->
  RLeaky.base_state_function_hidden self input_ = Ok base ->
  RLeaky.reset self = Some r ->
  data (RLeaky.threshold self) = [[thr]] ->
  shape r = shape base ->
  exists m,
    RLeaky.build_state_function_hidden self input_ = Ok m
    /\ data m
       = zip_with (zip_with (reset_entry (RLeaky.reset_mechanism_val self) thr))
           (data base) (data r).
Proof.
  intros Hval Hbase Hr Hthr Hshape.
  unfold RLeaky.build_state_function_hidden, reset_entry.
  rewrite Hbase, Hr. cbn [RLeaky.attr rbind].
  destruct Hval as [-> | [-> | ->]]; cbn [Z.eqb Pos.eqb].
  - exact (@subtract_entrywise _ base r thr Hthr Hshape).
  - exact (@zero_entrywise base r Hshape).
  - exists base. split; [reflexivity|].
    symmetry. apply zip_with_fst2. symmetry. exact Hshape.
Qed.

(** The state function of the hidden-state RSynaptic on base terms and a
    reset indicator of one shape. *)
Lemma rsynaptic_reset_entrywise (self : RSynaptic.t)
    (input_ base_syn base_mem r : tensor) (thr : Qc) :
  RSynaptic.reset_mechanism_val self = 0%Z
  \/ RSynaptic.reset_mechanism_val self = 1%Z
  \/ RSynaptic.reset_mechanism_val self = 2%Z ->
  RSynaptic.base_state_function_hidden self input_ = Ok (base_syn, base_mem) ->
  RSynaptic.reset self = Some r ->
  data (RSynaptic.threshold self) = [[thr]] ->
  shape r = shape base_syn -> shape r = shape base_mem ->
  exists y m,
    RSynaptic.build_state_function_hidden self input_ = Ok (y, m)
    /\ data y
       = zip_with
           (zip_with (syn_reset_entry (RSynaptic.reset_mechanism_val self)))
           (data base_syn) (data r)
    /\ data m
       = zip_with
           (zip_with (reset_entry (RSynaptic.reset_mechanism_val self) thr))
           (data base_mem) (data r).
Proof.
  intros Hval Hbase Hr Hthr Hss Hsm.
  unfold RSynaptic.build_state_function_hidden, reset_entry, syn_reset_entry.
  rewrite Hbase, Hr. cbn [RSynaptic.attr rbind].
  destruct Hval as [-> | [-> | ->]]; cbn [Z.eqb Pos.eqb].
  - destruct (@subtract_entrywise _ base_mem r thr Hthr Hsm) as (m & Hm & Hdm).
    unfold rbind in Hm |- *.
    destruct (tmul r (RSynaptic.threshold self)); [|discriminate Hm].
    rewrite tsub_number_zero, Hm.
    exists base_syn, m. split; [reflexivity|]. split; [|exact Hdm].
    symmetry. apply zip_with_fst2. symmetry. exact Hss.
  - destruct (@zero_entrywise base_syn r Hss) as (y & Hy & Hdy).
    destruct (@zero_entrywise base_mem r Hsm) as (m & Hm & Hdm).
    unfold rbind in Hy, Hm |- *.
    destruct (tmul r base_syn); [|discriminate Hy]. rewrite Hy.
    destruct (tmul r base_mem); [|discriminate Hm]. rewrite Hm.
    exists y, m. auto.
  - exists base_syn, base_mem. split; [reflexivity|].
    split; symmetry; apply zip_with_fst2; symmetry; assumption.
Qed.

(** The state function of a hidden-state RLeaky neuron that holds a spike
    and a membrane shaped like the input, the reset indicator being the one
    of the stored membrane. *)
Lemma rleaky_state_step (self : RLeaky.t) (input_ s m : tensor)
    (b v thr : Qc) :
  RLeaky.spk self = Some (Tensor s) -> RLeaky.mem self = Some (Tensor m) ->
  data (RLeaky.beta self) = [[b]] -> data (RLeaky.V self) = [[v]] ->
  data (RLeaky.threshold self) = [[thr]] ->
  shape s = shape input_ -> shape m = shape input_ ->
  RLeaky.reset_mechanism_val self = 0%Z
  \/ RLeaky.reset_mechanism_val self = 1%Z
  \/ RLeaky.reset_mechanism_val self = 2%Z ->
  exists m',
    RLeaky.build_state_function_hidden
      (RLeaky.set_reset
         (mkTensor (map (map (fun x => heaviside (x - thr))) (data m)) false)
         self) input_ = Ok m'
    /\ data m'
       = zip_with3
           (zip_with3
              (rleaky_step_entry (RLeaky.reset_mechanism_val self) b v thr))
           (data m) (data input_) (data s)
    /\ shape m' = shape input_.
Proof.
  intros Hs Hm Hb Hv Hthr Hss Hsm Hval.
  set (r := mkTensor (map (map (fun x => heaviside (x - thr))) (data m)) false).
  destruct (@base_term_entrywise (RLeaky.beta self) (RLeaky.V self)
              m input_ s b v Hb Hv Hsm Hss)
    as (base & Hbase & Hdata & Hshape & _).
  assert (Hr : shape r = shape base).
  { unfold shape, r in *. cbn [data]. now rewrite shape_map, Hshape. }
  destruct (@rleaky_reset_entrywise (RLeaky.set_reset r self) input_ base r thr)
    as (m' & Hm' & Hdm'); try assumption; try reflexivity.
  { rewrite (@rleaky_base_hidden_stored (RLeaky.set_reset r self) input_
               (Tensor s) (Tensor m) Hs Hm).
    exact Hbase. }
  cbn [RLeaky.set_reset RLeaky.reset_mechanism_val] in Hdm'.
  exists m'. split; [exact Hm'|]. split.
  - rewrite Hdm', Hdata. unfold r. cbn [data].
    apply zip_with_zip_with3_map2.
  - unfold shape in *. rewrite Hdm'.
    rewrite shape_zip_with by (symmetry; exact Hr). exact Hshape.
Qed.

(** The same for RSynaptic, in two stages: the base terms, then the
    reset. *)
Lemma rsynaptic_state_step (self : RSynaptic.t) (input_ s y m : tensor)
    (a b v thr : Qc) :
  RSynaptic.spk self = Some (Tensor s) ->
  RSynaptic.syn self = Some (Tensor y) ->
  RSynaptic.mem self = Some (Tensor m) ->
  data (RSynaptic.alpha self) = [[a]] ->
  data (RSynaptic.beta self) = [[b]] ->
  data (RSynaptic.V self) = [[v]] ->
  data (RSynaptic.threshold self) = [[thr]] ->
  shape s = shape input_ -> shape y = shape input_ ->
  shape m = shape input_ ->
  RSynaptic.reset_mechanism_val self = 0%Z
  \/ RSynaptic.reset_mechanism_val self = 1%Z
  \/ RSynaptic.reset_mechanism_val self = 2%Z ->
  exists y' m' base_syn base_mem,
    RSynaptic.build_state_function_hidden
      (RSynaptic.set_reset
         (mkTensor (map (map (fun x => heaviside (x - thr))) (data m)) false)
         self) input_ = Ok (y', m')
    /\ base_syn
       = zip_with3 (zip_with3 (base_entry a v))
           (data y) (data input_) (data s)
    /\ base_mem
       = zip_with (zip_with (fun u c => clamp1 0 1 b * u + c))
           (data m) base_syn
    /\ data y'
       = zip_with
           (zip_with
              (fun c u =>
                 syn_reset_entry (RSynaptic.reset_mechanism_val self) c
                   (heaviside (u - thr))))
           base_syn (data m)
    /\ data m'
       = zip_with
           (zip_with
              (fun c u =>
                 reset_entry (RSynaptic.reset_mechanism_val self) thr c
                   (heaviside (u - thr))))
           base_mem (data m)
    /\ shape y' = shape input_ /\ shape m' = shape input_.
Proof.
  intros Hs Hy Hm Ha Hb Hv Hthr Hss Hsy Hsm Hval.
  set (r := mkTensor (map (map (fun x => heaviside (x - thr))) (data m)) false).
  destruct (@rsynaptic_base_entrywise self input_ s y m a b v
              Ha Hb Hv Hss Hsy Hsm)
    as (base_syn & base_mem & Hbase & Hds & Hdm & Hshs & Hshm).
  assert (Hrs : shape r = shape base_syn).
  { unfold shape, r in *. cbn [data]. now rewrite shape_map, Hshs. }
  assert (Hrm : shape r = shape base_mem).
  { unfold shape, r in *. cbn [data]. now rewrite shape_map, Hshm. }
  destruct (@rsynaptic_reset_entrywise (RSynaptic.set_reset r self) input_
              base_syn base_mem r thr)
    as (y' & m' & Hbuild & Hdy' & Hdm'); try assumption; try reflexivity.
  { rewrite (@rsynaptic_base_hidden_stored (RSynaptic.set_reset r self) input_
               (Tensor s) (Tensor y) (Tensor m) Hs Hy Hm).
    exact Hbase. }
  cbn [RSynaptic.set_reset RSynaptic.reset_mechanism_val] in Hdy', Hdm'.
  exists y', m', (data base_syn), (data base_mem).
  split; [exact Hbuild|]. split; [exact Hds|]. split; [exact Hdm|].
  split; [rewrite Hdy'; unfold r; cbn [data]; apply zip_with_map_r2|].
  split; [rewrite Hdm'; unfold r; cbn [data]; apply zip_with_map_r2|].
  split.
  - unfold shape in *. rewrite Hdy'.
    rewrite shape_zip_with by (symmetry; exact Hrs). exact Hshs.
  - unfold shape in *. rewrite Hdm'.
    rewrite shape_zip_with by (symmetry; exact Hrm). exact Hshm.
Qed.

(** X10: one step of a hidden-state RLeaky neuron without inhibition, on a
    stored spike, a stored membrane and an input of one shape, with numbers
    as [beta], [V] and threshold and a reset code of 0, 1 or 2.  The call
    returns.  Each entry of the new membrane is the base term at that place
    (clamped [beta] times membrane, plus input, plus [V] times spike),
    reduced as the reset mechanism says where the old membrane exceeded the
    threshold; each entry of the new spike is 1 where the new membrane
    exceeds the threshold and 0 elsewhere.  Both are stored and have the
    shape of the input, so the next step meets the same conditions. *)
Theorem X10_rleaky_step_entry_by_entry :
  forall (self : RLeaky.t) (input_ s m : tensor) (b v thr : Qc),
    RLeaky.init_hidden self = true -> RLeaky.inhibition self = false ->
    RLeaky.spk self = Some (Tensor s) -> RLeaky.mem self = Some (Tensor m) ->
    data (RLeaky.beta self) = [[b]] -> data (RLeaky.V self) = [[v]] ->
    data (RLeaky.threshold self) = [[thr]] ->
    shape s = shape input_ -> shape m = shape input_ ->
    RLeaky.reset_mechanism_val self = 0%Z
    \/ RLeaky.reset_mechanism_val self = 1%Z
    \/ RLeaky.reset_mechanism_val self = 2%Z ->
    exists self' s' m',
      RLeaky.forward input_ PFalse PFalse self
      = (self', Ok (if RLeaky.output self then RLeaky.SpkMem s' m'
                    else RLeaky.Spk s'))
      /\ data m'
         = zip_with3
             (zip_with3
                (rleaky_step_entry (RLeaky.reset_mechanism_val self) b v thr))
             (data m) (data input_) (data s)
      /\ data s' = map (map (fun u => heaviside (u - thr))) (data m')
      /\ RLeaky.spk self' = Some (Tensor s')
      /\ RLeaky.mem self' = Some (Tensor m')
      /\ shape s' = shape input_ /\ shape m' = shape input_.
Proof.
  intros self input_ s m b v thr Hh Hinh Hs Hm Hb Hv Hthr Hss Hsm Hval.
  rewrite (@rleaky_forward_hidden_total self input_ (Tensor s) (Tensor m)
             Hh Hs Hm eq_refl).
  assert (Hlazy : rleaky_lazy_init input_ self = self).
  { unfold rleaky_lazy_init. now rewrite Hs, Hm. }
  rewrite Hlazy. cbn [initialised received any_marker existsb orb hasattr_init_flag
       as_tensor].
  rewrite (@mem_reset_entrywise (RLeaky.threshold self) m thr Hthr).
  destruct (@rleaky_state_step self input_ s m b v thr
              Hs Hm Hb Hv Hthr Hss Hsm Hval)
    as (m' & Hm' & Hdm' & Hshape').
  rewrite Hm'. unfold RLeaky.spike. rewrite Hinh.
  rewrite (@fire_entrywise (RLeaky.threshold self) m' thr Hthr).
  eexists _, _, _. split; [reflexivity|]. cbn [data].
  split; [exact Hdm'|]. split; [reflexivity|].
  repeat split; try exact Hshape'.
  unfold shape in *. cbn [data]. now rewrite shape_map.
Qed.

Lemma X10_rleaky_step_entry_by_entry_witness :
  exists self' s' m',
    RLeaky.forward (batch [[1; 2]; [3; 4]]%Q) PFalse PFalse
      (leaky_holding subtract (batch [[0; 1]; [1; 0]]%Q)
         (batch [[2; 1]; [4; 0]]%Q))
    = (self', Ok (if RLeaky.output
                       (leaky_holding subtract (batch [[0; 1]; [1; 0]]%Q)
                          (batch [[2; 1]; [4; 0]]%Q))
                  then RLeaky.SpkMem s' m' else RLeaky.Spk s'))
    /\ data m'
       = zip_with3 (zip_with3 (rleaky_step_entry 0 (q 1 2) 1 1))
           (data (batch [[2; 1]; [4; 0]]%Q))
           (data (batch [[1; 2]; [3; 4]]%Q))
           (data (batch [[0; 1]; [1; 0]]%Q))
    /\ data s' = map (map (fun u => heaviside (u - 1))) (data m')
    /\ RLeaky.spk self' = Some (Tensor s')
    /\ RLeaky.mem self' = Some (Tensor m')
    /\ shape s' = shape (batch [[1; 2]; [3; 4]]%Q)
    /\ shape m' = shape (batch [[1; 2]; [3; 4]]%Q).
Proof.
  apply (@X10_rleaky_step_entry_by_entry
           (leaky_holding subtract (batch [[0; 1]; [1; 0]]%Q)
              (batch [[2; 1]; [4; 0]]%Q))
           (batch [[1; 2]; [3; 4]]%Q) (batch [[0; 1]; [1; 0]]%Q)
           (batch [[2; 1]; [4; 0]]%Q) (q 1 2) 1 1);
    first [reflexivity | left; reflexivity].
Defined.

(** X11: one step of a hidden-state RSynaptic neuron without inhibition, on
    stored states and an input of one shape, with numbers as [alpha],
    [beta], [V] and threshold and a reset code of 0, 1 or 2.  The call
    returns.  The synaptic base is, entry by entry, clamped [alpha] times
    the current plus the input plus [V] times the spike, and the membrane
    base adds it to clamped [beta] times the membrane.  Where the old
    membrane exceeded the threshold the new membrane is the membrane base
    reduced as the reset mechanism says, and the new current is its base,
    except under reset to zero, which takes the base off it as well.  The
    new spike is 1 where the new membrane exceeds the threshold.  All three
    are stored and have the shape of the input. *)
Theorem X11_rsynaptic_step_entry_by_entry :
  forall (self : RSynaptic.t) (input_ s y m : tensor) (a b v thr : Qc),
    RSynaptic.init_hidden self = true -> RSynaptic.inhibition self = false ->
    RSynaptic.spk self = Some (Tensor s) ->
    RSynaptic.syn self = Some (Tensor y) ->
    RSynaptic.mem self = Some (Tensor m) ->
    data (RSynaptic.alpha self) = [[a]] ->
    data (RSynaptic.beta self) = [[b]] ->
    data (RSynaptic.V self) = [[v]] ->
    data (RSynaptic.threshold self) = [[thr]] ->
    shape s = shape input_ -> shape y = shape input_ ->
    shape m = shape input_ ->
    RSynaptic.reset_mechanism_val self = 0%Z
    \/ RSynaptic.reset_mechanism_val self = 1%Z
    \/ RSynaptic.reset_mechanism_val self = 2%Z ->
    exists self' s' y' m' base_syn base_mem,
      RSynaptic.forward input_ PFalse PFalse PFalse self
      = (self', Ok (if RSynaptic.output self
                    then RSynaptic.SpkSynMem s' y' m'
                    else RSynaptic.Spk s'))
      /\ base_syn
         = zip_with3 (zip_with3 (base_entry a v))
             (data y) (data input_) (data s)
      /\ base_mem
         = zip_with (zip_with (fun u c => clamp1 0 1 b * u + c))
             (data m) base_syn
      /\ data y'
         = zip_with
             (zip_with
                (fun c u =>
                   syn_reset_entry (RSynaptic.reset_mechanism_val self) c
                     (heaviside (u - thr))))
             base_syn (data m)
      /\ data m'
         = zip_with
             (zip_with
                (fun c u =>
                   reset_entry (RSynaptic.reset_mechanism_val self) thr c
                     (heaviside (u - thr))))
             base_mem (data m)
      /\ data s' = map (map (fun u => heaviside (u - thr))) (data m')
      /\ RSynaptic.spk self' = Some (Tensor s')
      /\ RSynaptic.syn self' = Some (Tensor y')
      /\ RSynaptic.mem self' = Some (Tensor m')
      /\ shape s' = shape input_ /\ shape y' = shape input_
      /\ shape m' = shape input_.
Proof.
  intros self input_ s y m a b v thr Hh Hinh Hs Hy Hm Ha Hb Hv Hthr
    Hss Hsy Hsm Hval.
  rewrite (@rsynaptic_forward_hidden_total self input_ (Tensor s) (Tensor y)
             (Tensor m) Hh Hs Hy Hm eq_refl eq_refl).
  assert (Hlazy : rsynaptic_lazy_init input_ self = self).
  { unfold rsynaptic_lazy_init. now rewrite Hs, Hy, Hm. }
  rewrite Hlazy. cbn [initialised received any_marker existsb orb hasattr_init_flag
       as_tensor].
  rewrite (@mem_reset_entrywise (RSynaptic.threshold self) m thr Hthr).
  destruct (@rsynaptic_state_step self input_ s y m a b v thr
              Hs Hy Hm Ha Hb Hv Hthr Hss Hsy Hsm Hval)
    as (y' & m' & base_syn & base_mem & Hbuild & Hds & Hdm & Hdy' & Hdm'
        & Hshy' & Hshm').
  rewrite Hbuild. unfold RSynaptic.spike. rewrite Hinh.
  rewrite (@fire_entrywise (RSynaptic.threshold self) m' thr Hthr).
  eexists _, _, y', m', base_syn, base_mem.
  split; [reflexivity|]. cbn [data].
  repeat (split; [assumption|]).
  split; [reflexivity|].
  repeat split; try assumption.
  unfold shape in *. cbn [data]. now rewrite shape_map.
Qed.

Lemma X11_rsynaptic_step_entry_by_entry_witness :
  exists self' s' y' m' base_syn base_mem,
    RSynaptic.forward (batch [[1; 2]; [3; 4]]%Q) PFalse PFalse PFalse
      (synaptic_holding zero (batch [[0; 1]; [1; 0]]%Q)
         (batch [[1; 1]; [2; 2]]%Q) (batch [[2; 1]; [4; 0]]%Q))
    = (self', Ok (if RSynaptic.output
                       (synaptic_holding zero (batch [[0; 1]; [1; 0]]%Q)
                          (batch [[1; 1]; [2; 2]]%Q)
                          (batch [[2; 1]; [4; 0]]%Q))
                  then RSynaptic.SpkSynMem s' y' m'
                  else RSynaptic.Spk s'))
    /\ base_syn
       = zip_with3 (zip_with3 (base_entry (q 1 2) 1))
           (data (batch [[1; 1]; [2; 2]]%Q))
           (data (batch [[1; 2]; [3; 4]]%Q))
           (data (batch [[0; 1]; [1; 0]]%Q))
    /\ base_mem
       = zip_with (zip_with (fun u c => clamp1 0 1 (q 1 2) * u + c))
           (data (batch [[2; 1]; [4; 0]]%Q)) base_syn
    /\ data y'
       = zip_with
           (zip_with (fun c u => syn_reset_entry 1 c (heaviside (u - 1))))
           base_syn (data (batch [[2; 1]; [4; 0]]%Q))
    /\ data m'
       = zip_with
           (zip_with (fun c u => reset_entry 1 1 c (heaviside (u - 1))))
           base_mem (data (batch [[2; 1]; [4; 0]]%Q))
    /\ data s' = map (map (fun u => heaviside (u - 1))) (data m')
    /\ RSynaptic.spk self' = Some (Tensor s')
    /\ RSynaptic.syn self' = Some (Tensor y')
    /\ RSynaptic.mem self' = Some (Tensor m')
    /\ shape s' = shape (batch [[1; 2]; [3; 4]]%Q)
    /\ shape y' = shape (batch [[1; 2]; [3; 4]]%Q)
    /\ shape m' = shape (batch [[1; 2]; [3; 4]]%Q).
Proof.
  apply (@X11_rsynaptic_step_entry_by_entry
           (synaptic_holding zero (batch [[0; 1]; [1; 0]]%Q)
              (batch [[1; 1]; [2; 2]]%Q) (batch [[2; 1]; [4; 0]]%Q))
           (batch [[1; 2]; [3; 4]]%Q) (batch [[0; 1]; [1; 0]]%Q)
           (batch [[1; 1]; [2; 2]]%Q) (batch [[2; 1]; [4; 0]]%Q)
           (q 1 2) (q 1 2) 1 1);
    first [reflexivity | right; left; reflexivity].
Defined.

(** ** The first step of a neuron *)

Lemma zip_with3_map3 {A B C D} (g : B -> A -> C -> D) (h : A -> B) (k : A -> C)
    (l : list A) :
  zip_with3 g (map h l) l (map k l) = map (fun x => g (h x) x (k x)) l.
Proof. induction l; simpl; congruence. Qed.

Lemma zip_with3_map32 {A B C D} (g : B -> A -> C -> D) (h : A -> B)
    (k : A -> C) (l : list (list A)) :
  zip_with3 (zip_with3 g) (map (map h) l) l (map (map k) l)
  = map (map (fun x => g (h x) x (k x))) l.
Proof.
  induction l as [|r l IH]; simpl; [reflexivity|].
  now rewrite zip_with3_map3, IH.
Qed.

Lemma map_id_ext2 {A} (f : A -> A) (l : list (list A)) :
  (forall x, f x = x) -> map (map f) l = l.
Proof.
  intro H. rewrite <- (map_id2 l) at 2. now apply map_ext2.
Qed.

Lemma zip_with_zeros_l (g : Qc -> Qc -> Qc) (l : list (list Qc)) :
  (forall x, g 0 x = x) ->
  zip_with (zip_with g) (map (map (fun _ => 0)) l) l = l.
Proof.
  intro H. rewrite <- (map_id2 l) at 2. rewrite zip_with_map2.
  now apply map_id_ext2.
Qed.

Lemma zip_with_zeros_r (g : Qc -> Qc -> Qc) (l : list (list Qc)) :
  (forall x, g x 0 = x) ->
  zip_with (zip_with g) l (map (map (fun _ => 0)) l) = l.
Proof.
  intro H. rewrite <- (map_id2 l) at 1. rewrite zip_with_map2.
  now apply map_id_ext2.
Qed.

(** Below a positive threshold a zero membrane calls for no reset. *)
Lemma heaviside_zero_state (thr : Qc) : 0 < thr -> heaviside (0 - thr) = 0.
Proof.
  intro H. apply heaviside_not_above, Qc_not_above_shift, Qclt_le_weak, H.
Qed.

Lemma reset_entry_no_reset (val : Z) (thr base : Qc) :
  val = 0%Z \/ val = 1%Z \/ val = 2%Z -> reset_entry val thr base 0 = base.
Proof.
  unfold reset_entry. intros [-> | [-> | ->]]; cbn [Z.eqb Pos.eqb];
    try reflexivity; ring.
Qed.

Lemma syn_reset_entry_no_reset (val : Z) (base : Qc) :
  syn_reset_entry val base 0 = base.
Proof. unfold syn_reset_entry. destruct (val =? 1)%Z; [ring | reflexivity]. Qed.

Lemma base_entry_zero_state (rate v x : Qc) : base_entry rate v 0 x 0 = x.
Proof. unfold base_entry. ring. Qed.

(** The membrane after a step from zero states is the input. *)
Lemma rleaky_first_step_entries (val : Z) (b v thr : Qc)
    (l : list (list Qc)) :
  0 < thr -> val = 0%Z \/ val = 1%Z \/ val = 2%Z ->
  zip_with3 (zip_with3 (rleaky_step_entry val b v thr))
    (map (map (fun _ => 0)) l) l (map (map (fun _ => 0)) l)
  = l.
Proof.
  intros Hthr Hval. rewrite zip_with3_map32. apply map_id_ext2. intro x.
  unfold rleaky_step_entry.
  now rewrite (heaviside_zero_state Hthr), base_entry_zero_state,
    reset_entry_no_reset.
Qed.

(** With a number as threshold the spike is always decided. *)
Lemma rleaky_spike_total (self : RLeaky.t) (m : tensor) (thr : Qc) :
  data (RLeaky.threshold self) = [[thr]] ->
  exists s, RLeaky.spike self m = Ok s.
Proof.
  intro Hthr. unfold RLeaky.spike, fire_inhibition, fire, tsub.
  rewrite (@pointwise_number_r Qcminus m _ thr Hthr).
  destruct (RLeaky.inhibition self); eexists; reflexivity.
Qed.

Lemma rsynaptic_spike_total (self : RSynaptic.t) (m : tensor) (thr : Qc) :
  data (RSynaptic.threshold self) = [[thr]] ->
  exists s, RSynaptic.spike self m = Ok s.
Proof.
  intro Hthr. unfold RSynaptic.spike, fire_inhibition, fire, tsub.
  rewrite (@pointwise_number_r Qcminus m _ thr Hthr).
  destruct (RSynaptic.inhibition self); eexists; reflexivity.
Qed.

(** The state function on zero states shaped like the input. *)
Lemma rleaky_state_first_step (self : RLeaky.t) (input_ : tensor)
    (b v thr : Qc) :
  RLeaky.spk self = Some (Tensor (zeros_like_grad input_)) ->
  RLeaky.mem self = Some (Tensor (zeros_like_grad input_)) ->
  data (RLeaky.beta self) = [[b]] -> data (RLeaky.V self) = [[v]] ->
  data (RLeaky.threshold self) = [[thr]] -> 0 < thr ->
  RLeaky.reset_mechanism_val self = 0%Z
  \/ RLeaky.reset_mechanism_val self = 1%Z
  \/ RLeaky.reset_mechanism_val self = 2%Z ->
  exists r m',
    mem_reset (RLeaky.threshold self) (zeros_like_grad input_) = Ok r
    /\ RLeaky.build_state_function_hidden (RLeaky.set_reset r self) input_
       = Ok m'
    /\ data m' = data input_ /\ data r = data (zeros_like_grad input_).
Proof.
  intros Hs Hm Hb Hv Hthr Hpos Hval.
  assert (Hz : shape (zeros_like_grad input_) = shape input_).
  { unfold shape, zeros_like_grad, zeros_like. cbn [data]. apply shape_map. }
  rewrite (@mem_reset_entrywise (RLeaky.threshold self) (zeros_like_grad input_)
             thr Hthr).
  destruct (@rleaky_state_step self input_ (zeros_like_grad input_)
              (zeros_like_grad input_) b v thr Hs Hm Hb Hv Hthr Hz Hz Hval)
    as (m' & Hm' & Hdm' & _).
  eexists _, m'. split; [reflexivity|]. split; [exact Hm'|]. split.
  - rewrite Hdm'. unfold zeros_like_grad, zeros_like. cbn [data].
    now apply rleaky_first_step_entries.
  - unfold zeros_like_grad, zeros_like. cbn [data]. rewrite map_map2.
    apply map_ext2. intros _. now apply heaviside_zero_state.
Qed.

Lemma rsynaptic_state_first_step (self : RSynaptic.t) (input_ : tensor)
    (a b v thr : Qc) :
  RSynaptic.spk self = Some (Tensor (zeros_like_grad input_)) ->
  RSynaptic.syn self = Some (Tensor (zeros_like_grad input_)) ->
  RSynaptic.mem self = Some (Tensor (zeros_like_grad input_)) ->
  data (RSynaptic.alpha self) = [[a]] ->
  data (RSynaptic.beta self) = [[b]] ->
  data (RSynaptic.V self) = [[v]] ->
  data (RSynaptic.threshold self) = [[thr]] -> 0 < thr ->
  RSynaptic.reset_mechanism_val self = 0%Z
  \/ RSynaptic.reset_mechanism_val self = 1%Z
  \/ RSynaptic.reset_mechanism_val self = 2%Z ->
  exists r y' m',
    mem_reset (RSynaptic.threshold self) (zeros_like_grad input_) = Ok r
    /\ RSynaptic.build_state_function_hidden (RSynaptic.set_reset r self)
         input_ = Ok (y', m')
    /\ data y' = data input_ /\ data m' = data input_
    /\ data r = data (zeros_like_grad input_).
Proof.
  intros Hs Hy Hm Ha Hb Hv Hthr Hpos Hval.
  assert (Hz : shape (zeros_like_grad input_) = shape input_).
  { unfold shape, zeros_like_grad, zeros_like. cbn [data]. apply shape_map. }
  rewrite (@mem_reset_entrywise (RSynaptic.threshold self) (zeros_like_grad input_)
             thr Hthr).
  destruct (@rsynaptic_state_step self input_ (zeros_like_grad input_)
              (zeros_like_grad input_) (zeros_like_grad input_) a b v thr
              Hs Hy Hm Ha Hb Hv Hthr Hz Hz Hz Hval)
    as (y' & m' & base_syn & base_mem & Hbuild & Hds & Hdm & Hdy' & Hdm' & _).
  assert (Hbs : base_syn = data input_).
  { rewrite Hds. unfold zeros_like_grad, zeros_like. cbn [data]. rewrite zip_with3_map32.
    apply map_id_ext2. intro x. apply base_entry_zero_state. }
  assert (Hbm : base_mem = data input_).
  { rewrite Hdm, Hbs. unfold zeros_like_grad, zeros_like. cbn [data].
    apply zip_with_zeros_l. intro x. ring. }
  eexists _, y', m'. split; [reflexivity|]. split; [exact Hbuild|].
  split; [|split].
  - rewrite Hdy', Hbs. unfold zeros_like_grad, zeros_like. cbn [data].
    apply zip_with_zeros_r. intro x.
    rewrite (heaviside_zero_state Hpos). apply syn_reset_entry_no_reset.
  - rewrite Hdm', Hbm. unfold zeros_like_grad, zeros_like. cbn [data].
    apply zip_with_zeros_r. intro x.
    rewrite (heaviside_zero_state Hpos). now apply reset_entry_no_reset.
  - unfold zeros_like_grad, zeros_like. cbn [data]. rewrite map_map2.
    apply map_ext2. intros _. now apply heaviside_zero_state.
Qed.

Lemma rsynaptic_base_first_step (self : RSynaptic.t) (input_ : tensor)
    (a b v : Qc) :
  data (RSynaptic.alpha self) = [[a]] ->
  data (RSynaptic.beta self) = [[b]] ->
  data (RSynaptic.V self) = [[v]] ->
  exists base_syn base_mem,
    RSynaptic.base_state_function self input_ (Tensor (zeros_like_grad input_))
      (Tensor (zeros_like_grad input_)) (Tensor (zeros_like_grad input_))
    = Ok (base_syn, base_mem)
    /\ data base_syn = data input_ /\ data base_mem = data input_.
Proof.
  intros Ha Hb Hv.
  assert (Hz : shape (zeros_like_grad input_) = shape input_).
  { unfold shape, zeros_like_grad, zeros_like. cbn [data]. apply shape_map. }
  destruct (@rsynaptic_base_entrywise self input_ (zeros_like_grad input_)
              (zeros_like_grad input_) (zeros_like_grad input_) a b v
              Ha Hb Hv Hz Hz Hz)
    as (base_syn & base_mem & Hbase & Hds & Hdm & _).
  assert (Hbs : data base_syn = data input_).
  { rewrite Hds. unfold zeros_like_grad, zeros_like. cbn [data]. rewrite zip_with3_map32.
    apply map_id_ext2. intro x. apply base_entry_zero_state. }
  exists base_syn, base_mem. split; [exact Hbase|]. split; [exact Hbs|].
  rewrite Hdm, Hbs. unfold zeros_like_grad, zeros_like. cbn [data].
  apply zip_with_zeros_l. intro x. ring.
Qed.

(** X12: the first step of a neuron takes the input as its state.  A
    hidden-state neuron whose stored states still bear the marker, and an
    explicit-state neuron handed the markers of [init_rleaky] or
    [init_rsynaptic], with numbers as decay rates, [V] and a positive
    threshold, return from [forward] with a membrane (and a synaptic
    current) whose entries are those of the input, whatever the decay
    rates, the recurrent weight and the reset mechanism; the spike is the
    one decided on that membrane, and the hidden-state form stores both.
    The explicit-state RLeaky with reset to zero is left out: it returns
    from no call. *)
Theorem X12_first_step_takes_the_input :
  (forall (self : RLeaky.t) (input_ : tensor) (b v thr : Qc),
     RLeaky.init_hidden self = true ->
     RLeaky.spk self = Some SpikeTensor ->
     RLeaky.mem self = Some SpikeTensor ->
     data (RLeaky.beta self) = [[b]] -> data (RLeaky.V self) = [[v]] ->
     data (RLeaky.threshold self) = [[thr]] -> 0 < thr ->
     RLeaky.reset_mechanism_val self = 0%Z
     \/ RLeaky.reset_mechanism_val self = 1%Z
     \/ RLeaky.reset_mechanism_val self = 2%Z ->
     exists self' s' m',
       RLeaky.forward input_ PFalse PFalse self
       = (self', Ok (if RLeaky.output self then RLeaky.SpkMem s' m'
                     else RLeaky.Spk s'))
       /\ data m' = data input_
       /\ RLeaky.spike self m' = Ok s'
       /\ RLeaky.spk self' = Some (Tensor s')
       /\ RLeaky.mem self' = Some (Tensor m'))
  /\
  (forall (self : RLeaky.t) (input_ : tensor) (b v thr : Qc),
     RLeaky.init_hidden self = false ->
     data (RLeaky.beta self) = [[b]] -> data (RLeaky.V self) = [[v]] ->
     data (RLeaky.threshold self) = [[thr]] -> 0 < thr ->
     RLeaky.reset_mechanism_val self = 0%Z
     \/ RLeaky.reset_mechanism_val self = 2%Z ->
     exists self' s' m',
       RLeaky.forward input_ SpikeTensor SpikeTensor self
       = (self', Ok (RLeaky.SpkMem s' m'))
       /\ data m' = data input_
       /\ RLeaky.spike self m' = Ok s')
  /\
  (forall (self : RSynaptic.t) (input_ : tensor) (a b v thr : Qc),
     RSynaptic.init_hidden self = true ->
     RSynaptic.spk self = Some SpikeTensor ->
     RSynaptic.syn self = Some SpikeTensor ->
     RSynaptic.mem self = Some SpikeTensor ->
     data (RSynaptic.alpha self) = [[a]] ->
     data (RSynaptic.beta self) = [[b]] ->
     data (RSynaptic.V self) = [[v]] ->
     data (RSynaptic.threshold self) = [[thr]] -> 0 < thr ->
     RSynaptic.reset_mechanism_val self = 0%Z
     \/ RSynaptic.reset_mechanism_val self = 1%Z
     \/ RSynaptic.reset_mechanism_val self = 2%Z ->
     exists self' s' y' m',
       RSynaptic.forward input_ PFalse PFalse PFalse self
       = (self', Ok (if RSynaptic.output self
                     then RSynaptic.SpkSynMem s' y' m'
                     else RSynaptic.Spk s'))
       /\ data y' = data input_ /\ data m' = data input_
       /\ RSynaptic.spike self m' = Ok s'
       /\ RSynaptic.spk self' = Some (Tensor s')
       /\ RSynaptic.syn self' = Some (Tensor y')
       /\ RSynaptic.mem self' = Some (Tensor m'))
  /\
  (forall (self : RSynaptic.t) (input_ : tensor) (a b v thr : Qc),
     RSynaptic.init_hidden self = false ->
     data (RSynaptic.alpha self) = [[a]] ->
     data (RSynaptic.beta self) = [[b]] ->
     data (RSynaptic.V self) = [[v]] ->
     data (RSynaptic.threshold self) = [[thr]] -> 0 < thr ->
     RSynaptic.reset_mechanism_val self = 0%Z
     \/ RSynaptic.reset_mechanism_val self = 1%Z
     \/ RSynaptic.reset_mechanism_val self = 2%Z ->
     exists self' s' y' m',
       RSynaptic.forward input_ SpikeTensor SpikeTensor SpikeTensor self
       = (self', Ok (RSynaptic.SpkSynMem s' y' m'))
       /\ data y' = data input_ /\ data m' = data input_
       /\ RSynaptic.spike self m' = Ok s').
Proof.
  repeat apply conj.
  - intros self input_ b v thr Hh Hs Hm Hb Hv Hthr Hpos Hval.
    rewrite (@rleaky_forward_hidden_total self input_ SpikeTensor SpikeTensor
               Hh Hs Hm eq_refl).
    unfold rleaky_lazy_init. rewrite Hs, Hm.
    cbn [initialised received any_marker existsb orb hasattr_init_flag
         as_tensor zero_state].
    unfold zero_state.
    set (self0 := RLeaky.set_mem (Tensor (zeros_like_grad input_))
                    (RLeaky.set_spk (Tensor (zeros_like_grad input_)) self)).
    destruct (@rleaky_state_first_step self0 input_ b v thr
                eq_refl eq_refl Hb Hv Hthr Hpos Hval)
      as (r & m' & Hr & Hm' & Hdm' & _).
    change (RLeaky.threshold self0) with (RLeaky.threshold self) in Hr.
    rewrite Hr, Hm'.
    destruct (@rleaky_spike_total self m' thr Hthr) as (s' & Hs').
    rewrite Hs'. eexists _, s', m'. split; [reflexivity|]. repeat split; auto.
  - intros self input_ b v thr Hh Hb Hv Hthr Hpos Hval.
    rewrite (@rleaky_forward_explicit_total self input_ SpikeTensor
               SpikeTensor Hh eq_refl eq_refl).
    cbn [initialised received any_marker existsb orb hasattr_init_flag
         as_tensor zero_state].
    unfold zero_state.
    set (self0 := RLeaky.set_mem (Tensor (zeros_like_grad input_))
                    (RLeaky.set_spk (Tensor (zeros_like_grad input_)) self)).
    assert (Hval3 : RLeaky.reset_mechanism_val self0 = 0%Z
                    \/ RLeaky.reset_mechanism_val self0 = 1%Z
                    \/ RLeaky.reset_mechanism_val self0 = 2%Z)
      by (destruct Hval; auto).
    destruct (@rleaky_state_first_step self0 input_ b v thr
                eq_refl eq_refl Hb Hv Hthr Hpos Hval3)
      as (r & m' & Hr & Hm' & Hdm' & _).
    change (RLeaky.threshold self0) with (RLeaky.threshold self) in Hr.
    rewrite Hr.
    rewrite <- (@rleaky_state_functions_agree (RLeaky.set_reset r self0)
                  (RLeaky.set_reset r self) input_ (zeros_like_grad input_)
                  (zeros_like_grad input_))
      by (try reflexivity;
          cbn [RLeaky.set_reset RLeaky.reset_mechanism_val self0
               RLeaky.set_mem RLeaky.set_spk];
          destruct Hval as [-> | ->]; discriminate).
    rewrite Hm'.
    destruct (@rleaky_spike_total self m' thr Hthr) as (s' & Hs').
    rewrite Hs'. eexists _, s', m'. split; [reflexivity|]. split; auto.
  - intros self input_ a b v thr Hh Hs Hy Hm Ha Hb Hv Hthr Hpos Hval.
    rewrite (@rsynaptic_forward_hidden_total self input_ SpikeTensor
               SpikeTensor SpikeTensor Hh Hs Hy Hm eq_refl eq_refl).
    unfold rsynaptic_lazy_init. rewrite Hs, Hy, Hm.
    cbn [initialised received any_marker existsb orb hasattr_init_flag
         as_tensor zero_state].
    unfold zero_state.
    set (self0 := RSynaptic.set_mem (Tensor (zeros_like_grad input_))
                    (RSynaptic.set_syn (Tensor (zeros_like_grad input_))
                       (RSynaptic.set_spk (Tensor (zeros_like_grad input_)) self))).
    destruct (@rsynaptic_state_first_step self0 input_ a b v thr
                eq_refl eq_refl eq_refl Ha Hb Hv Hthr Hpos Hval)
      as (r & y' & m' & Hr & Hbuild & Hdy' & Hdm' & _).
    change (RSynaptic.threshold self0) with (RSynaptic.threshold self) in Hr.
    rewrite Hr, Hbuild.
    destruct (@rsynaptic_spike_total self m' thr Hthr) as (s' & Hs').
    rewrite Hs'. eexists _, s', y', m'. split; [reflexivity|].
    repeat split; auto.
  - intros self input_ a b v thr Hh Ha Hb Hv Hthr Hpos Hval.
    rewrite (@rsynaptic_forward_explicit_total self input_ SpikeTensor
               SpikeTensor SpikeTensor Hh eq_refl eq_refl).
    cbn [initialised received any_marker existsb orb hasattr_init_flag
         as_tensor zero_state].
    unfold zero_state.
    set (self0 := RSynaptic.set_mem (Tensor (zeros_like_grad input_))
                    (RSynaptic.set_syn (Tensor (zeros_like_grad input_))
                       (RSynaptic.set_spk (Tensor (zeros_like_grad input_)) self))).
    destruct (@rsynaptic_state_first_step self0 input_ a b v thr
                eq_refl eq_refl eq_refl Ha Hb Hv Hthr Hpos Hval)
      as (r & y' & m' & Hr & Hbuild & Hdy' & Hdm' & Hdr).
    change (RSynaptic.threshold self0) with (RSynaptic.threshold self) in Hr.
    rewrite Hr.
    assert (Hexp : exists y m,
               RSynaptic.build_state_function (RSynaptic.set_reset r self)
                 input_ (Tensor (zeros_like_grad input_))
                 (Tensor (zeros_like_grad input_)) (Tensor (zeros_like_grad input_))
               = Ok (y, m)
               /\ data y = data input_ /\ data m = data input_).
    { destruct (Z.eq_dec (RSynaptic.reset_mechanism_val self) 1) as [H1|H1].
      - destruct (@rsynaptic_base_first_step (RSynaptic.set_reset r self)
                    input_ a b v Ha Hb Hv)
          as (bs & bm & Hbase & Hbs & Hbm).
        destruct (@syn_zero_explicit (RSynaptic.set_reset r self) input_
                    (Tensor (zeros_like_grad input_)) (Tensor (zeros_like_grad input_))
                    (Tensor (zeros_like_grad input_)) bs bm r 0 H1 Hbase eq_refl)
          as (y & m & Hb' & Hy' & Hm2);
          [now rewrite Hdr, Hbs | now rewrite Hdr, Hbm |].
        exists y, m. split; [exact Hb'|]. split; [now rewrite Hy'|].
        rewrite Hm2, <- Hbm. apply map_id_ext2. intro x. ring.
      - exists y', m'. split; [|split; assumption].
        rewrite <- (@rsynaptic_state_functions_agree
                      (RSynaptic.set_reset r self0)
                      (RSynaptic.set_reset r self) input_ (zeros_like_grad input_)
                      (zeros_like_grad input_) (zeros_like_grad input_))
          by (try reflexivity; exact H1).
        exact Hbuild. }
    destruct Hexp as (y & m & Hb' & Hy' & Hm2). rewrite Hb'.
    destruct (@rsynaptic_spike_total self m thr Hthr) as (s' & Hs').
    rewrite Hs'. eexists _, s', y, m. split; [reflexivity|]. repeat split; auto.
Qed.

Lemma X12_first_step_takes_the_input_witness :
  (exists self' s' m',
     RLeaky.forward (batch [[1; 2]; [3; 4]]%Q) PFalse PFalse
       (leaky true zero true)
     = (self', Ok (if RLeaky.output (leaky true zero true)
                   then RLeaky.SpkMem s' m' else RLeaky.Spk s'))
     /\ data m' = data (batch [[1; 2]; [3; 4]]%Q)
     /\ RLeaky.spike (leaky true zero true) m' = Ok s'
     /\ RLeaky.spk self' = Some (Tensor s')
     /\ RLeaky.mem self' = Some (Tensor m'))
  /\
  (exists self' s' y' m',
     RSynaptic.forward (batch [[1; 2]; [3; 4]]%Q)
       SpikeTensor SpikeTensor SpikeTensor (synaptic false zero false)
     = (self', Ok (RSynaptic.SpkSynMem s' y' m'))
     /\ data y' = data (batch [[1; 2]; [3; 4]]%Q)
     /\ data m' = data (batch [[1; 2]; [3; 4]]%Q)
     /\ RSynaptic.spike (synaptic false zero false) m' = Ok s').
Proof.
  split.
  - apply (proj1 X12_first_step_takes_the_input (leaky true zero true)
             (batch [[1; 2]; [3; 4]]%Q) (q 1 2) 1 1);
      first [reflexivity | right; left; reflexivity].
  - apply (proj2 (proj2 (proj2 X12_first_step_takes_the_input))
             (synaptic false zero false)
             (batch [[1; 2]; [3; 4]]%Q) (q 1 2) (q 1 2) 1 1);
      first [reflexivity | right; left; reflexivity].
Defined.

(** ** A batch of another size *)

Lemma broadcast_mismatch {A B C} (f : A -> B -> result C)
    (a : list A) (b : list B) :
  length a <> length b -> length a <> 1%nat -> length b <> 1%nat ->
  broadcast f a b = Raise size_mismatch.
Proof.
  intros Hab Ha Hb. unfold broadcast.
  destruct (Nat.eqb (length a) (length b)) eqn:E;
    [apply Nat.eqb_eq in E; contradiction|].
  destruct a as [|x [|x' a]]; [| now elim Ha |];
    (destruct b as [|y [|y' b]]; [| now elim Hb |]); reflexivity.
Qed.

(** The decayed state plus an input with another number of rows. *)
Lemma decay_then_add_mismatch (rate state input_ : tensor) (a : Qc) :
  data rate = [[a]] ->
  length (data state) <> length (data input_) ->
  length (data state) <> 1%nat -> length (data input_) <> 1%nat ->
  (decayed <- tmul (clamp 0 1 rate) state ;; tadd decayed input_)
  = Raise size_mismatch.
Proof.
  intros Ha Hne Hs Hi. unfold tmul, tadd.
  rewrite (@pointwise_number_l Qcmult (clamp 0 1 rate) state (clamp1 0 1 a))
    by (simpl; now rewrite Ha).
  cbn [rbind]. unfold pointwise. cbn [data].
  rewrite broadcast_mismatch; [reflexivity | | |];
    rewrite ?length_map; assumption.
Qed.

(** X13: a hidden-state neuron that holds states for one batch size and is
    called with an input of another batch size (neither being 1, which
    broadcasts) raises the tensor engine's size error when the base term
    adds the input to the decayed state.  The reset indicator has been
    stored by then; the stored spike and membrane (and synaptic current)
    are as before the call, so the neuron keeps failing on such inputs
    until its states are replaced. *)
Theorem X13_batch_size_change_raises :
  (forall (self : RLeaky.t) (input_ : tensor) (s m : tensor) (b thr : Qc),
     RLeaky.init_hidden self = true ->
     RLeaky.spk self = Some (Tensor s) -> RLeaky.mem self = Some (Tensor m) ->
     data (RLeaky.beta self) = [[b]] ->
     data (RLeaky.threshold self) = [[thr]] ->
     RLeaky.reset_mechanism_val self = 0%Z
     \/ RLeaky.reset_mechanism_val self = 1%Z
     \/ RLeaky.reset_mechanism_val self = 2%Z ->
     size0 m <> size0 input_ -> size0 m <> 1%nat -> size0 input_ <> 1%nat ->
     exists r,
       RLeaky.forward input_ PFalse PFalse self
       = (RLeaky.set_reset r self, Raise size_mismatch))
  /\
  (forall (self : RSynaptic.t) (input_ : tensor) (s y m : tensor)
          (a thr : Qc),
     RSynaptic.init_hidden self = true ->
     RSynaptic.spk self = Some (Tensor s) ->
     RSynaptic.syn self = Some (Tensor y) ->
     RSynaptic.mem self = Some (Tensor m) ->
     data (RSynaptic.alpha self) = [[a]] ->
     data (RSynaptic.threshold self) = [[thr]] ->
     RSynaptic.reset_mechanism_val self = 0%Z
     \/ RSynaptic.reset_mechanism_val self = 1%Z
     \/ RSynaptic.reset_mechanism_val self = 2%Z ->
     size0 y <> size0 input_ -> size0 y <> 1%nat -> size0 input_ <> 1%nat ->
     exists r,
       RSynaptic.forward input_ PFalse PFalse PFalse self
       = (RSynaptic.set_reset r self, Raise size_mismatch)).
Proof.
  split.
  - intros self input_ s m b thr Hh Hs Hm Hb Hthr Hval Hne H1 H2.
    rewrite (@rleaky_forward_hidden_total self input_ (Tensor s) (Tensor m)
               Hh Hs Hm eq_refl).
    assert (Hlazy : rleaky_lazy_init input_ self = self).
    { unfold rleaky_lazy_init. now rewrite Hs, Hm. }
    rewrite Hlazy. cbn [initialised received any_marker existsb orb hasattr_init_flag
       as_tensor].
    rewrite (@mem_reset_entrywise (RLeaky.threshold self) m thr Hthr).
    eexists.
    assert (Hbase : forall r, RLeaky.base_state_function_hidden
                                (RLeaky.set_reset r self) input_
                              = Raise size_mismatch).
    { intro r. unfold RLeaky.base_state_function_hidden.
      cbn [RLeaky.set_reset RLeaky.mem RLeaky.spk RLeaky.beta RLeaky.V].
      rewrite Hm. cbn [RLeaky.attr rbind as_tensor].
      pose proof (@decay_then_add_mismatch (RLeaky.beta self) m input_ b
                    Hb Hne H1 H2) as Hd.
      destruct (tmul (clamp 0 1 (RLeaky.beta self)) m) as [d|e];
        cbn [rbind] in *; [now rewrite Hd | exact Hd]. }
    unfold RLeaky.build_state_function_hidden. rewrite Hbase.
    cbn [RLeaky.set_reset RLeaky.reset_mechanism_val].
    destruct Hval as [-> | [-> | ->]]; reflexivity.
  - intros self input_ s y m a thr Hh Hs Hy Hm Ha Hthr Hval Hne H1 H2.
    rewrite (@rsynaptic_forward_hidden_total self input_ (Tensor s) (Tensor y)
               (Tensor m) Hh Hs Hy Hm eq_refl eq_refl).
    assert (Hlazy : rsynaptic_lazy_init input_ self = self).
    { unfold rsynaptic_lazy_init. now rewrite Hs, Hy, Hm. }
    rewrite Hlazy. cbn [initialised received any_marker existsb orb hasattr_init_flag
       as_tensor].
    rewrite (@mem_reset_entrywise (RSynaptic.threshold self) m thr Hthr).
    eexists.
    assert (Hbase : forall r, RSynaptic.base_state_function_hidden
                                (RSynaptic.set_reset r self) input_
                              = Raise size_mismatch).
    { intro r. unfold RSynaptic.base_state_function_hidden.
      cbn [RSynaptic.set_reset RSynaptic.mem RSynaptic.spk RSynaptic.syn
           RSynaptic.alpha RSynaptic.beta RSynaptic.V].
      rewrite Hy. cbn [RSynaptic.attr rbind as_tensor].
      pose proof (@decay_then_add_mismatch (RSynaptic.alpha self) y input_ a
                    Ha Hne H1 H2) as Hd.
      destruct (tmul (clamp 0 1 (RSynaptic.alpha self)) y) as [d|e];
        cbn [rbind] in *; [now rewrite Hd | now injection Hd as ->]. }
    unfold RSynaptic.build_state_function_hidden. rewrite Hbase.
    cbn [RSynaptic.set_reset RSynaptic.reset_mechanism_val].
    destruct Hval as [-> | [-> | ->]]; reflexivity.
Qed.

Lemma X13_batch_size_change_raises_witness :
  exists r,
    RLeaky.forward (batch [[1; 2]; [3; 4]; [5; 6]]%Q) PFalse PFalse
      (leaky_holding subtract (batch [[0; 1]; [1; 0]]%Q)
         (batch [[2; 1]; [4; 0]]%Q))
    = (RLeaky.set_reset r
         (leaky_holding subtract (batch [[0; 1]; [1; 0]]%Q)
            (batch [[2; 1]; [4; 0]]%Q)),
       Raise size_mismatch).
Proof.
  apply (proj1 X13_batch_size_change_raises
           (leaky_holding subtract (batch [[0; 1]; [1; 0]]%Q)
              (batch [[2; 1]; [4; 0]]%Q))
           (batch [[1; 2]; [3; 4]; [5; 6]]%Q) (batch [[0; 1]; [1; 0]]%Q)
           (batch [[2; 1]; [4; 0]]%Q) (q 1 2) 1);
    first [reflexivity | left; reflexivity | vm_compute; discriminate].
Defined.

(** ** Time loops *)

Lemma shape_zeros_like_grad (input_ : tensor) :
  shape (zeros_like_grad input_) = shape input_.
Proof. unfold shape, zeros_like_grad, zeros_like. cbn [data]. apply shape_map. Qed.

Lemma fits_not_False (sh : list nat) (v : pyval) :
  fits sh v -> is_False v = false.
Proof. destruct v; cbn; [contradiction | reflexivity | reflexivity]. Qed.

(** After the lazy initialisation a steady neuron holds tensors of the
    shape of the input. *)
Lemma rleaky_lazy_init_fits (sh : list nat) (input_ : tensor) (self : RLeaky.t)
    (s m : pyval) :
  RLeaky.spk self = Some s -> RLeaky.mem self = Some m ->
  fits sh s -> fits sh m ->
  (hasattr_init_flag m = false -> hasattr_init_flag s = false) ->
  shape input_ = sh ->
  exists s1 m1,
    RLeaky.spk (rleaky_lazy_init input_ self) = Some (Tensor s1)
    /\ RLeaky.mem (rleaky_lazy_init input_ self) = Some (Tensor m1)
    /\ initialised input_ m = Tensor m1
    /\ shape s1 = sh /\ shape m1 = sh.
Proof.
  intros Hs Hm Fs Fm Himp Hx. unfold rleaky_lazy_init, initialised.
  rewrite Hs, Hm.
  destruct (hasattr_init_flag m) eqn:Em.
  - exists (zeros_like_grad input_), (zeros_like_grad input_).
    rewrite shape_zeros_like_grad. repeat split; auto.
  - specialize (Himp eq_refl).
    destruct s as [| |s1]; try contradiction; try discriminate.
    destruct m as [| |m1]; try contradiction; try discriminate.
    exists s1, m1. cbn in Fs, Fm. auto.
Qed.

Lemma rsynaptic_lazy_init_fits (sh : list nat) (input_ : tensor)
    (self : RSynaptic.t) (s y m : pyval) :
  RSynaptic.spk self = Some s -> RSynaptic.syn self = Some y ->
  RSynaptic.mem self = Some m ->
  fits sh s -> fits sh y -> fits sh m ->
  (hasattr_init_flag m = false ->
   hasattr_init_flag s = false /\ hasattr_init_flag y = false) ->
  shape input_ = sh ->
  exists s1 y1 m1,
    RSynaptic.spk (rsynaptic_lazy_init input_ self) = Some (Tensor s1)
    /\ RSynaptic.syn (rsynaptic_lazy_init input_ self) = Some (Tensor y1)
    /\ RSynaptic.mem (rsynaptic_lazy_init input_ self) = Some (Tensor m1)
    /\ initialised input_ m = Tensor m1
    /\ shape s1 = sh /\ shape y1 = sh /\ shape m1 = sh.
Proof.
  intros Hs Hy Hm Fs Fy Fm Himp Hx. unfold rsynaptic_lazy_init, initialised.
  rewrite Hs, Hy, Hm.
  destruct (hasattr_init_flag m) eqn:Em.
  - exists (zeros_like_grad input_), (zeros_like_grad input_),
      (zeros_like_grad input_).
    rewrite shape_zeros_like_grad. repeat split; auto.
  - destruct (Himp eq_refl) as [Is Iy].
    destruct s as [| |s1]; try contradiction; try discriminate.
    destruct y as [| |y1]; try contradiction; try discriminate.
    destruct m as [| |m1]; try contradiction; try discriminate.
    exists s1, y1, m1. cbn in Fs, Fy, Fm. repeat split; auto.
Qed.

(** One call on a steady neuron returns and leaves it steady. *)
Lemma rleaky_steady_step (sh : list nat) (self : RLeaky.t) (input_ : tensor) :
  rleaky_steady sh self -> shape input_ = sh ->
  exists self' out,
    RLeaky.forward input_ PFalse PFalse self = (self', Ok out)
    /\ rleaky_steady sh self'.
Proof.
  intros (Hh & Hinh & (b & v & thr & Hb & Hv & Hthr) & Hval
          & s & m & Hs & Hm & Fs & Fm & Himp) Hx.
  destruct (@rleaky_lazy_init_fits sh input_ self s m Hs Hm Fs Fm Himp Hx)
    as (s1 & m1 & Hs1 & Hm1 & Hz & Hss1 & Hsm1).
  destruct (rleaky_lazy_init_frame input_ self)
    as (Eb & EV & Et & Ei & Einh & Eval & Eout & _).
  cbn zeta in Eb, EV, Et, Ei, Einh, Eval, Eout.
  rewrite (@rleaky_forward_hidden_total self input_ s m Hh Hs Hm
             (@fits_not_False sh s Fs)).
  rewrite Hz. cbn [as_tensor].
  rewrite (@mem_reset_entrywise (RLeaky.threshold self) m1 thr Hthr).
  destruct (@rleaky_state_step (rleaky_lazy_init input_ self) input_ s1 m1
              b v thr Hs1 Hm1)
    as (m' & Hm' & _ & Hshape');
    try (rewrite ?Eb, ?EV, ?Et, ?Eval; assumption);
    try (rewrite Hx; assumption).
  rewrite Hm'. unfold RLeaky.spike. rewrite Hinh.
  rewrite (@fire_entrywise (RLeaky.threshold self) m' thr Hthr).
  eexists _, _. split; [reflexivity|].
  unfold rleaky_steady.
  cbn [RLeaky.set_spk RLeaky.set_mem RLeaky.set_reset RLeaky.init_hidden
       RLeaky.inhibition RLeaky.beta RLeaky.V RLeaky.threshold
       RLeaky.reset_mechanism_val RLeaky.spk RLeaky.mem].
  rewrite Ei, Einh, Eb, EV, Et, Eval.
  split; [exact Hh|]. split; [exact Hinh|].
  split; [exists b, v, thr; auto|]. split; [exact Hval|].
  eexists _, _. split; [reflexivity|]. split; [reflexivity|].
  cbn [fits hasattr_init_flag]. repeat split.
  - unfold shape in *. cbn [data]. rewrite shape_map.
    rewrite Hshape'. exact Hx.
  - rewrite Hshape'. exact Hx.
Qed.

Lemma rsynaptic_steady_step (sh : list nat) (self : RSynaptic.t)
    (input_ : tensor) :
  rsynaptic_steady sh self -> shape input_ = sh ->
  exists self' out,
    RSynaptic.forward input_ PFalse PFalse PFalse self = (self', Ok out)
    /\ rsynaptic_steady sh self'.
Proof.
  intros (Hh & Hinh & (a & b & v & thr & Ha & Hb & Hv & Hthr) & Hval
          & s & y & m & Hs & Hy & Hm & Fs & Fy & Fm & Himp) Hx.
  destruct (@rsynaptic_lazy_init_fits sh input_ self s y m Hs Hy Hm Fs Fy Fm
              Himp Hx)
    as (s1 & y1 & m1 & Hs1 & Hy1 & Hm1 & Hz & Hss1 & Hsy1 & Hsm1).
  destruct (rsynaptic_lazy_init_frame input_ self)
    as (Ea & Eb & EV & Et & Ei & Einh & Eval & Eout & _).
  cbn zeta in Ea, Eb, EV, Et, Ei, Einh, Eval, Eout.
  rewrite (@rsynaptic_forward_hidden_total self input_ s y m Hh Hs Hy Hm
             (@fits_not_False sh s Fs) (@fits_not_False sh y Fy)).
  rewrite Hz. cbn [as_tensor].
  rewrite (@mem_reset_entrywise (RSynaptic.threshold self) m1 thr Hthr).
  destruct (@rsynaptic_state_step (rsynaptic_lazy_init input_ self) input_
              s1 y1 m1 a b v thr Hs1 Hy1 Hm1)
    as (y' & m' & bs & bm & Hbuild & _ & _ & _ & _ & Hshy' & Hshm');
    try (rewrite ?Ea, ?Eb, ?EV, ?Et, ?Eval; assumption);
    try (rewrite Hx; assumption).
  rewrite Hbuild. unfold RSynaptic.spike. rewrite Hinh.
  rewrite (@fire_entrywise (RSynaptic.threshold self) m' thr Hthr).
  eexists _, _. split; [reflexivity|].
  unfold rsynaptic_steady.
  cbn [RSynaptic.set_spk RSynaptic.set_syn RSynaptic.set_mem
       RSynaptic.set_reset RSynaptic.init_hidden
       RSynaptic.inhibition RSynaptic.alpha RSynaptic.beta RSynaptic.V
       RSynaptic.threshold RSynaptic.reset_mechanism_val RSynaptic.spk
       RSynaptic.syn RSynaptic.mem].
  rewrite Ei, Einh, Ea, Eb, EV, Et, Eval.
  split; [exact Hh|]. split; [exact Hinh|].
  split; [exists a, b, v, thr; auto|]. split; [exact Hval|].
  eexists _, _, _. split; [reflexivity|]. split; [reflexivity|].
  split; [reflexivity|].
  cbn [fits hasattr_init_flag]. repeat split.
  - unfold shape in *. cbn [data]. rewrite shape_map.
    rewrite Hshm'. exact Hx.
  - rewrite Hshy'. exact Hx.
  - rewrite Hshm'. exact Hx.
Qed.

(** X14: a time loop of the hidden-state form never raises.  A hidden-state
    neuron without inhibition, with numbers as parameters and a reset code
    of 0, 1 or 2, whose stored states are markers or tensors of one shape,
    returns from every call of a loop over inputs of that shape, one result
    per input, and ends in such a condition again.  Replacing the membrane
    (for RSynaptic the synaptic current and the membrane) by the marker, as
    [reset_hidden] does, keeps the condition, so the loop can resume after
    a reset. *)
Theorem X14_time_loop_never_raises :
  (forall (sh : list nat) (inputs : list tensor) (self : RLeaky.t),
     rleaky_steady sh self -> Forall (fun x => shape x = sh) inputs ->
     exists self' outs,
       rleaky_hidden_loop inputs self = (self', Ok outs)
       /\ length outs = length inputs /\ rleaky_steady sh self')
  /\
  (forall (sh : list nat) (self : RLeaky.t),
     rleaky_steady sh self ->
     rleaky_steady sh (RLeaky.set_mem SpikeTensor self))
  /\
  (forall (sh : list nat) (inputs : list tensor) (self : RSynaptic.t),
     rsynaptic_steady sh self -> Forall (fun x => shape x = sh) inputs ->
     exists self' outs,
       rsynaptic_hidden_loop inputs self = (self', Ok outs)
       /\ length outs = length inputs /\ rsynaptic_steady sh self')
  /\
  (forall (sh : list nat) (self : RSynaptic.t),
     rsynaptic_steady sh self ->
     rsynaptic_steady sh
       (RSynaptic.set_mem SpikeTensor (RSynaptic.set_syn SpikeTensor self))).
Proof.
  repeat apply conj.
  - intros sh inputs. induction inputs as [|x rest IH]; intros self Hst Hall.
    + exists self, []. auto.
    + apply Forall_cons_iff in Hall. destruct Hall as [Hx Hrest].
      destruct (@rleaky_steady_step sh self x Hst Hx)
        as (self1 & out & Hcall & Hst1).
      destruct (IH self1 Hst1 Hrest) as (self' & outs & Hloop & Hlen & Hst').
      exists self', (out :: outs). cbn [rleaky_hidden_loop].
      unfold mbind at 1. rewrite Hcall. unfold mbind at 1. rewrite Hloop.
      unfold mret. cbn [length]. auto.
  - intros sh self (Hh & Hinh & Hpar & Hval
                    & s & m & Hs & Hm & Fs & Fm & Himp).
    unfold rleaky_steady.
    cbn [RLeaky.set_mem RLeaky.init_hidden RLeaky.inhibition RLeaky.beta
         RLeaky.V RLeaky.threshold RLeaky.reset_mechanism_val RLeaky.spk
         RLeaky.mem].
    repeat (split; [assumption|]).
    exists s, SpikeTensor. rewrite Hs. cbn [fits hasattr_init_flag].
    repeat split; auto. discriminate.
  - intros sh inputs. induction inputs as [|x rest IH]; intros self Hst Hall.
    + exists self, []. auto.
    + apply Forall_cons_iff in Hall. destruct Hall as [Hx Hrest].
      destruct (@rsynaptic_steady_step sh self x Hst Hx)
        as (self1 & out & Hcall & Hst1).
      destruct (IH self1 Hst1 Hrest) as (self' & outs & Hloop & Hlen & Hst').
      exists self', (out :: outs). cbn [rsynaptic_hidden_loop].
      unfold mbind at 1. rewrite Hcall. unfold mbind at 1. rewrite Hloop.
      unfold mret. cbn [length]. auto.
  - intros sh self (Hh & Hinh & Hpar & Hval
                    & s & y & m & Hs & Hy & Hm & Fs & Fy & Fm & Himp).
    unfold rsynaptic_steady.
    cbn [RSynaptic.set_mem RSynaptic.set_syn RSynaptic.init_hidden
         RSynaptic.inhibition RSynaptic.alpha RSynaptic.beta
         RSynaptic.V RSynaptic.threshold RSynaptic.reset_mechanism_val
         RSynaptic.spk RSynaptic.syn RSynaptic.mem].
    repeat (split; [assumption|]).
    exists s, SpikeTensor, SpikeTensor. rewrite Hs.
    cbn [fits hasattr_init_flag]. repeat split; auto; discriminate.
Qed.

(** A fresh neuron stepped over two inputs, and again after its membrane
    is reset. *)
Lemma X14_time_loop_never_raises_witness :
  exists self' outs,
    rleaky_hidden_loop [batch [[1; 2]]%Q; batch [[3; 4]]%Q]
      (RLeaky.set_mem SpikeTensor (leaky true subtract false))
    = (self', Ok outs)
    /\ length outs = length [batch [[1; 2]]%Q; batch [[3; 4]]%Q]
    /\ rleaky_steady [2%nat] self'.
Proof.
  assert (Hfresh : rleaky_steady [2%nat] (leaky true subtract false)).
  { unfold rleaky_steady. split; [reflexivity|]. split; [reflexivity|].
    split; [exists (q 1 2), 1, 1; repeat split|].
    split; [left; reflexivity|].
    exists SpikeTensor, SpikeTensor. cbn. repeat split. discriminate. }
  apply (proj1 X14_time_loop_never_raises [2%nat]).
  - apply (proj1 (proj2 X14_time_loop_never_raises) [2%nat]). exact Hfresh.
  - repeat constructor.
Defined.

(** ** Detaching between steps *)

Lemma rleaky_step_values (self : RLeaky.t) (input_ s m : tensor)
    (b v thr : Qc) :
  RLeaky.init_hidden self = true -> RLeaky.inhibition self = false ->
  RLeaky.spk self = Some (Tensor s) -> RLeaky.mem self = Some (Tensor m) ->
  data (RLeaky.beta self) = [[b]] -> data (RLeaky.V self) = [[v]] ->
  data (RLeaky.threshold self) = [[thr]] ->
  shape s = shape input_ -> shape m = shape input_ ->
  RLeaky.reset_mechanism_val self = 0%Z
  \/ RLeaky.reset_mechanism_val self = 1%Z
  \/ RLeaky.reset_mechanism_val self = 2%Z ->
  exists self' s' m',
    RLeaky.forward input_ PFalse PFalse self
    = (self', Ok (if RLeaky.output self then RLeaky.SpkMem s' m'
                  else RLeaky.Spk s'))
    /\ data m'
       = zip_with3
           (zip_with3
              (rleaky_step_entry (RLeaky.reset_mechanism_val self) b v thr))
           (data m) (data input_) (data s)
    /\ data s' = map (map (fun u => heaviside (u - thr))) (data m').
Proof.
  intros Hh Hinh Hs Hm Hb Hv Hthr Hss Hsm Hval.
  rewrite (@rleaky_forward_hidden_total self input_ (Tensor s) (Tensor m)
             Hh Hs Hm eq_refl).
  assert (Hlazy : rleaky_lazy_init input_ self = self).
  { unfold rleaky_lazy_init. now rewrite Hs, Hm. }
  rewrite Hlazy. cbn [initialised received any_marker existsb orb hasattr_init_flag
       as_tensor].
  rewrite (@mem_reset_entrywise (RLeaky.threshold self) m thr Hthr).
  destruct (@rleaky_state_step self input_ s m b v thr
              Hs Hm Hb Hv Hthr Hss Hsm Hval)
    as (m' & Hm' & Hdm' & _).
  rewrite Hm'. unfold RLeaky.spike. rewrite Hinh.
  rewrite (@fire_entrywise (RLeaky.threshold self) m' thr Hthr).
  eexists _, _, _. split; [reflexivity|]. cbn [data]. auto.
Qed.

Lemma rsynaptic_step_values (self : RSynaptic.t) (input_ s y m : tensor)
    (a b v thr : Qc) :
  RSynaptic.init_hidden self = true -> RSynaptic.inhibition self = false ->
  RSynaptic.spk self = Some (Tensor s) ->
  RSynaptic.syn self = Some (Tensor y) ->
  RSynaptic.mem self = Some (Tensor m) ->
  data (RSynaptic.alpha self) = [[a]] ->
  data (RSynaptic.beta self) = [[b]] ->
  data (RSynaptic.V self) = [[v]] ->
  data (RSynaptic.threshold self) = [[thr]] ->
  shape s = shape input_ -> shape y = shape input_ ->
  shape m = shape input_ ->
  RSynaptic.reset_mechanism_val self = 0%Z
  \/ RSynaptic.reset_mechanism_val self = 1%Z
  \/ RSynaptic.reset_mechanism_val self = 2%Z ->
  exists self' s' y' m',
    RSynaptic.forward input_ PFalse PFalse PFalse self
    = (self', Ok (if RSynaptic.output self
                  then RSynaptic.SpkSynMem s' y' m'
                  else RSynaptic.Spk s'))
    /\ data y'
       = zip_with
           (zip_with
              (fun c u =>
                 syn_reset_entry (RSynaptic.reset_mechanism_val self) c
                   (heaviside (u - thr))))
           (zip_with3 (zip_with3 (base_entry a v))
              (data y) (data input_) (data s))
           (data m)
    /\ data m'
       = zip_with
           (zip_with
              (fun c u =>
                 reset_entry (RSynaptic.reset_mechanism_val self) thr c
                   (heaviside (u - thr))))
           (zip_with (zip_with (fun u c => clamp1 0 1 b * u + c))
              (data m)
              (zip_with3 (zip_with3 (base_entry a v))
                 (data y) (data input_) (data s)))
           (data m)
    /\ data s' = map (map (fun u => heaviside (u - thr))) (data m').
Proof.
  intros Hh Hinh Hs Hy Hm Ha Hb Hv Hthr Hss Hsy Hsm Hval.
  rewrite (@rsynaptic_forward_hidden_total self input_ (Tensor s) (Tensor y)
             (Tensor m) Hh Hs Hy Hm eq_refl eq_refl).
  assert (Hlazy : rsynaptic_lazy_init input_ self = self).
  { unfold rsynaptic_lazy_init. now rewrite Hs, Hy, Hm. }
  rewrite Hlazy. cbn [initialised received any_marker existsb orb hasattr_init_flag
       as_tensor].
  rewrite (@mem_reset_entrywise (RSynaptic.threshold self) m thr Hthr).
  destruct (@rsynaptic_state_step self input_ s y m a b v thr
              Hs Hy Hm Ha Hb Hv Hthr Hss Hsy Hsm Hval)
    as (y' & m' & base_syn & base_mem & Hbuild & Hds & Hdm & Hdy' & Hdm' & _).
  rewrite Hbuild. unfold RSynaptic.spike. rewrite Hinh.
  rewrite (@fire_entrywise (RSynaptic.threshold self) m' thr Hthr).
  subst base_mem base_syn.
  eexists _, _, y', m'. split; [reflexivity|]. cbn [data]. auto.
Qed.

(** X15: detaching the stored states changes no number of the next step.
    Under the conditions of the entry-by-entry step (stored tensors and an
    input of one shape, numbers as parameters, no inhibition, a reset code
    of 0, 1 or 2), the hidden-state call on the neuron as [detach_hidden]
    leaves it returns a membrane, a spike (and a synaptic current) with
    the same entries as the call on the neuron itself. *)
Theorem X15_detach_keeps_the_next_step :
  (forall (self : RLeaky.t) (input_ s m : tensor) (b v thr : Qc),
     RLeaky.init_hidden self = true -> RLeaky.inhibition self = false ->
     RLeaky.spk self = Some (Tensor s) -> RLeaky.mem self = Some (Tensor m) ->
     data (RLeaky.beta self) = [[b]] -> data (RLeaky.V self) = [[v]] ->
     data (RLeaky.threshold self) = [[thr]] ->
     shape s = shape input_ -> shape m = shape input_ ->
     RLeaky.reset_mechanism_val self = 0%Z
     \/ RLeaky.reset_mechanism_val self = 1%Z
     \/ RLeaky.reset_mechanism_val self = 2%Z ->
     exists self1 s1 m1 self2 s2 m2,
       RLeaky.forward input_ PFalse PFalse self
       = (self1, Ok (if RLeaky.output self then RLeaky.SpkMem s1 m1
                     else RLeaky.Spk s1))
       /\ RLeaky.forward input_ PFalse PFalse (rleaky_detached self)
          = (self2, Ok (if RLeaky.output self then RLeaky.SpkMem s2 m2
                        else RLeaky.Spk s2))
       /\ data m2 = data m1 /\ data s2 = data s1)
  /\
  (forall (self : RSynaptic.t) (input_ s y m : tensor) (a b v thr : Qc),
     RSynaptic.init_hidden self = true -> RSynaptic.inhibition self = false ->
     RSynaptic.spk self = Some (Tensor s) ->
     RSynaptic.syn self = Some (Tensor y) ->
     RSynaptic.mem self = Some (Tensor m) ->
     data (RSynaptic.alpha self) = [[a]] ->
     data (RSynaptic.beta self) = [[b]] ->
     data (RSynaptic.V self) = [[v]] ->
     data (RSynaptic.threshold self) = [[thr]] ->
     shape s = shape input_ -> shape y = shape input_ ->
     shape m = shape input_ ->
     RSynaptic.reset_mechanism_val self = 0%Z
     \/ RSynaptic.reset_mechanism_val self = 1%Z
     \/ RSynaptic.reset_mechanism_val self = 2%Z ->
     exists self1 s1 y1 m1 self2 s2 y2 m2,
       RSynaptic.forward input_ PFalse PFalse PFalse self
       = (self1, Ok (if RSynaptic.output self
                     then RSynaptic.SpkSynMem s1 y1 m1
                     else RSynaptic.Spk s1))
       /\ RSynaptic.forward input_ PFalse PFalse PFalse
            (rsynaptic_detached self)
          = (self2, Ok (if RSynaptic.output self
                        then RSynaptic.SpkSynMem s2 y2 m2
                        else RSynaptic.Spk s2))
       /\ data y2 = data y1 /\ data m2 = data m1 /\ data s2 = data s1).
Proof.
  split.
  - intros self input_ s m b v thr Hh Hinh Hs Hm Hb Hv Hthr Hss Hsm Hval.
    destruct (@rleaky_step_values self input_ s m b v thr
                Hh Hinh Hs Hm Hb Hv Hthr Hss Hsm Hval)
      as (self1 & s1 & m1 & H1 & Hm1 & Hs1).
    assert (Hdet : rleaky_detached self
                   = RLeaky.set_mem (Tensor (detach_ m)) self).
    { unfold rleaky_detached. now rewrite Hm. }
    destruct (@rleaky_step_values (rleaky_detached self) input_ s (detach_ m)
                b v thr)
      as (self2 & s2 & m2 & H2 & Hm2 & Hs2);
      try (rewrite Hdet; cbn; assumption); try assumption.
    { rewrite Hdet. reflexivity. }
    rewrite Hdet in H2, Hm2.
    cbn [RLeaky.set_mem RLeaky.output RLeaky.reset_mechanism_val detach_ data]
      in H2, Hm2.
    exists self1, s1, m1, self2, s2, m2.
    split; [exact H1|]. split; [rewrite Hdet; exact H2|].
    assert (Hmm : data m2 = data m1) by (now rewrite Hm1, Hm2).
    split; [exact Hmm|]. now rewrite Hs1, Hs2, Hmm.
  - intros self input_ s y m a b v thr Hh Hinh Hs Hy Hm Ha Hb Hv Hthr
      Hss Hsy Hsm Hval.
    destruct (@rsynaptic_step_values self input_ s y m a b v thr
                Hh Hinh Hs Hy Hm Ha Hb Hv Hthr Hss Hsy Hsm Hval)
      as (self1 & s1 & y1 & m1 & H1 & Hy1 & Hm1 & Hs1).
    assert (Hdet : rsynaptic_detached self
                   = RSynaptic.set_mem (Tensor (detach_ m))
                       (RSynaptic.set_syn (Tensor (detach_ y)) self)).
    { unfold rsynaptic_detached. now rewrite Hy, Hm. }
    destruct (@rsynaptic_step_values (rsynaptic_detached self) input_ s
                (detach_ y) (detach_ m) a b v thr)
      as (self2 & s2 & y2 & m2 & H2 & Hy2 & Hm2 & Hs2);
      try (rewrite Hdet; cbn; assumption); try assumption.
    { rewrite Hdet. reflexivity. }
    { rewrite Hdet. reflexivity. }
    rewrite Hdet in H2, Hy2, Hm2.
    cbn [RSynaptic.set_mem RSynaptic.set_syn RSynaptic.output
         RSynaptic.reset_mechanism_val detach_ data] in H2, Hy2, Hm2.
    exists self1, s1, y1, m1, self2, s2, y2, m2.
    split; [exact H1|]. split; [rewrite Hdet; exact H2|].
    assert (Hmm : data m2 = data m1) by (now rewrite Hm1, Hm2).
    split; [now rewrite Hy1, Hy2|]. split; [exact Hmm|].
    now rewrite Hs1, Hs2, Hmm.
Qed.

Lemma X15_detach_keeps_the_next_step_witness :
  exists self1 s1 m1 self2 s2 m2,
    RLeaky.forward (batch [[1; 2]]%Q) PFalse PFalse
      (leaky_holding subtract (batch [[0; 1]]%Q) (tensor_of [[2; 1]]%Q true))
    = (self1, Ok (if RLeaky.output
                       (leaky_holding subtract (batch [[0; 1]]%Q)
                          (tensor_of [[2; 1]]%Q true))
                  then RLeaky.SpkMem s1 m1 else RLeaky.Spk s1))
    /\ RLeaky.forward (batch [[1; 2]]%Q) PFalse PFalse
         (rleaky_detached
            (leaky_holding subtract (batch [[0; 1]]%Q)
               (tensor_of [[2; 1]]%Q true)))
       = (self2, Ok (if RLeaky.output
                          (leaky_holding subtract (batch [[0; 1]]%Q)
                             (tensor_of [[2; 1]]%Q true))
                     then RLeaky.SpkMem s2 m2 else RLeaky.Spk s2))
    /\ data m2 = data m1 /\ data s2 = data s1.
Proof.
  apply (proj1 X15_detach_keeps_the_next_step
           (leaky_holding subtract (batch [[0; 1]]%Q)
              (tensor_of [[2; 1]]%Q true))
           (batch [[1; 2]]%Q) (batch [[0; 1]]%Q) (tensor_of [[2; 1]]%Q true)
           (q 1 2) 1 1);
    first [reflexivity | left; reflexivity].
Defined.


(** * The claims on the class methods and on the decay rates *)

(** ** A call after [reset_hidden] *)

Lemma rleaky_reset_hidden_map (instances : list instance) :
  RLeakyClass.reset_hidden instances
  = (map (only_rleaky (RLeaky.set_mem SpikeTensor)) instances, Ok tt).
Proof.
  apply for_each_layer_ok.
  apply Forall_forall. intros [layer|layer|] _; reflexivity.
Qed.

Lemma rsynaptic_reset_hidden_map (instances : list instance) :
  RSynapticClass.reset_hidden instances
  = (map (only_rsynaptic
            (fun layer => RSynaptic.set_mem SpikeTensor
                            (RSynaptic.set_syn SpikeTensor layer)))
         instances, Ok tt).
Proof.
  apply for_each_layer_ok.
  apply Forall_forall. intros [layer|layer|] _; reflexivity.
Qed.

(** A hidden-state neuron whose membrane bears the marker steps as the
    fresh neuron of its configuration, whatever spike it holds. *)
Lemma rleaky_reset_steps_as_fresh (self : RLeaky.t) (input_ : tensor)
    (s : pyval) :
  RLeaky.init_hidden self = true ->
  RLeaky.spk self = Some s -> is_False s = false ->
  snd (RLeaky.forward input_ PFalse PFalse (RLeaky.set_mem SpikeTensor self))
  = snd (RLeaky.forward input_ PFalse PFalse (rleaky_fresh self))
  /\ RLeaky.spk (fst (RLeaky.forward input_ PFalse PFalse
                        (RLeaky.set_mem SpikeTensor self)))
     = RLeaky.spk (fst (RLeaky.forward input_ PFalse PFalse
                          (rleaky_fresh self)))
  /\ RLeaky.mem (fst (RLeaky.forward input_ PFalse PFalse
                        (RLeaky.set_mem SpikeTensor self)))
     = RLeaky.mem (fst (RLeaky.forward input_ PFalse PFalse
                          (rleaky_fresh self))).
Proof.
  intros Hh Hs Fs.
  rewrite (@rleaky_forward_hidden_total (RLeaky.set_mem SpikeTensor self)
             input_ s SpikeTensor Hh Hs eq_refl Fs),
    (@rleaky_forward_hidden_total (rleaky_fresh self) input_ SpikeTensor
       SpikeTensor Hh eq_refl eq_refl eq_refl).
  unfold rleaky_lazy_init, rleaky_fresh.
  cbn [RLeaky.set_mem RLeaky.set_spk RLeaky.set_reset RLeaky.spk RLeaky.mem
       RLeaky.beta RLeaky.V RLeaky.threshold RLeaky.init_hidden
       RLeaky.inhibition RLeaky.reset_mechanism_val RLeaky.output
       RLeaky.reset hasattr_init_flag].
  rewrite Hs. cbn [hasattr_init_flag].
  destruct (mem_reset _ _) as [r|e]; [|repeat split].
  cbn [RLeaky.set_mem RLeaky.set_spk RLeaky.set_reset RLeaky.spk RLeaky.mem
       RLeaky.beta RLeaky.V RLeaky.threshold RLeaky.init_hidden
       RLeaky.inhibition RLeaky.reset_mechanism_val RLeaky.output
       RLeaky.reset].
  destruct (RLeaky.build_state_function_hidden _ _) as [m'|e];
    [|repeat split].
  unfold RLeaky.spike.
  cbn [RLeaky.inhibition RLeaky.threshold].
  destruct (if RLeaky.inhibition self then _ else _) as [s'|e];
    repeat split.
Qed.

Lemma rsynaptic_reset_steps_as_fresh (self : RSynaptic.t) (input_ : tensor)
    (s : pyval) :
  RSynaptic.init_hidden self = true ->
  RSynaptic.spk self = Some s -> is_False s = false ->
  snd (RSynaptic.forward input_ PFalse PFalse PFalse
         (RSynaptic.set_mem SpikeTensor (RSynaptic.set_syn SpikeTensor self)))
  = snd (RSynaptic.forward input_ PFalse PFalse PFalse (rsynaptic_fresh self))
  /\ RSynaptic.spk
       (fst (RSynaptic.forward input_ PFalse PFalse PFalse
               (RSynaptic.set_mem SpikeTensor
                  (RSynaptic.set_syn SpikeTensor self))))
     = RSynaptic.spk
         (fst (RSynaptic.forward input_ PFalse PFalse PFalse
                 (rsynaptic_fresh self)))
  /\ RSynaptic.syn
       (fst (RSynaptic.forward input_ PFalse PFalse PFalse
               (RSynaptic.set_mem SpikeTensor
                  (RSynaptic.set_syn SpikeTensor self))))
     = RSynaptic.syn
         (fst (RSynaptic.forward input_ PFalse PFalse PFalse
                 (rsynaptic_fresh self)))
  /\ RSynaptic.mem
       (fst (RSynaptic.forward input_ PFalse PFalse PFalse
               (RSynaptic.set_mem SpikeTensor
                  (RSynaptic.set_syn SpikeTensor self))))
     = RSynaptic.mem
         (fst (RSynaptic.forward input_ PFalse PFalse PFalse
                 (rsynaptic_fresh self))).
Proof.
  intros Hh Hs Fs.
  rewrite (@rsynaptic_forward_hidden_total
             (RSynaptic.set_mem SpikeTensor
                (RSynaptic.set_syn SpikeTensor self))
             input_ s SpikeTensor SpikeTensor Hh Hs eq_refl eq_refl Fs
             eq_refl),
    (@rsynaptic_forward_hidden_total (rsynaptic_fresh self) input_
       SpikeTensor SpikeTensor SpikeTensor Hh eq_refl eq_refl eq_refl
       eq_refl eq_refl).
  unfold rsynaptic_lazy_init, rsynaptic_fresh.
  cbn [RSynaptic.set_mem RSynaptic.set_syn RSynaptic.set_spk
       RSynaptic.set_reset RSynaptic.spk RSynaptic.syn RSynaptic.mem
       RSynaptic.alpha RSynaptic.beta RSynaptic.V RSynaptic.threshold
       RSynaptic.init_hidden RSynaptic.inhibition
       RSynaptic.reset_mechanism_val RSynaptic.output RSynaptic.reset
       hasattr_init_flag].
  rewrite Hs. cbn [hasattr_init_flag].
  destruct (mem_reset _ _) as [r|e]; [|repeat split].
  cbn [RSynaptic.set_mem RSynaptic.set_syn RSynaptic.set_spk
       RSynaptic.set_reset RSynaptic.spk RSynaptic.syn RSynaptic.mem
       RSynaptic.alpha RSynaptic.beta RSynaptic.V RSynaptic.threshold
       RSynaptic.init_hidden RSynaptic.inhibition
       RSynaptic.reset_mechanism_val RSynaptic.output RSynaptic.reset].
  destruct (RSynaptic.build_state_function_hidden _ _) as [[y' m']|e];
    [|repeat split].
  unfold RSynaptic.spike.
  cbn [RSynaptic.inhibition RSynaptic.threshold].
  destruct (if RSynaptic.inhibition self then _ else _) as [s'|e];
    repeat split.
Qed.

(** C3: for a hidden-state RLeaky or RSynaptic neuron anywhere in the
    registry, holding a spike, the class method [reset_hidden] followed by
    a call of [forward] returns or raises exactly what the first call of a
    fresh neuron of the same configuration does on that input, and leaves
    the same stored spike and membrane (and synaptic current): the
    membrane bears the marker after the reset, so the lazy initialisation
    zeroes the spike left in place along with it.  A neuron built with
    [init_hidden=True] is such a fresh neuron. *)
Theorem C3_reset_then_forward_as_first_call :
  (forall (before after : list instance) (self : RLeaky.t) (input_ : tensor)
          (s : pyval),
     RLeaky.init_hidden self = true ->
     RLeaky.spk self = Some s -> is_False s = false ->
     exists before' self' after',
       RLeakyClass.reset_hidden (before ++ IsRLeaky self :: after)
       = (before' ++ IsRLeaky self' :: after', Ok tt)
       /\ length before' = length before
       /\ snd (RLeaky.forward input_ PFalse PFalse self')
          = snd (RLeaky.forward input_ PFalse PFalse (rleaky_fresh self))
       /\ RLeaky.spk (fst (RLeaky.forward input_ PFalse PFalse self'))
          = RLeaky.spk
              (fst (RLeaky.forward input_ PFalse PFalse (rleaky_fresh self)))
       /\ RLeaky.mem (fst (RLeaky.forward input_ PFalse PFalse self'))
          = RLeaky.mem
              (fst (RLeaky.forward input_ PFalse PFalse (rleaky_fresh self))))
  /\
  (forall (before after : list instance) (self : RSynaptic.t)
          (input_ : tensor) (s : pyval),
     RSynaptic.init_hidden self = true ->
     RSynaptic.spk self = Some s -> is_False s = false ->
     exists before' self' after',
       RSynapticClass.reset_hidden (before ++ IsRSynaptic self :: after)
       = (before' ++ IsRSynaptic self' :: after', Ok tt)
       /\ length before' = length before
       /\ snd (RSynaptic.forward input_ PFalse PFalse PFalse self')
          = snd (RSynaptic.forward input_ PFalse PFalse PFalse
                   (rsynaptic_fresh self))
       /\ RSynaptic.spk
            (fst (RSynaptic.forward input_ PFalse PFalse PFalse self'))
          = RSynaptic.spk
              (fst (RSynaptic.forward input_ PFalse PFalse PFalse
                      (rsynaptic_fresh self)))
       /\ RSynaptic.syn
            (fst (RSynaptic.forward input_ PFalse PFalse PFalse self'))
          = RSynaptic.syn
              (fst (RSynaptic.forward input_ PFalse PFalse PFalse
                      (rsynaptic_fresh self)))
       /\ RSynaptic.mem
            (fst (RSynaptic.forward input_ PFalse PFalse PFalse self'))
          = RSynaptic.mem
              (fst (RSynaptic.forward input_ PFalse PFalse PFalse
                      (rsynaptic_fresh self))))
  /\
  (forall (beta V threshold : tensor)
          (inhibition learn_beta learn_threshold learn_V : bool)
          (mechanism : reset_mechanism) (output : bool),
     rleaky_fresh
       (RLeaky.__init__ beta V threshold true inhibition learn_beta
          learn_threshold learn_V mechanism output)
     = RLeaky.__init__ beta V threshold true inhibition learn_beta
         learn_threshold learn_V mechanism output)
  /\
  (forall (alpha beta V threshold : tensor)
          (inhibition learn_alpha learn_beta learn_threshold learn_V : bool)
          (mechanism : reset_mechanism) (output : bool),
     rsynaptic_fresh
       (RSynaptic.__init__ alpha beta V threshold true inhibition learn_alpha
          learn_beta learn_threshold learn_V mechanism output)
     = RSynaptic.__init__ alpha beta V threshold true inhibition learn_alpha
         learn_beta learn_threshold learn_V mechanism output).
Proof.
  repeat apply conj.
  - intros before after self input_ s Hh Hs Fs.
    exists (map (only_rleaky (RLeaky.set_mem SpikeTensor)) before),
      (RLeaky.set_mem SpikeTensor self),
      (map (only_rleaky (RLeaky.set_mem SpikeTensor)) after).
    split; [|split; [apply length_map|]].
    + rewrite rleaky_reset_hidden_map, map_app. reflexivity.
    + exact (@rleaky_reset_steps_as_fresh self input_ s Hh Hs Fs).
  - intros before after self input_ s Hh Hs Fs.
    exists (map (only_rsynaptic
                   (fun layer => RSynaptic.set_mem SpikeTensor
                                   (RSynaptic.set_syn SpikeTensor layer)))
              before),
      (RSynaptic.set_mem SpikeTensor (RSynaptic.set_syn SpikeTensor self)),
      (map (only_rsynaptic
              (fun layer => RSynaptic.set_mem SpikeTensor
                              (RSynaptic.set_syn SpikeTensor layer)))
         after).
    split; [|split; [apply length_map|]].
    + rewrite rsynaptic_reset_hidden_map, map_app. reflexivity.
    + exact (@rsynaptic_reset_steps_as_fresh self input_ s Hh Hs Fs).
  - reflexivity.
  - reflexivity.
Qed.

(** A neuron stepped with the input 2, so that it holds the spike 1, is
    reset and stepped with the input 1: it answers as the fresh neuron,
    with spike 0 and membrane 1. *)
Lemma C3_reset_then_forward_as_first_call_witness :
  (exists before' self' after',
     RLeakyClass.reset_hidden
       ([] ++ IsRLeaky
                (fst (RLeaky.forward (batch [[2]]%Q) PFalse PFalse
                        (leaky true subtract true))) :: [])
     = (before' ++ IsRLeaky self' :: after', Ok tt)
     /\ length before' = length (@nil instance)
     /\ snd (RLeaky.forward (batch [[1]]%Q) PFalse PFalse self')
        = snd (RLeaky.forward (batch [[1]]%Q) PFalse PFalse
                 (rleaky_fresh
                    (fst (RLeaky.forward (batch [[2]]%Q) PFalse PFalse
                            (leaky true subtract true)))))
     /\ RLeaky.spk (fst (RLeaky.forward (batch [[1]]%Q) PFalse PFalse self'))
        = RLeaky.spk
            (fst (RLeaky.forward (batch [[1]]%Q) PFalse PFalse
                    (rleaky_fresh
                       (fst (RLeaky.forward (batch [[2]]%Q) PFalse PFalse
                               (leaky true subtract true))))))
     /\ RLeaky.mem (fst (RLeaky.forward (batch [[1]]%Q) PFalse PFalse self'))
        = RLeaky.mem
            (fst (RLeaky.forward (batch [[1]]%Q) PFalse PFalse
                    (rleaky_fresh
                       (fst (RLeaky.forward (batch [[2]]%Q) PFalse PFalse
                               (leaky true subtract true)))))))
  /\ RLeaky.spk
       (fst (RLeaky.forward (batch [[2]]%Q) PFalse PFalse
               (leaky true subtract true)))
     = Some (Tensor (tensor_of [[1]]%Q true))
  /\ rleaky_fresh
       (fst (RLeaky.forward (batch [[2]]%Q) PFalse PFalse
               (leaky true subtract true)))
     = leaky true subtract true
  /\ snd (RLeaky.forward (batch [[1]]%Q) PFalse PFalse
            (leaky true subtract true))
     = Ok (RLeaky.SpkMem (tensor_of [[0]]%Q true) (tensor_of [[1]]%Q true)).
Proof.
  split; [|split; [|split]].
  - apply (proj1 C3_reset_then_forward_as_first_call [] []
             (fst (RLeaky.forward (batch [[2]]%Q) PFalse PFalse
                     (leaky true subtract true)))
             (batch [[1]]%Q) (Tensor (tensor_of [[1]]%Q true)));
      [reflexivity | qc_eq | reflexivity].
  - qc_eq.
  - qc_eq.
  - qc_eq.
Defined.

(** ** The class methods and the stored spike, at the next call *)

(** C10, as stated, fails after [reset_hidden].  A neuron holding the spike
    1 and the membrane 2 keeps its spike through [reset_hidden], but the
    next call, with the input 1, returns the membrane 1, the input alone:
    the lazy initialisation has zeroed the stored spike with the membrane.
    Had the spike fed the recurrent term, the base would be
    0 + 1 + V * 1 = 2. *)
Lemma C10_spike_zeroed_after_reset :
  exists used' after spk' mem' base,
    RLeakyClass.reset_hidden
      [IsRLeaky (leaky_holding subtract (batch [[1]]%Q) (batch [[2]]%Q))]
    = ([IsRLeaky used'], Ok tt)
    /\ RLeaky.spk used' = Some (Tensor (batch [[1]]%Q))
    /\ RLeaky.forward (batch [[1]]%Q) PFalse PFalse used'
       = (after, Ok (RLeaky.SpkMem spk' mem'))
    /\ data mem' = [[1]]
    /\ RLeaky.base_state_function used' (batch [[1]]%Q)
         (Tensor (batch [[1]]%Q)) (zero_state (batch [[1]]%Q)) = Ok base
    /\ data base = [[q 2 1]].
Proof.
  eexists _, _, _, _, _.
  split; [vm_compute; reflexivity|].
  split; [qc_eq|].
  split; [vm_compute; reflexivity|].
  split; [qc_eq|].
  split; [vm_compute; reflexivity | qc_eq].
Qed.

(** C10, amended: the class methods [detach_hidden] and [reset_hidden] of
    RLeaky and of RSynaptic leave the stored spike of every registered
    neuron as it was, neither detached nor replaced by the marker.  After
    [detach_hidden] the stored spike feeds the recurrent term of the next
    call: each entry of the new membrane (for RSynaptic, of the new
    synaptic current) is built from [V] times the spike at that place.
    After [reset_hidden] it does not: the neuron steps as the one whose
    spike and membrane (and synaptic current) are zero states. *)
Theorem C10_class_methods_keep_spike :
  (forall instances,
     map spk_of (fst (RLeakyClass.detach_hidden instances))
     = map spk_of instances)
  /\ (forall instances,
        map spk_of (fst (RLeakyClass.reset_hidden instances))
        = map spk_of instances)
  /\ (forall instances,
        map spk_of (fst (RSynapticClass.detach_hidden instances))
        = map spk_of instances)
  /\ (forall instances,
        map spk_of (fst (RSynapticClass.reset_hidden instances))
        = map spk_of instances)
  /\ (forall (layer : RLeaky.t) (input_ s m : tensor) (b v thr : Qc),
        RLeaky.init_hidden layer = true -> RLeaky.inhibition layer = false ->
        RLeaky.spk layer = Some (Tensor s) ->
        RLeaky.mem layer = Some (Tensor m) ->
        data (RLeaky.beta layer) = [[b]] -> data (RLeaky.V layer) = [[v]] ->
        data (RLeaky.threshold layer) = [[thr]] ->
        shape s = shape input_ -> shape m = shape input_ ->
        RLeaky.reset_mechanism_val layer = 0%Z
        \/ RLeaky.reset_mechanism_val layer = 1%Z
        \/ RLeaky.reset_mechanism_val layer = 2%Z ->
        exists layer' after s' m',
          RLeakyClass.detach_hidden [IsRLeaky layer]
          = ([IsRLeaky layer'], Ok tt)
          /\ RLeaky.forward input_ PFalse PFalse layer'
             = (after, Ok (if RLeaky.output layer then RLeaky.SpkMem s' m'
                           else RLeaky.Spk s'))
          /\ data m'
             = zip_with3
                 (zip_with3
                    (fun u x c =>
                       reset_entry (RLeaky.reset_mechanism_val layer) thr
                         (clamp1 0 1 b * u + x + v * c)
                         (heaviside (u - thr))))
                 (data m) (data input_) (data s))
  /\ (forall (layer : RSynaptic.t) (input_ s y m : tensor) (a b v thr : Qc),
        RSynaptic.init_hidden layer = true ->
        RSynaptic.inhibition layer = false ->
        RSynaptic.spk layer = Some (Tensor s) ->
        RSynaptic.syn layer = Some (Tensor y) ->
        RSynaptic.mem layer = Some (Tensor m) ->
        data (RSynaptic.alpha layer) = [[a]] ->
        data (RSynaptic.beta layer) = [[b]] ->
        data (RSynaptic.V layer) = [[v]] ->
        data (RSynaptic.threshold layer) = [[thr]] ->
        shape s = shape input_ -> shape y = shape input_ ->
        shape m = shape input_ ->
        RSynaptic.reset_mechanism_val layer = 0%Z
        \/ RSynaptic.reset_mechanism_val layer = 1%Z
        \/ RSynaptic.reset_mechanism_val layer = 2%Z ->
        exists layer' after s' y' m',
          RSynapticClass.detach_hidden [IsRSynaptic layer]
          = ([IsRSynaptic layer'], Ok tt)
          /\ RSynaptic.forward input_ PFalse PFalse PFalse layer'
             = (after, Ok (if RSynaptic.output layer
                           then RSynaptic.SpkSynMem s' y' m'
                           else RSynaptic.Spk s'))
          /\ data y'
             = zip_with
                 (zip_with
                    (fun c u =>
                       syn_reset_entry (RSynaptic.reset_mechanism_val layer)
                         c (heaviside (u - thr))))
                 (zip_with3
                    (zip_with3 (fun u x c => clamp1 0 1 a * u + x + v * c))
                    (data y) (data input_) (data s))
                 (data m))
  /\ (forall (layer : RLeaky.t) (input_ : tensor) (s : pyval),
        RLeaky.spk layer = Some s -> is_False s = false ->
        RLeaky.forward input_ PFalse PFalse
          (RLeaky.set_mem SpikeTensor layer)
        = RLeaky.forward input_ PFalse PFalse
            (RLeaky.set_mem (zero_state input_)
               (RLeaky.set_spk (zero_state input_) layer)))
  /\ (forall (layer : RSynaptic.t) (input_ : tensor) (s : pyval),
        RSynaptic.spk layer = Some s -> is_False s = false ->
        RSynaptic.forward input_ PFalse PFalse PFalse
          (RSynaptic.set_mem SpikeTensor
             (RSynaptic.set_syn SpikeTensor layer))
        = RSynaptic.forward input_ PFalse PFalse PFalse
            (RSynaptic.set_mem (zero_state input_)
               (RSynaptic.set_syn (zero_state input_)
                  (RSynaptic.set_spk (zero_state input_) layer)))).
Proof.
  repeat apply conj.
  - intro instances. apply for_each_layer_spk. intros [layer|layer|]; simpl;
      try reflexivity.
    pose proof (rleaky_detach_layer_spk layer) as H.
    destruct (RLeakyClass.detach_layer layer). exact H.
  - intro instances. apply for_each_layer_spk. intros [layer|layer|];
      reflexivity.
  - intro instances. apply for_each_layer_spk. intros [layer|layer|]; simpl;
      try reflexivity.
    pose proof (rsynaptic_detach_layer_spk layer) as H.
    destruct (RSynapticClass.detach_layer layer). exact H.
  - intro instances. apply for_each_layer_spk. intros [layer|layer|];
      reflexivity.
  - intros layer input_ s m b v thr Hh Hinh Hs Hm Hb Hv Hthr Hss Hsm Hval.
    assert (Hdet : rleaky_detached layer
                   = RLeaky.set_mem (Tensor (detach_ m)) layer).
    { unfold rleaky_detached. now rewrite Hm. }
    destruct (@rleaky_step_values (rleaky_detached layer) input_ s (detach_ m)
                b v thr)
      as (after & s' & m' & H2 & Hm2 & _);
      try (rewrite Hdet; cbn; assumption); try assumption.
    { rewrite Hdet. reflexivity. }
    rewrite Hdet in H2, Hm2.
    cbn [RLeaky.set_mem RLeaky.output RLeaky.reset_mechanism_val detach_ data]
      in H2, Hm2.
    exists (RLeaky.set_mem (Tensor (detach_ m)) layer), after, s', m'.
    split; [|split; [exact H2 | exact Hm2]].
    unfold RLeakyClass.detach_hidden. cbn [for_each_layer].
    unfold RLeakyClass.on_rleaky, RLeakyClass.detach_layer, mbind, getattr,
      lift, assign.
    rewrite Hm. reflexivity.
  - intros layer input_ s y m a b v thr Hh Hinh Hs Hy Hm Ha Hb Hv Hthr
      Hss Hsy Hsm Hval.
    assert (Hdet : rsynaptic_detached layer
                   = RSynaptic.set_mem (Tensor (detach_ m))
                       (RSynaptic.set_syn (Tensor (detach_ y)) layer)).
    { unfold rsynaptic_detached. now rewrite Hy, Hm. }
    destruct (@rsynaptic_step_values (rsynaptic_detached layer) input_ s
                (detach_ y) (detach_ m) a b v thr)
      as (after & s' & y' & m' & H2 & Hy2 & _);
      try (rewrite Hdet; cbn; assumption); try assumption.
    { rewrite Hdet. reflexivity. }
    { rewrite Hdet. reflexivity. }
    rewrite Hdet in H2, Hy2.
    cbn [RSynaptic.set_mem RSynaptic.set_syn RSynaptic.output
         RSynaptic.reset_mechanism_val detach_ data] in H2, Hy2.
    exists (RSynaptic.set_mem (Tensor (detach_ m))
              (RSynaptic.set_syn (Tensor (detach_ y)) layer)),
      after, s', y', m'.
    split; [|split; [exact H2 | exact Hy2]].
    unfold RSynapticClass.detach_hidden. cbn [for_each_layer].
    unfold RSynapticClass.on_rsynaptic, RSynapticClass.detach_layer, mbind,
      getattr, lift, assign.
    rewrite Hy. cbn. rewrite Hm. reflexivity.
  - intros layer input_ s Hs Fs. apply rleaky_forward_first_pass.
    rewrite (@first_pass_total (RLeaky.set_mem SpikeTensor layer) input_
               PFalse PFalse s SpikeTensor Hs eq_refl eq_refl Fs).
    rewrite (@first_pass_total
               (RLeaky.set_mem (zero_state input_)
                  (RLeaky.set_spk (zero_state input_) layer))
               input_ PFalse PFalse (zero_state input_) (zero_state input_)
               eq_refl eq_refl eq_refl eq_refl).
    unfold rleaky_lazy_init. cbn. rewrite Hs. reflexivity.
  - intros layer input_ s Hs Fs. apply rsynaptic_forward_first_pass.
    rewrite (@syn_first_pass_total
               (RSynaptic.set_mem SpikeTensor
                  (RSynaptic.set_syn SpikeTensor layer))
               input_ PFalse PFalse PFalse s SpikeTensor SpikeTensor
               Hs eq_refl eq_refl eq_refl Fs eq_refl).
    rewrite (@syn_first_pass_total
               (RSynaptic.set_mem (zero_state input_)
                  (RSynaptic.set_syn (zero_state input_)
                     (RSynaptic.set_spk (zero_state input_) layer)))
               input_ PFalse PFalse PFalse (zero_state input_)
               (zero_state input_) (zero_state input_)
               eq_refl eq_refl eq_refl eq_refl eq_refl eq_refl).
    unfold rsynaptic_lazy_init. cbn. rewrite Hs. reflexivity.
Qed.

Lemma C10_class_methods_keep_spike_witness :
  (exists layer' after s' m',
     RLeakyClass.detach_hidden
       [IsRLeaky (leaky_holding subtract (batch [[1]]%Q) (batch [[2]]%Q))]
     = ([IsRLeaky layer'], Ok tt)
     /\ RLeaky.forward (batch [[1]]%Q) PFalse PFalse layer'
        = (after,
           Ok (if RLeaky.output
                    (leaky_holding subtract (batch [[1]]%Q) (batch [[2]]%Q))
               then RLeaky.SpkMem s' m' else RLeaky.Spk s'))
     /\ data m'
        = zip_with3
            (zip_with3
               (fun u x c =>
                  reset_entry
                    (RLeaky.reset_mechanism_val
                       (leaky_holding subtract (batch [[1]]%Q)
                          (batch [[2]]%Q)))
                    1 (clamp1 0 1 (q 1 2) * u + x + 1 * c)
                    (heaviside (u - 1))))
            (data (batch [[2]]%Q)) (data (batch [[1]]%Q))
            (data (batch [[1]]%Q)))
  /\ RLeaky.forward (batch [[1]]%Q) PFalse PFalse
       (RLeaky.set_mem SpikeTensor
          (leaky_holding subtract (batch [[1]]%Q) (batch [[2]]%Q)))
     = RLeaky.forward (batch [[1]]%Q) PFalse PFalse
         (RLeaky.set_mem (zero_state (batch [[1]]%Q))
            (RLeaky.set_spk (zero_state (batch [[1]]%Q))
               (leaky_holding subtract (batch [[1]]%Q) (batch [[2]]%Q)))).
Proof.
  split.
  - apply (proj1 (proj2 (proj2 (proj2 (proj2 C10_class_methods_keep_spike))))
             (leaky_holding subtract (batch [[1]]%Q) (batch [[2]]%Q))
             (batch [[1]]%Q) (batch [[1]]%Q) (batch [[2]]%Q) (q 1 2) 1 1);
      first [reflexivity | left; reflexivity].
  - apply (proj1 (proj2 (proj2 (proj2 (proj2 (proj2 (proj2
                    C10_class_methods_keep_spike))))))
             (leaky_holding subtract (batch [[1]]%Q) (batch [[2]]%Q))
             (batch [[1]]%Q) (Tensor (batch [[1]]%Q)));
      reflexivity.
Defined.

(** ** The decay rates, clamped where they are used *)

(** What [clamp(0, 1)] makes of one rate: the rate itself where it lies in
    the interval, and the nearer end of the interval where it does not. *)
Lemma clamp1_unit_cases (b : Qc) :
  0 <= clamp1 0 1 b <= 1
  /\ (0 <= b <= 1 -> clamp1 0 1 b = b)
  /\ (1 < b -> clamp1 0 1 b = 1)
  /\ (b < 0 -> clamp1 0 1 b = 0).
Proof.
  split; [apply clamp1_bounds, Qc_0_le_1|].
  unfold clamp1. repeat split.
  - intros [L U]. apply Qcltb_ge in L, U. now rewrite L, U.
  - intro H.
    assert (L : 0 <= b).
    { apply Qclt_le_weak, Qcle_lt_trans with (y := 1);
        [apply Qc_0_le_1 | exact H]. }
    apply Qcltb_ge in L. apply Qcltb_lt in H. now rewrite L, H.
  - intro H. apply Qcltb_lt in H. now rewrite H.
Qed.

(** C9: every call of [forward], of RLeaky and of RSynaptic, leaves the
    stored decay rates as they were, and what it computes is computed from
    the rates clamped to the interval from 0 to 1.  The base term of RLeaky
    has, at each place, the entry [clamp(beta) * mem + input + V * spk]; the
    base terms of RSynaptic have [clamp(alpha) * syn + input + V * spk] and
    [clamp(beta) * mem] plus that; the hidden-state forms compute the same
    from the stored tensors, and a step of [forward] stores the membrane (and
    the synaptic current) built from these entries while the stored rate
    stays what it was.  The clamped rate lies in the interval, is the rate
    itself where that lies in the interval, 1 for a rate above 1 and 0 for a
    rate below 0.  A neuron storing rates outside the interval steps exactly
    as the neuron storing their clamped values. *)
Theorem C9_decay_rates_clamped_at_use :
  (forall (self : RLeaky.t) (input_ : tensor) (spk mem : pyval),
     RLeaky.beta (fst (RLeaky.forward input_ spk mem self)) = RLeaky.beta self)
  /\
  (forall (self : RSynaptic.t) (input_ : tensor) (spk syn mem : pyval),
     RSynaptic.alpha (fst (RSynaptic.forward input_ spk syn mem self))
     = RSynaptic.alpha self
     /\ RSynaptic.beta (fst (RSynaptic.forward input_ spk syn mem self))
        = RSynaptic.beta self)
  /\
  (forall rate : tensor, all_entries (fun x => 0 <= x <= 1) (clamp 0 1 rate))
  /\
  (forall b : Qc,
     0 <= clamp1 0 1 b <= 1
     /\ (0 <= b <= 1 -> clamp1 0 1 b = b)
     /\ (1 < b -> clamp1 0 1 b = 1)
     /\ (b < 0 -> clamp1 0 1 b = 0))
  /\
  (forall (self : RLeaky.t) (input_ spk mem : tensor) (b v : Qc),
     data (RLeaky.beta self) = [[b]] -> data (RLeaky.V self) = [[v]] ->
     shape spk = shape input_ -> shape mem = shape input_ ->
     exists base,
       RLeaky.base_state_function self input_ (Tensor spk) (Tensor mem)
       = Ok base
       /\ (RLeaky.spk self = Some (Tensor spk) ->
           RLeaky.mem self = Some (Tensor mem) ->
           RLeaky.base_state_function_hidden self input_ = Ok base)
       /\ data base
          = zip_with3
              (zip_with3 (fun u x c => clamp1 0 1 b * u + x + v * c))
              (data mem) (data input_) (data spk))
  /\
  (forall (self : RSynaptic.t) (input_ spk syn mem : tensor) (a b v : Qc),
     data (RSynaptic.alpha self) = [[a]] ->
     data (RSynaptic.beta self) = [[b]] ->
     data (RSynaptic.V self) = [[v]] ->
     shape spk = shape input_ -> shape syn = shape input_ ->
     shape mem = shape input_ ->
     exists base_syn base_mem,
       RSynaptic.base_state_function self input_
         (Tensor spk) (Tensor syn) (Tensor mem)
       = Ok (base_syn, base_mem)
       /\ (RSynaptic.spk self = Some (Tensor spk) ->
           RSynaptic.syn self = Some (Tensor syn) ->
           RSynaptic.mem self = Some (Tensor mem) ->
           RSynaptic.base_state_function_hidden self input_
           = Ok (base_syn, base_mem))
       /\ data base_syn
          = zip_with3
              (zip_with3 (fun u x c => clamp1 0 1 a * u + x + v * c))
              (data syn) (data input_) (data spk)
       /\ data base_mem
          = zip_with (zip_with (fun u y => clamp1 0 1 b * u + y))
              (data mem) (data base_syn))
  /\
  (forall (self : RLeaky.t) (input_ s m : tensor) (b v thr : Qc),
     RLeaky.init_hidden self = true -> RLeaky.inhibition self = false ->
     RLeaky.spk self = Some (Tensor s) -> RLeaky.mem self = Some (Tensor m) ->
     data (RLeaky.beta self) = [[b]] -> data (RLeaky.V self) = [[v]] ->
     data (RLeaky.threshold self) = [[thr]] ->
     shape s = shape input_ -> shape m = shape input_ ->
     RLeaky.reset_mechanism_val self = 0%Z
     \/ RLeaky.reset_mechanism_val self = 1%Z
     \/ RLeaky.reset_mechanism_val self = 2%Z ->
     exists self' s' m',
       RLeaky.forward input_ PFalse PFalse self
       = (self', Ok (if RLeaky.output self then RLeaky.SpkMem s' m'
                     else RLeaky.Spk s'))
       /\ RLeaky.beta self' = RLeaky.beta self
       /\ data m'
          = zip_with3
              (zip_with3
                 (fun u x c =>
                    reset_entry (RLeaky.reset_mechanism_val self) thr
                      (clamp1 0 1 b * u + x + v * c)
                      (heaviside (u - thr))))
              (data m) (data input_) (data s)
       /\ data s' = map (map (fun u => heaviside (u - thr))) (data m'))
  /\
  (forall (self : RSynaptic.t) (input_ s y m : tensor) (a b v thr : Qc),
     RSynaptic.init_hidden self = true -> RSynaptic.inhibition self = false ->
     RSynaptic.spk self = Some (Tensor s) ->
     RSynaptic.syn self = Some (Tensor y) ->
     RSynaptic.mem self = Some (Tensor m) ->
     data (RSynaptic.alpha self) = [[a]] ->
     data (RSynaptic.beta self) = [[b]] ->
     data (RSynaptic.V self) = [[v]] ->
     data (RSynaptic.threshold self) = [[thr]] ->
     shape s = shape input_ -> shape y = shape input_ ->
     shape m = shape input_ ->
     RSynaptic.reset_mechanism_val self = 0%Z
     \/ RSynaptic.reset_mechanism_val self = 1%Z
     \/ RSynaptic.reset_mechanism_val self = 2%Z ->
     exists self' s' y' m',
       RSynaptic.forward input_ PFalse PFalse PFalse self
       = (self', Ok (if RSynaptic.output self
                     then RSynaptic.SpkSynMem s' y' m'
                     else RSynaptic.Spk s'))
       /\ RSynaptic.alpha self' = RSynaptic.alpha self
       /\ RSynaptic.beta self' = RSynaptic.beta self
       /\ data y'
          = zip_with
              (zip_with
                 (fun c u =>
                    syn_reset_entry (RSynaptic.reset_mechanism_val self) c
                      (heaviside (u - thr))))
              (zip_with3
                 (zip_with3 (fun u x c => clamp1 0 1 a * u + x + v * c))
                 (data y) (data input_) (data s))
              (data m)
       /\ data m'
          = zip_with
              (zip_with
                 (fun c u =>
                    reset_entry (RSynaptic.reset_mechanism_val self) thr c
                      (heaviside (u - thr))))
              (zip_with (zip_with (fun u c => clamp1 0 1 b * u + c))
                 (data m)
                 (zip_with3
                    (zip_with3 (fun u x c => clamp1 0 1 a * u + x + v * c))
                    (data y) (data input_) (data s)))
              (data m)
       /\ data s' = map (map (fun u => heaviside (u - thr))) (data m'))
  /\
  (forall (self : RLeaky.t) (input_ : tensor) (spk mem : pyval),
     RLeaky.forward input_ spk mem
       (rleaky_with_beta (clamp 0 1 (RLeaky.beta self)) self)
     = (rleaky_with_beta (clamp 0 1 (RLeaky.beta self))
          (fst (RLeaky.forward input_ spk mem self)),
        snd (RLeaky.forward input_ spk mem self)))
  /\
  (forall (self : RSynaptic.t) (input_ : tensor) (spk syn mem : pyval),
     RSynaptic.forward input_ spk syn mem
       (rsynaptic_with_rates (clamp 0 1 (RSynaptic.alpha self))
          (clamp 0 1 (RSynaptic.beta self)) self)
     = (rsynaptic_with_rates (clamp 0 1 (RSynaptic.alpha self))
          (clamp 0 1 (RSynaptic.beta self))
          (fst (RSynaptic.forward input_ spk syn mem self)),
        snd (RSynaptic.forward input_ spk syn mem self))).
Proof.
  repeat apply conj.
  - intros. apply rleaky_forward_keeps_params.
  - intros. split; apply rsynaptic_forward_keeps_params.
  - apply clamp_bounds.
  - apply clamp1_unit_cases.
  - intros self input_ spk mem b v Hb Hv Hspk Hmem.
    destruct (@base_term_entrywise (RLeaky.beta self) (RLeaky.V self)
                mem input_ spk b v Hb Hv Hmem Hspk)
      as (base & Hbase & Hdata & _).
    exists base. split; [exact Hbase|]. split; [|exact Hdata].
    intros Hs Hm.
    now rewrite (@rleaky_base_hidden_stored self input_ (Tensor spk)
                   (Tensor mem) Hs Hm).
  - intros self input_ spk syn mem a b v Ha Hb Hv Hspk Hsyn Hmem.
    destruct (@rsynaptic_base_entrywise self input_ spk syn mem a b v
                Ha Hb Hv Hspk Hsyn Hmem)
      as (base_syn & base_mem & Hexp & Hds & Hdm & _).
    exists base_syn, base_mem. split; [exact Hexp|].
    split; [|split; assumption].
    intros Hs Hy Hm.
    now rewrite (@rsynaptic_base_hidden_stored self input_ (Tensor spk)
                   (Tensor syn) (Tensor mem) Hs Hy Hm).
  - intros self input_ s m b v thr Hh Hinh Hs Hm Hb Hv Hthr Hss Hsm Hval.
    destruct (@rleaky_step_values self input_ s m b v thr
                Hh Hinh Hs Hm Hb Hv Hthr Hss Hsm Hval)
      as (self' & s' & m' & Hfwd & Hdm & Hds).
    exists self', s', m'. split; [exact Hfwd|].
    pose proof (@rleaky_forward_keeps_params self input_ PFalse PFalse)
      as (Hbeta & _).
    rewrite Hfwd in Hbeta. split; [exact Hbeta|]. split; assumption.
  - intros self input_ s y m a b v thr Hh Hinh Hs Hy Hm Ha Hb Hv Hthr
      Hss Hsy Hsm Hval.
    destruct (@rsynaptic_step_values self input_ s y m a b v thr
                Hh Hinh Hs Hy Hm Ha Hb Hv Hthr Hss Hsy Hsm Hval)
      as (self' & s' & y' & m' & Hfwd & Hdy & Hdm & Hds).
    exists self', s', y', m'. split; [exact Hfwd|].
    pose proof (@rsynaptic_forward_keeps_params self input_ PFalse PFalse
                  PFalse) as (Halpha & Hbeta & _).
    rewrite Hfwd in Halpha, Hbeta.
    split; [exact Halpha|]. split; [exact Hbeta|].
    split; [exact Hdy|]. split; assumption.
  - apply rleaky_forward_clamped.
  - apply rsynaptic_forward_clamped.
Qed.

Lemma C9_decay_rates_clamped_at_use_witness :
  (exists self' s' m',
     RLeaky.forward (batch [[1]]%Q) PFalse PFalse
       (rleaky_with_beta (py_scalar (q 3 2))
          (leaky_holding subtract (batch [[0]]%Q) (batch [[2]]%Q)))
     = (self',
        Ok (if RLeaky.output
                 (rleaky_with_beta (py_scalar (q 3 2))
                    (leaky_holding subtract (batch [[0]]%Q) (batch [[2]]%Q)))
            then RLeaky.SpkMem s' m' else RLeaky.Spk s'))
     /\ RLeaky.beta self'
        = RLeaky.beta
            (rleaky_with_beta (py_scalar (q 3 2))
               (leaky_holding subtract (batch [[0]]%Q) (batch [[2]]%Q)))
     /\ data m'
        = zip_with3
            (zip_with3
               (fun u x c =>
                  reset_entry
                    (RLeaky.reset_mechanism_val
                       (rleaky_with_beta (py_scalar (q 3 2))
                          (leaky_holding subtract (batch [[0]]%Q)
                             (batch [[2]]%Q))))
                    1 (clamp1 0 1 (q 3 2) * u + x + 1 * c)
                    (heaviside (u - 1))))
            (data (batch [[2]]%Q)) (data (batch [[1]]%Q))
            (data (batch [[0]]%Q))
     /\ data s' = map (map (fun u => heaviside (u - 1))) (data m'))
  /\ clamp1 0 1 (q 3 2) = 1
  /\ (exists after s' m',
        RLeaky.forward (batch [[1]]%Q) PFalse PFalse
          (rleaky_with_beta (py_scalar (q 3 2))
             (leaky_holding subtract (batch [[0]]%Q) (batch [[2]]%Q)))
        = (after, Ok (RLeaky.SpkMem s' m'))
        /\ data m' = [[q 2 1]]
        /\ RLeaky.beta after = py_scalar (q 3 2)).
Proof.
  split; [|split].
  - apply (proj1 (proj2 (proj2 (proj2 (proj2 (proj2 (proj2
                    C9_decay_rates_clamped_at_use))))))
             (rleaky_with_beta (py_scalar (q 3 2))
                (leaky_holding subtract (batch [[0]]%Q) (batch [[2]]%Q)))
             (batch [[1]]%Q) (batch [[0]]%Q) (batch [[2]]%Q) (q 3 2) 1 1);
      first [reflexivity | left; reflexivity].
  - apply (proj1 (proj2 (proj2
             (proj1 (proj2 (proj2 (proj2 C9_decay_rates_clamped_at_use)))
                (q 3 2))))).
    reflexivity.
  - eexists _, _, _. split; [vm_compute; reflexivity|]. split; qc_eq.
Defined.
